(** * Delivery analytics ETL: a shallow embedding of [src/etl_pipeline.py]

    The pipeline object [DeliveryETL] reads a CSV file into a pandas
    DataFrame, cleans it ([transform]), prints diagnostics ([validate]),
    writes the result to a CSV file ([load_to_csv]) and, best effort, to a
    PostgreSQL table ([load_to_database]).

    Modelling choices, all visible in the definitions below:
    - a DataFrame is an ordered list of named Series; a Series carries its
      dtype and its cells; the row labels (the index) are not carried, no
      operation of the pipeline reads them;
    - a numeric cell is a finite number, an exact rational, or one of the
      two infinities of float64; the missing value (NaN, None, NaT) is the
      single cell [NA]; the one float computation of the pipeline, the mean
      of the two middle values of a median, is a section variable;
    - text is a [string] of bytes; [lower] acts on ASCII letters, which is
      all the keyword tests of the pipeline can observe;
    - [pd.to_datetime] (what an entry is read as, and whether the column
      comes back as objects because its entries carry different UTC
      offsets) and [astype(str)] of non-text scalars are library behaviour
      the source only calls: they are section variables, so every theorem
      holds for whatever pandas does there;
    - DataFrame objects live in a store addressed by references, so that
      [copy()], in-place column assignment and re-binding are told apart. *)

From Stdlib Require Import ZArith QArith Qcanon Qround String Ascii List Bool Lia.
From stdpp Require Import base decidable option numbers list gmap strings pretty.

Set Default Proof Using "Type".

Local Open Scope string_scope.
Local Open Scope list_scope.

(** ** Text *)

Module Text.

Definition lower_ascii (c : ascii) : ascii :=
  let n := nat_of_ascii c in
  if (65 <=? n)%nat && (n <=? 90)%nat then ascii_of_nat (n + 32) else c.

(** [s.lower()] *)
Fixpoint lower (s : string) : string :=
  match s with
  | EmptyString => EmptyString
  | String c s' => String (lower_ascii c) (lower s')
  end.

Fixpoint starts_with (pat s : string) : bool :=
  match pat, s with
  | EmptyString, _ => true
  | String a pat', String b s' => if Ascii.eqb a b then starts_with pat' s' else false
  | String _ _, EmptyString => false
  end.

(** [pat in s] *)
Fixpoint contains (pat s : string) : bool :=
  starts_with pat s ||
  match s with
  | EmptyString => false
  | String _ s' => contains pat s'
  end.

(** [Series.str.contains("a|b|c")]: the pattern is an alternation of
    literal words, so a regex search succeeds iff one of them occurs. *)
Definition contains_any (alternatives : list string) (s : string) : bool :=
  existsb (fun k => contains k s) alternatives.

End Text.

(** ** Cells, Series and DataFrames *)

Inductive dtype := Numeric | Object | Datetime.

Inductive cell :=
| NA                  (* NaN / None / NaT *)
| Num (x : Qc)        (* a finite int64, float64 or bool *)
| Inf (positive : bool)   (* float64 inf and -inf *)
| Str (s : string)    (* a Python str in an object column *)
| Ts (ns : Z).        (* Timestamp, nanoseconds since the epoch *)

Global Instance dtype_eq_dec : EqDecision dtype.
Proof. solve_decision. Defined.

Global Instance cell_eq_dec : EqDecision cell.
Proof. solve_decision. Defined.

Record series := Series { dtype_of : dtype; values : list cell }.

Global Instance series_eq_dec : EqDecision series.
Proof. solve_decision. Defined.

(** A DataFrame: its columns in order, each a label and a Series. *)
Definition table := list (string * series).

Definition columns (df : table) : list string := map fst df.

(** [len(df)] *)
Definition nrows (df : table) : nat :=
  match df with
  | [] => 0
  | (_, s) :: _ => length (values s)
  end.

(** [df[name]]; [None] stands for KeyError. *)
Fixpoint getitem (df : table) (name : string) : option series :=
  match df with
  | [] => None
  | (n, s) :: df' => if String.eqb n name then Some s else getitem df' name
  end.

(** [df[name] = s]: an existing column is replaced where it stands, a new
    one is appended at the end. *)
Fixpoint setitem (df : table) (name : string) (s : series) : table :=
  match df with
  | [] => [(name, s)]
  | (n, s0) :: df' =>
      if String.eqb n name then (n, s) :: df' else (n, s0) :: setitem df' name s
  end.

Definition isna (c : cell) : bool :=
  match c with NA => true | _ => false end.

Definition notna (c : cell) : bool := negb (isna c).

(** Boolean indexing [x[mask]]. *)
Fixpoint mask_filter {A} (mask : list bool) (l : list A) : list A :=
  match mask, l with
  | b :: mask', x :: l' =>
      if b then x :: mask_filter mask' l' else mask_filter mask' l'
  | _, _ => []
  end.

Definition take_series (mask : list bool) (s : series) : series :=
  Series (dtype_of s) (mask_filter mask (values s)).

(** [df[mask]]: the same rows of every column. *)
Definition take_rows (mask : list bool) (df : table) : table :=
  map (fun p => (fst p, take_series mask (snd p))) df.

(** The rows of a DataFrame, top to bottom: every column puts its cell in
    front of the row built from the columns to its right. *)
Definition rows (df : table) : list (list cell) :=
  fold_right (fun p acc => zip_with cons (values (snd p)) acc) (repeat [] (nrows df)) df.

(** ** The pandas operations the pipeline calls *)

Definition QcZ (z : Z) : Qc := Q2Qc (inject_Z z).

(** Which scalars a column of a given dtype can hold without turning into
    an object column. *)
Definition holds (d : dtype) (c : cell) : bool :=
  match d, c with
  | Object, _ => true
  | _, NA => true
  | Numeric, Num _ => true
  | Numeric, Inf _ => true
  | Datetime, Ts _ => true
  | _, _ => false
  end.

(** [pd.api.types.is_numeric_dtype] *)
Definition is_numeric_dtype (s : series) : bool :=
  match dtype_of s with Numeric => true | _ => false end.

(** A float64 that is not NaN. *)
Inductive number := Finite (x : Qc) | Infinite (positive : bool).

Global Instance number_eq_dec : EqDecision number.
Proof. solve_decision. Defined.

Definition cell_of_number (x : number) : cell :=
  match x with Finite q => Num q | Infinite p => Inf p end.

Definition number_le (a b : number) : bool :=
  match a, b with
  | Infinite false, _ => true
  | _, Infinite true => true
  | Finite x, Finite y => bool_decide (x <= y)%Qc
  | _, _ => false
  end.

Fixpoint insert_sorted (x : number) (l : list number) : list number :=
  match l with
  | [] => [x]
  | y :: l' => if number_le x y then x :: l else y :: insert_sorted x l'
  end.

Definition sort_numbers (l : list number) : list number := fold_right insert_sorted [] l.

Definition numbers_of (l : list cell) : list number :=
  flat_map (fun c => match c with
                     | Num x => [Finite x]
                     | Inf p => [Infinite p]
                     | _ => []
                     end) l.

(** [Series.fillna(v)]: a Series without a missing entry is returned as it
    is; otherwise the gaps take [v], and a column that cannot hold [v]
    becomes an object column. *)
Definition fillna (v : cell) (s : series) : series :=
  if existsb isna (values s)
  then Series (if holds (dtype_of s) v then dtype_of s else Object)
              (map (fun c => if isna c then v else c) (values s))
  else s.

(** [df.dropna(subset=cols)]: keep the rows with no missing entry in any of
    the listed columns. *)
Definition notna_mask (df : table) (subset : list string) : list bool :=
  fold_right
    (fun c mask =>
       match getitem df c with
       | Some s => zip_with andb (map notna (values s)) mask
       | None => mask
       end)
    (repeat true (nrows df)) subset.

Definition dropna (subset : list string) (df : table) : table :=
  take_rows (notna_mask df subset) df.

(** [df.duplicated()]: a row is marked when an equal row stands above it. *)
Fixpoint duplicated_from (seen rs : list (list cell)) : list bool :=
  match rs with
  | [] => []
  | r :: rs' => bool_decide (r ∈ seen) :: duplicated_from (r :: seen) rs'
  end.

Definition duplicated (df : table) : list bool := duplicated_from [] (rows df).

(** [df.drop_duplicates()] *)
Definition drop_duplicates (df : table) : table :=
  take_rows (map negb (duplicated df)) df.

(** [mask.sum()] *)
Definition count_true (mask : list bool) : nat :=
  length (List.filter (fun b => b) mask).

(** *** Calendar fields of a timestamp *)

Module Calendar.

Local Open Scope Z_scope.

Definition ns_per_day : Z := 86400000000000.

Definition days_of (ns : Z) : Z := ns / ns_per_day.

(** Proleptic Gregorian date of a day count since 1970-01-01. *)
Definition civil_from_days (days : Z) : Z * Z * Z :=
  let z := days + 719468 in
  let era := z / 146097 in
  let doe := z - era * 146097 in
  let yoe := (doe - doe / 1460 + doe / 36524 - doe / 146096) / 365 in
  let doy := doe - (365 * yoe + yoe / 4 - yoe / 100) in
  let mp := (5 * doy + 2) / 153 in
  let d := doy - (153 * mp + 2) / 5 + 1 in
  let m := if mp <? 10 then mp + 3 else mp - 9 in
  let y := yoe + era * 400 in
  ((if m <=? 2 then y + 1 else y), m, d).

Definition days_from_civil (y m d : Z) : Z :=
  let y := if m <=? 2 then y - 1 else y in
  let era := y / 400 in
  let yoe := y - era * 400 in
  let doy := (153 * (if 2 <? m then m - 3 else m + 9) + 2) / 5 + d - 1 in
  let doe := yoe * 365 + yoe / 4 - yoe / 100 + doy in
  era * 146097 + doe - 719468.

Definition year (ns : Z) : Z := fst (fst (civil_from_days (days_of ns))).
Definition month (ns : Z) : Z := snd (fst (civil_from_days (days_of ns))).

(** Monday is 0, Sunday is 6; 1970-01-01 was a Thursday. *)
Definition dayofweek (ns : Z) : Z := (days_of ns + 3) mod 7.

Definition day_name (ns : Z) : string :=
  nth (Z.to_nat (dayofweek ns))
      ["Monday"; "Tuesday"; "Wednesday"; "Thursday"; "Friday"; "Saturday"; "Sunday"]%string
      ""%string.

End Calendar.

(** [Series.dt]: the accessor exists on datetime columns only; on any
    other column reading it raises AttributeError. *)
Definition has_dt (s : series) : bool :=
  match dtype_of s with Datetime => true | _ => false end.

(** [.dt.year], [.dt.month], [.dt.dayofweek], [.dt.day_name()] of a column
    that has the accessor: NaT gives a missing value. *)
Definition dt_field (d : dtype) (f : Z -> cell) (s : series) : series :=
  Series d (map (fun c => match c with Ts ns => f ns | _ => NA end) (values s)).

Definition dt_year : series -> series := dt_field Numeric (fun ns => Num (QcZ (Calendar.year ns))).
Definition dt_month : series -> series
    := dt_field Numeric (fun ns => Num (QcZ (Calendar.month ns))).
Definition dt_dayofweek : series -> series :=
  dt_field Numeric (fun ns => Num (QcZ (Calendar.dayofweek ns))).
Definition dt_day_name : series -> series := dt_field Object (fun ns => Str (Calendar.day_name ns)).


(** ** The transformation on tables *)

Definition delivered_words : list string :=
  ["delivered"; "completed"; "success"; "delivered on time"].

Definition late_words : list string := ["late"; "delay"].

(** [.astype(int)] of a boolean *)
Definition as_int (b : bool) : cell := Num (if b then QcZ 1 else QcZ 0).
Global Arguments as_int : simpl never.

(** [[c for c in df.columns if word in c.lower()]] *)
Definition columns_containing (word : string) (df : table) : list string :=
  List.filter (fun c => Text.contains word (Text.lower c)) (columns df).

(** [df[target] = f(df[source])] *)
Definition derive (df : table) (target source : string) (f : series -> series) : table :=
  match getitem df source with
  | Some s => setitem df target (f s)
  | None => df                     (* KeyError; [source] is always a column *)
  end.

(** Lines 67-70. *)
Definition drop_id_gaps (id_cols : list string) (df : table) : table :=
  let critical_cols := firstn 1 id_cols in
  match critical_cols with
  | [] => df
  | _ :: _ => dropna critical_cols df
  end.

(** Lines 111-114. *)
Definition remove_duplicates (df : table) : table :=
  let dup_count := count_true (duplicated df) in
  if (0 <? dup_count)%nat then drop_duplicates df else df.

(** Whether line 91 finds the [.dt] accessor on the first date-like column. *)
Definition dt_ready (date_cols : list string) (df : table) : bool :=
  match date_cols with
  | [] => true
  | main_date_col :: _ =>
      match getitem df main_date_col with
      | Some s => has_dt s
      | None => true               (* KeyError; [main_date_col] is a column *)
      end
  end.

Section Transform.

(** [pd.to_datetime(..., errors="coerce", infer_datetime_format=True)] on
    one entry that is neither missing nor a timestamp already: the
    timestamp read, or [None] when the entry does not parse.  The column
    is passed too, since pandas guesses the format from it. *)
Variable parse_datetime : series -> cell -> option Z.

(** Whether [pd.to_datetime] finds entries with different UTC offsets in
    the column: it then returns an object column of datetime objects
    instead of a datetime64 column. *)
Variable mixed_offsets : series -> bool.

(** [str(x)] of a scalar that is not text, in a column of a given dtype. *)
Variable repr : dtype -> cell -> string.

(** The float64 mean of two finite numbers, [(a + b) / 2] as numpy rounds
    it: a number again, an infinity when the sum overflows. *)
Variable float_mean : Qc -> Qc -> number.

(** The mean of the two middle values of a median; [inf] and [-inf] have
    none (NaN). *)
Definition middle (a b : number) : cell :=
  match a, b with
  | Finite x, Finite y => cell_of_number (float_mean x y)
  | Infinite p, Infinite q => if Bool.eqb p q then Inf p else NA
  | Infinite p, Finite _ => Inf p
  | Finite _, Infinite q => Inf q
  end.

(** [Series.median()]: missing entries are skipped; the median of no value
    at all is NaN, and so is the one that falls between [-inf] and [inf]. *)
Definition median (s : series) : cell :=
  let xs := sort_numbers (numbers_of (values s)) in
  let n := length xs in
  match n with
  | 0 => NA
  | _ =>
      if Nat.even n
      then middle (nth (n / 2 - 1) xs (Finite 0%Qc)) (nth (n / 2) xs (Finite 0%Qc))
      else cell_of_number (nth (n / 2) xs (Finite 0%Qc))
  end.

(** The body of the fill loop, lines 74-77. *)
Definition fill_series (s : series) : series :=
  if is_numeric_dtype s then fillna (median s) s else fillna (Str "Unknown") s.

(** Lines 73-77: [for col in df.columns: df[col] = ...]. *)
Definition fill_missing (df : table) : table :=
  fold_left (fun df col => derive df col col fill_series) (columns df) df.

(** [pd.to_datetime(s, errors="coerce", ...)], line 86: a missing entry
    and an entry that does not parse become NaT; the column comes back as
    datetime64, or as objects when the offsets are mixed. *)
Definition to_datetime (s : series) : series :=
  Series (if mixed_offsets s then Object else Datetime)
    (map (fun c =>
            match c with
            | NA => NA
            | Ts ns => Ts ns
            | _ => match parse_datetime s c with Some ns => Ts ns | None => NA end
            end)
         (values s)).

(** [.astype(str)] *)
Definition astype_str (s : series) : list string :=
  map (fun c => match c with Str t => t | _ => repr (dtype_of s) c end) (values s).

(** Lines 85-86. *)
Definition convert_dates (date_cols : list string) (df : table) : table :=
  fold_left (fun df col => derive df col col to_datetime) date_cols df.

(** Lines 89-95, on a table that passes [dt_ready]; on any other table
    line 91 raises and nothing is assigned, see [transform]. *)
Definition time_features (date_cols : list string) (df : table) : table :=
  match date_cols with
  | [] => df
  | main_date_col :: _ =>
      let df := derive df "order_year" main_date_col dt_year in
      let df := derive df "order_month" main_date_col dt_month in
      let df := derive df "order_day_of_week" main_date_col dt_dayofweek in
      derive df "order_day_name" main_date_col dt_day_name
  end.

Definition flag_series (words : list string) (status_lower : list string) : series :=
  Series Numeric (map (fun t => as_int (Text.contains_any words t)) status_lower).

Definition on_time_series (delivered late : series) : series :=
  Series Numeric
    (zip_with (fun d l => as_int (bool_decide (d = Num (QcZ 1)) && bool_decide (l = Num (QcZ 0))))
              (values delivered) (values late)).

(** Lines 98-108. *)
Definition status_flags (status_cols : list string) (df : table) : table :=
  match status_cols with
  | [] => df
  | status_col :: _ =>
      match getitem df status_col with
      | None => df               (* KeyError; [status_col] is a column *)
      | Some st =>
          let status_lower := map Text.lower (astype_str st) in
          let df := setitem df "is_delivered" (flag_series delivered_words status_lower) in
          let df := setitem df "is_late" (flag_series late_words status_lower) in
          match getitem df "is_delivered", getitem df "is_late" with
          | Some d, Some l => setitem df "is_on_time" (on_time_series d l)
          | _, _ => df
          end
      end
  end.

(** The table before the last step (lines 53-108), on a run that gets
    past line 91. *)
Definition enrich (raw : table) : table :=
  let df := raw in
  let id_cols := columns_containing "id" df in
  let date_cols := columns_containing "date" df in
  let status_cols := columns_containing "status" df in
  let df := drop_id_gaps id_cols df in
  let df := fill_missing df in
  let df := convert_dates date_cols df in
  let df := time_features date_cols df in
  status_flags status_cols df.

(** [DeliveryETL.transform] as a function from the raw table to the clean
    one, on a run that gets past line 91. *)
Definition transform_table (raw : table) : table :=
  remove_duplicates (enrich raw).

(** Whether [transform] gets past line 91 on [raw]: the first date-like
    column, if any, has come back from [pd.to_datetime] as a datetime
    column. *)
Definition dt_available (raw : table) : bool :=
  dt_ready (columns_containing "date" raw)
    (convert_dates (columns_containing "date" raw)
       (fill_missing (drop_id_gaps (columns_containing "id" raw) raw))).

End Transform.

(** ** A concrete reader of ISO dates, used to run the model *)

Module Iso.

Local Open Scope Z_scope.

Definition digit (c : ascii) : option Z :=
  let n := nat_of_ascii c in
  if (48 <=? n)%nat && (n <=? 57)%nat then Some (Z.of_nat (n - 48)) else None.

Fixpoint digits (acc : Z) (s : string) : option Z :=
  match s with
  | EmptyString => Some acc
  | String c s' =>
      match digit c with
      | Some d => digits (10 * acc + d) s'
      | None => None
      end
  end.

Definition leap (y : Z) : bool :=
  ((y mod 4 =? 0) && negb (y mod 100 =? 0)) || (y mod 400 =? 0).

Definition days_in_month (y m : Z) : Z :=
  if m =? 2 then (if leap y then 29 else 28)
  else if (m =? 4) || (m =? 6) || (m =? 9) || (m =? 11) then 30 else 31.

(** "YYYY-MM-DD" *)
Definition parse_date (s : string) : option Z :=
  if (String.length s =? 10)%nat
     && String.eqb (substring 4 1 s) "-" && String.eqb (substring 7 1 s) "-"
  then
    match digits 0 (substring 0 4 s), digits 0 (substring 5 2 s), digits 0 (substring 8 2 s) with
    | Some y, Some m, Some d =>
        if (1 <=? m) && (m <=? 12) && (1 <=? d) && (d <=? days_in_month y m)
        then Some (Calendar.days_from_civil y m d * Calendar.ns_per_day)
        else None
    | _, _, _ => None
    end
  else None.

(** "HH:MM:SS", in seconds *)
Definition parse_clock (s : string) : option Z :=
  if (String.length s =? 8)%nat
     && String.eqb (substring 2 1 s) ":" && String.eqb (substring 5 1 s) ":"
  then
    match digits 0 (substring 0 2 s), digits 0 (substring 3 2 s), digits 0 (substring 6 2 s) with
    | Some h, Some m, Some sec =>
        if (h <=? 23) && (m <=? 59) && (sec <=? 59) then Some (3600 * h + 60 * m + sec)
        else None
    | _, _, _ => None
    end
  else None.

(** "+HH:MM" or "-HH:MM", in seconds *)
Definition parse_offset (s : string) : option Z :=
  if (String.length s =? 6)%nat && String.eqb (substring 3 1 s) ":"
  then
    match digits 0 (substring 1 2 s), digits 0 (substring 4 2 s) with
    | Some h, Some m =>
        if (h <=? 23) && (m <=? 59)
        then if String.eqb (substring 0 1 s) "+" then Some (3600 * h + 60 * m)
             else if String.eqb (substring 0 1 s) "-" then Some (- (3600 * h + 60 * m))
             else None
        else None
    | _, _ => None
    end
  else None.

(** "YYYY-MM-DD HH:MM:SS+HH:MM": the instant and the UTC offset. *)
Definition parse_zoned (s : string) : option (Z * Z) :=
  if (String.length s =? 25)%nat && String.eqb (substring 10 1 s) " "
  then
    match parse_date (substring 0 10 s), parse_clock (substring 11 8 s),
          parse_offset (substring 19 6 s) with
    | Some day, Some clock, Some offset =>
        Some (day + (clock - offset) * 1000000000, offset)
    | _, _, _ => None
    end
  else None.

(** Text is read as an ISO date, with or without time and UTC offset, a
    number as nanoseconds since the epoch. *)
Definition parse_datetime (_ : series) (c : cell) : option Z :=
  match c with
  | Str t =>
      match parse_date t with
      | Some ns => Some ns
      | None => match parse_zoned t with Some (ns, _) => Some ns | None => None end
      end
  | Num x => Some (Qfloor (Qcanon.this x))
  | _ => None
  end.

(** The UTC offset of a text that parses; a date without one has the
    offset [None]. *)
Definition offset_of (c : cell) : option (option Z) :=
  match c with
  | Str t =>
      match parse_date t with
      | Some _ => Some None
      | None => match parse_zoned t with Some (_, offset) => Some (Some offset) | None => None end
      end
  | _ => None
  end.

(** The texts of the column that parse do not all carry the same offset. *)
Definition mixed_offsets (s : series) : bool :=
  (1 <? length (remove_dups (omap offset_of (values s))))%nat.

Definition repr (d : dtype) (c : cell) : string :=
  match c with
  | NA => match d with Datetime => "NaT" | _ => "nan" end
  | Num x => pretty (Qfloor (Qcanon.this x))
  | Inf true => "inf"
  | Inf false => "-inf"
  | Ts ns => pretty ns
  | Str t => t
  end.

(** The mean of two numbers that are small enough for float64 to be
    exact on them. *)
Definition float_mean (x y : Qc) : number := Finite ((x + y) / QcZ 2)%Qc.

End Iso.

Definition sample_orders : table :=
  [ ("order_id", Series Object [Str "A1"; Str "A1"; NA; Str "B2"]);
    ("order_date", Series Object [Str "2024-01-15"; Str "2024-01-15"; Str "2024-01-16"; NA]);
    ("status", Series Object
        [Str "Delivered On Time"; Str "Delivered On Time"; Str "Late"; Str "Delayed"]);
    ("cost", Series Numeric [Num (QcZ 3); Num (QcZ 3); Num (QcZ 5); NA]) ].

(** ** The pipeline object and the world it runs in *)

(** Paths of [src/config.py], relative to the project root. *)
Definition RAW_DATASET : string := "data/raw/amazon_delivery.csv".
Definition PROCESSED_DATASET : string := "data/processed/deliveries_cleaned.csv".

Inductive exn :=
| FileNotFoundError       (* raised by [extract] *)
| ParserError             (* [pd.read_csv] on a file it cannot read *)
| OSError                 (* the file system refuses a write *)
| ZeroDivisionError
| AttributeError          (* a method of [None], [.dt] of a column without it *)
| TypeError               (* [len(None)] *)
| ImportError
| DatabaseError.          (* any [psycopg2.Error] *)

(** The lines printed that the properties below talk about. *)
Inductive message :=
| MsgTransformDone (initial_rows final_rows : nat)
| MsgUniqueRatio (id_col : string) (ratio : Qc)
| MsgMissingPct (pct : Qc)
| MsgCsvSaved (n : nat)
| MsgDbSkipped
| MsgDbVerified (count : nat)
| MsgDbFailed (e : exn)
| MsgEtlComplete
| MsgDbLoaded.

(** The database server as the pipeline sees it.  [faults] tells, for the
    n-th call made to the driver, whether it raises. *)
Record database := Database {
  faults : nat -> bool;
  calls : nat;
  open_connections : nat;
  deliveries : option (list (list cell))
}.

(** What the file system does with the next write to a file: it takes it,
    refuses to open the file, or fails when [n] characters are on disk. *)
Inductive disk_state := Writable | Refusing | FailingAfter (n : nat).

Record world := World {
  raw_df : option nat;            (* [self.raw_df]: a reference or None *)
  clean_df : option nat;          (* [self.clean_df] *)
  heap : gmap nat table;          (* the DataFrame objects *)
  files : gmap string string;     (* files by path *)
  disk : disk_state;
  sqlalchemy_available : bool;    (* SQLALCHEMY_AVAILABLE *)
  psycopg2_installed : bool;
  pg : database;
  stdout : list message
}.

Inductive result (A : Type) :=
| Ok (a : A)
| Raise (e : exn).
Arguments Ok {A} a.
Arguments Raise {A} e.

(** Computations that read and change the world and may raise. *)
Definition M (A : Type) : Type := world -> result A * world.

Global Instance M_ret : MRet M := fun A a w => (Ok a, w).

Global Instance M_bind : MBind M := fun A B f m w =>
  match m w with
  | (Ok a, w') => f a w'
  | (Raise e, w') => (Raise e, w')
  end.

Definition raise {A} (e : exn) : M A := fun w => (Raise e, w).

(** [try: body except Exception as e: handler(e)] *)
Definition try_except {A} (body : M A) (handler : exn -> M A) : M A := fun w =>
  match body w with
  | (Ok a, w') => (Ok a, w')
  | (Raise e, w') => handler e w'
  end.

Fixpoint for_each {A} (l : list A) (body : A -> M unit) : M unit :=
  match l with
  | [] => mret tt
  | x :: l' => body x ;; for_each l' body
  end.

Definition get_world : M world := fun w => (Ok w, w).

Definition with_heap (h : gmap nat table) (w : world) : world :=
  World (raw_df w) (clean_df w) h (files w) (disk w)
        (sqlalchemy_available w) (psycopg2_installed w) (pg w) (stdout w).

Definition with_raw_df (r : nat) (w : world) : world :=
  World (Some r) (clean_df w) (heap w) (files w) (disk w)
        (sqlalchemy_available w) (psycopg2_installed w) (pg w) (stdout w).

Definition with_clean_df (r : nat) (w : world) : world :=
  World (raw_df w) (Some r) (heap w) (files w) (disk w)
        (sqlalchemy_available w) (psycopg2_installed w) (pg w) (stdout w).

Definition with_files (f : gmap string string) (w : world) : world :=
  World (raw_df w) (clean_df w) (heap w) f (disk w)
        (sqlalchemy_available w) (psycopg2_installed w) (pg w) (stdout w).

Definition with_pg (d : database) (w : world) : world :=
  World (raw_df w) (clean_df w) (heap w) (files w) (disk w)
        (sqlalchemy_available w) (psycopg2_installed w) d (stdout w).

Definition with_stdout (l : list message) (w : world) : world :=
  World (raw_df w) (clean_df w) (heap w) (files w) (disk w)
        (sqlalchemy_available w) (psycopg2_installed w) (pg w) l.

Definition modify (f : world -> world) : M unit := fun w => (Ok tt, f w).

Definition print (m : message) : M unit := modify (fun w => with_stdout (stdout w ++ [m]) w).
Definition set_heap (h : gmap nat table) : M unit := modify (with_heap h).
Definition set_raw_df (r : nat) : M unit := modify (with_raw_df r).
Definition set_clean_df (r : nat) : M unit := modify (with_clean_df r).
Definition set_files (f : gmap string string) : M unit := modify (with_files f).
Definition set_pg (d : database) : M unit := modify (with_pg d).

(** A new DataFrame object. *)
Definition new_frame (t : table) : M nat :=
  w ← get_world;
  let r := fresh (dom (heap w)) in
  set_heap (<[r := t]> (heap w)) ;;
  mret r.

(** The DataFrame a field or variable refers to, for an operation that
    raises [e] on [None]. *)
Definition frame_or (e : exn) (o : option nat) : M table :=
  w ← get_world;
  match o ≫= (fun r => heap w !! r) with
  | Some t => mret t
  | None => raise e
  end.

(** The DataFrame whose method or column is read; [None] has neither. *)
Definition frame (o : option nat) : M table := frame_or AttributeError o.

(** In-place change of the object [r]. *)
Definition update_frame (r : nat) (f : table -> table) : M unit :=
  t ← frame (Some r);
  w ← get_world;
  set_heap (<[r := f t]> (heap w)).

(** One call to the database driver: it raises when the server says so,
    otherwise it has its effect. *)
Definition driver_call (effect : database -> database) : M unit :=
  w ← get_world;
  let d := pg w in
  if faults d (calls d)
  then set_pg (Database (faults d) (S (calls d)) (open_connections d) (deliveries d)) ;;
       raise DatabaseError
  else let d' := effect d in
       set_pg (Database (faults d') (S (calls d)) (open_connections d') (deliveries d')).

Definition db_connect (d : database) : database :=
  Database (faults d) (calls d) (S (open_connections d)) (deliveries d).

Definition db_close (d : database) : database :=
  Database (faults d) (calls d) (pred (open_connections d)) (deliveries d).

Definition db_drop_table (d : database) : database :=
  Database (faults d) (calls d) (open_connections d) None.

Definition db_create_table (d : database) : database :=
  Database (faults d) (calls d) (open_connections d) (Some []).

Definition db_insert (row : list cell) (d : database) : database :=
  Database (faults d) (calls d) (open_connections d)
           (match deliveries d with Some rs => Some (rs ++ [row]) | None => None end).

(** [Series.nunique()]: the number of distinct values, missing ones apart. *)
Definition nunique (s : series) : nat :=
  length (remove_dups (List.filter notna (values s))).

(** [df.isnull().sum().sum()] *)
Definition total_missing (df : table) : nat :=
  sum_list (map (fun p => count_true (map isna (values (snd p)))) df).

(** Python's [a / b] on numbers. *)
Definition truediv (a b : Qc) : M Qc :=
  if decide (b = 0%Qc) then raise ZeroDivisionError else mret (a / b)%Qc.

Definition Qc_of_nat (n : nat) : Qc := QcZ (Z.of_nat n).

Section Pipeline.

Variable parse_datetime : series -> cell -> option Z.
Variable mixed_offsets : series -> bool.
Variable repr : dtype -> cell -> string.
Variable float_mean : Qc -> Qc -> number.

(** [pd.read_csv] on the content of a file ([None]: it raises), and
    [DataFrame.to_csv(index=False)]. *)
Variable read_csv : string -> option table.
Variable to_csv : table -> string.

(** Lines 35-48. *)
Definition extract : M unit :=
  w ← get_world;
  match files w !! RAW_DATASET with
  | None => raise FileNotFoundError
  | Some content =>
      match read_csv content with
      | None => raise ParserError
      | Some t => r ← new_frame t; set_raw_df r
      end
  end.

(** Lines 51-120.  [df] is a local variable holding a reference:
    [copy()], [dropna] and [drop_duplicates] make a new object, the column
    assignments change the object [df] refers to. *)
Definition transform : M unit :=
  w ← get_world;
  raw ← frame (raw_df w);
  df ← new_frame raw;
  let initial_rows := nrows raw in
  let id_cols := columns_containing "id" raw in
  let date_cols := columns_containing "date" raw in
  let status_cols := columns_containing "status" raw in
  let critical_cols := firstn 1 id_cols in
  df ← match critical_cols with
       | [] => mret df
       | _ :: _ => t ← frame (Some df); new_frame (dropna critical_cols t)
       end;
  update_frame df (fill_missing float_mean) ;;
  update_frame df (convert_dates parse_datetime mixed_offsets date_cols) ;;
  t ← frame (Some df);
  (if dt_ready date_cols t then mret tt else raise AttributeError) ;;   (* line 91 *)
  update_frame df (time_features date_cols) ;;
  update_frame df (status_flags repr status_cols) ;;
  t ← frame (Some df);
  let dup_count := count_true (duplicated t) in
  df ← (if (0 <? dup_count)%nat then new_frame (drop_duplicates t) else mret df);
  t ← frame (Some df);
  print (MsgTransformDone initial_rows (nrows t)) ;;
  set_clean_df df.

(** Lines 123-139. *)
Definition validate : M unit :=
  w ← get_world;
  df ← frame_or TypeError (clean_df w);             (* [len(df)], line 127 *)
  let id_cols := columns_containing "id" df in
  match id_cols with
  | [] => mret tt
  | id_col :: _ =>
      match getitem df id_col with
      | None => mret tt          (* KeyError; [id_col] is a column *)
      | Some s =>
          unique_ratio ← truediv (Qc_of_nat (nunique s)) (Qc_of_nat (nrows df));
          print (MsgUniqueRatio id_col unique_ratio)
      end
  end ;;
  let total_cells := (nrows df * length df)%nat in
  let total_missing := total_missing df in
  missing_pct ←
    (if (total_cells =? 0)%nat then mret 0%Qc
     else q ← truediv (Qc_of_nat total_missing) (Qc_of_nat total_cells);
          mret (q * QcZ 100)%Qc);
  print (MsgMissingPct missing_pct).

(** Lines 142-149.  [to_csv] writes the file where it stands: a write that
    fails midway leaves the characters written so far.  The directory of
    the processed path is taken to exist or to be makeable (line 144). *)
Definition load_to_csv : M unit :=
  w ← get_world;
  df ← frame (clean_df w);
  match disk w with
  | Writable => set_files (<[PROCESSED_DATASET := to_csv df]> (files w))
  | Refusing => raise OSError
  | FailingAfter n =>
      set_files (<[PROCESSED_DATASET := substring 0 n (to_csv df)]> (files w)) ;;
      raise OSError
  end ;;
  print (MsgCsvSaved (nrows df)).

(** Lines 160-239, the body of the [try]. *)
Definition database_load : M unit :=
  w ← get_world;
  (if psycopg2_installed w then mret tt else raise ImportError) ;;
  driver_call db_connect ;;                       (* psycopg2.connect(...) *)
  driver_call id ;;                               (* conn.cursor() *)
  driver_call db_drop_table ;;                    (* DROP TABLE IF EXISTS *)
  driver_call id ;;                               (* conn.commit() *)
  driver_call db_create_table ;;                  (* CREATE TABLE *)
  driver_call id ;;                               (* conn.commit() *)
  df ← frame_or TypeError (clean_df w);           (* len(self.clean_df) *)
  for_each (rows df) (fun row => driver_call (db_insert row)) ;;
  driver_call id ;;                               (* conn.commit() *)
  driver_call id ;;                               (* SELECT COUNT( * ) *)
  driver_call id ;;                               (* cursor.fetchone() *)
  w ← get_world;
  count ← match deliveries (pg w) with
          | Some rs => mret (length rs)
          | None => raise DatabaseError
          end;
  print (MsgDbVerified count) ;;
  driver_call id ;;                               (* cursor.close() *)
  driver_call db_close.                           (* conn.close() *)

(** Lines 152-246. *)
Definition load_to_database : M unit :=
  w ← get_world;
  if negb (sqlalchemy_available w)
  then print MsgDbSkipped
  else try_except database_load (fun e => print (MsgDbFailed e)).

(** Lines 259-259: the four stages that must succeed. *)
Definition core_stages : M unit :=
  extract ;; transform ;; validate ;; load_to_csv.

(** Lines 249-270. *)
Definition run (load_db : bool) : M unit :=
  core_stages ;;
  (if load_db then load_to_database else mret tt) ;;
  print MsgEtlComplete ;;
  (if load_db then print MsgDbLoaded else mret tt).

End Pipeline.

(** ** Vocabulary of the properties *)

(** Every column has [n] cells. *)
Definition shape (n : nat) (df : table) : Prop :=
  Forall (fun p => length (values (snd p)) = n) df.

Definition rectangular (df : table) : Prop := shape (nrows df) df.

(** Every cell fits the dtype of its column. *)
Definition typed_series (s : series) : Prop :=
  Forall (fun c => holds (dtype_of s) c = true) (values s).

Definition well_typed (df : table) : Prop := Forall (fun p => typed_series (snd p)) df.

(** What [pd.read_csv] and every stage of the pipeline produce: distinct
    column labels, columns of one length, cells that fit their dtype. *)
Definition wf_table (df : table) : Prop :=
  NoDup (columns df) /\ rectangular df /\ well_typed df.

Global Instance rectangular_dec df : Decision (rectangular df).
Proof. unfold rectangular, shape. apply _. Defined.

Global Instance wf_table_dec df : Decision (wf_table df).
Proof. unfold wf_table, rectangular, shape, well_typed, typed_series. apply _. Defined.

(** No missing entry. *)
Definition complete (s : series) : bool := forallb notna (values s).

Definition date_like (name : string) : bool := Text.contains "date" (Text.lower name).

Definition time_feature_names : list string :=
  ["order_year"; "order_month"; "order_day_of_week"; "order_day_name"].

(** The columns the date step writes: the date-like ones and, when there is
    one, the four time features. *)
Definition date_derived (df : table) (name : string) : bool :=
  date_like name
  || (match columns_containing "date" df with [] => false | _ :: _ => true end
      && bool_decide (name ∈ time_feature_names)).

(** Keeping the first occurrence of every row, in the words of the
    specification: the first row stays, its later copies go, and so on. *)
Fixpoint keep_first (rs : list (list cell)) : list (list cell) :=
  match rs with
  | [] => []
  | r :: rs' => r :: List.filter (fun r' => negb (bool_decide (r' = r))) (keep_first rs')
  end.

(** Tables and worlds to run the model on. *)
Definition undated_orders : table :=
  [ ("order_id", Series Object [Str "A1"; Str "B2"]);
    ("order_date", Series Object [Str "2024-01-15"; NA]) ].

(** Orders whose dates carry different UTC offsets. *)
Definition zoned_orders : table :=
  [ ("order_id", Series Object [Str "A1"; Str "B2"]);
    ("order_date", Series Object [Str "2024-01-15 10:00:00+01:00";
                                  Str "2024-01-15 10:00:00+02:00"]) ].

(** Orders with a plain order date and a shipping date with offsets. *)
Definition shipped_orders : table :=
  [ ("order_id", Series Object [Str "A1"; Str "B2"]);
    ("order_date", Series Object [Str "2024-01-15"; Str "2024-01-16"]);
    ("ship_date", Series Object [Str "2024-01-17 10:00:00+01:00";
                                 Str "2024-01-18 10:00:00+02:00"]) ].

(** A numeric column with as many [-inf] as [inf] and a gap; the second
    row repeats the first. *)
Definition unbounded_readings : table :=
  [ ("sensor", Series Numeric [Num (QcZ 1); Num (QcZ 1); Num (QcZ 2); Num (QcZ 3); Num (QcZ 4)]);
    ("reading", Series Numeric [Inf false; Inf false; Inf true; Inf true; NA]) ].

Definition valid_dates : table :=
  [ ("valid_date", Series Object [Str "2024-01-15"; Str "soon"]) ].

Definition orphan_order : table :=
  [ ("order_id", Series Numeric [NA]);
    ("status", Series Object [Str "Late"]) ].

Definition world_of (raw clean : option table) (fault : nat -> bool) : world :=
  World (match raw with Some _ => Some 0%nat | None => None end)
        (match clean with Some _ => Some 1%nat | None => None end)
        (match raw with Some t => {[ 0%nat := t ]} | None => ∅ end
         ∪ match clean with Some t => {[ 1%nat := t ]} | None => ∅ end)
        ∅ Writable true true (Database fault 0 0 None) [].

(** A server on which the third call of a session, the DROP TABLE, fails. *)
Definition drop_fails (n : nat) : bool := (n =? 2)%nat.

Definition never_fails (n : nat) : bool := false.

(** The parts of the world the database stage has no business with. *)
Definition same_store (w w' : world) : Prop :=
  raw_df w' = raw_df w /\ clean_df w' = clean_df w /\ heap w' = heap w
  /\ files w' = files w.

Definition store_safe {A} (m : M A) : Prop := forall w, same_store w (snd (m w)).

(** A file system holding a raw file, and a reader that finds the sample
    orders in it. *)
Definition world_with_source (fault : nat -> bool) : world :=
  with_files {[ RAW_DATASET := "order_id,order_date,status,cost" ]}
             (world_of None None fault).

Definition read_sample (_ : string) : option table := Some sample_orders.

Definition write_header (df : table) : string :=
  fold_right (fun c acc => String.append c (String.append "," acc)) "" (columns df).

Definition absent_source_world : world := world_of None None never_fails.

Definition flaky_server_world : world := world_with_source drop_fails.

(** A machine without SQLAlchemy. *)
Definition no_driver_world : world :=
  World None (Some 1%nat) {[ 1%nat := undated_orders ]} ∅ Writable false false
        (Database never_fails 0 0 None) [].

(** A disk that gives up after nine characters, with an older processed
    file on it. *)
Definition failing_disk_world : world :=
  World None (Some 1%nat) {[ 1%nat := undated_orders ]} {[ PROCESSED_DATASET := "old" ]}
        (FailingAfter 9) true true (Database never_fails 0 0 None) [].

(** A machine with SQLAlchemy and without psycopg2. *)
Definition no_psycopg2_world : world :=
  World None (Some 1%nat) {[ 1%nat := undated_orders ]} ∅ Writable true false
        (Database never_fails 0 0 None) [].

Definition orphan_world : world := world_of (Some orphan_order) None never_fails.

Definition sample_world : world := world_of (Some sample_orders) None never_fails.

(** [f] applied to the columns whose label passes [P]. *)
Definition map_where (P : string -> bool) (f : series -> series) (df : table) : table :=
  map (fun p => if P (fst p) then (fst p, f (snd p)) else p) df.

(** A numeric column without a single number in it. *)
Definition no_numbers (s : series) : bool :=
  is_numeric_dtype s
  && forallb (fun c => match c with Num _ | Inf _ => false | _ => true end) (values s).

(** What the fill step leaves behind on a column of finite numbers: no
    gap, or a numeric column without a number, whose median does not
    exist. *)
Definition filled (s : series) : bool := complete s || no_numbers s.

Definition is_inf (c : cell) : bool := match c with Inf _ => true | _ => false end.

Definition occurrences (c : cell) (l : list cell) : nat :=
  length (List.filter (fun x => bool_decide (x = c)) l).

(** A numeric column without a median: it holds no finite number and as
    many [-inf] as [inf] (none at all, for one). *)
Definition no_median (s : series) : Prop :=
  is_numeric_dtype s = true
  /\ Forall (fun c => match c with Num _ => False | _ => True end) (values s)
  /\ occurrences (Inf false) (values s) = occurrences (Inf true) (values s).

Definition is_finite (x : number) : bool :=
  match x with Finite _ => true | Infinite _ => false end.

(** How sorted numbers lie: the [-inf], the finite numbers, the [inf]. *)
Definition blocks (a : nat) (middle_part : list number) (b : nat) : list number :=
  repeat (Infinite false) a ++ middle_part ++ repeat (Infinite true) b.

Definition count_infinite (p : bool) (l : list number) : nat :=
  length (List.filter (fun x => bool_decide (x = Infinite p)) l).

Definition count_finite (l : list number) : nat := length (List.filter is_finite l).

(** No cell is an infinity. *)
Definition finite_series (s : series) : Prop := Forall (fun c => is_inf c = false) (values s).

Definition finite_table (df : table) : Prop := Forall (fun p => finite_series (snd p)) df.

Global Instance finite_table_dec df : Decision (finite_table df).
Proof. unfold finite_table, finite_series. apply _. Defined.

(** The table the date step of [transform] finds (lines 85-86). *)
Definition date_step_input (float_mean : Qc -> Qc -> number) (df : table) : table :=
  fill_missing float_mean (drop_id_gaps (columns_containing "id" df) df).

(** [pd.to_datetime] meets no mixed UTC offsets in the date-like columns of
    [df] as the date step finds them: they all come back as datetime
    columns. *)
Definition unmixed (mixed_offsets : series -> bool) (float_mean : Qc -> Qc -> number)
    (df : table) : Prop :=
  Forall (fun p => date_like (fst p) = true -> mixed_offsets (snd p) = false)
         (date_step_input float_mean df).

Global Instance unmixed_dec mixed_offsets float_mean df :
  Decision (unmixed mixed_offsets float_mean df).
Proof. unfold unmixed. apply _. Defined.

(** *** The keyword tests in the words of the specification *)

Definition capital_letters : string := "ABCDEFGHIJKLMNOPQRSTUVWXYZ".
Definition small_letters : string := "abcdefghijklmnopqrstuvwxyz".

(** A character of the first alphabet becomes the one at the same place of
    the second; any other character stays. *)
Fixpoint translate (source target : string) (c : ascii) : ascii :=
  match source, target with
  | String a source', String b target' =>
      if Ascii.eqb a c then b else translate source' target' c
  | _, _ => c
  end.

Fixpoint lowercase (t : string) : string :=
  match t with
  | EmptyString => EmptyString
  | String c t' => String (translate capital_letters small_letters c) (lowercase t')
  end.

(** The word [w] stands somewhere in the text [t]. *)
Definition occurs_in (w t : string) : Prop :=
  exists before after, t = String.append before (String.append w after).

(** One of the keywords occurs in the lower-cased text. *)
Definition mentions (words : list string) (t : string) : Prop :=
  exists w, w ∈ words /\ occurs_in w (lowercase t).

Definition flag_names : list string := ["is_delivered"; "is_late"; "is_on_time"].

Definition derived_names : list string := time_feature_names ++ flag_names.

(** The three flags as functions of the lower-cased status text. *)
Definition flags_of_text (out : table) (status_lower : list string) : Prop :=
  getitem out "is_delivered"
  = Some (Series Numeric
            (map (fun t => as_int (Text.contains_any delivered_words t)) status_lower))
  /\ getitem out "is_late"
     = Some (Series Numeric
               (map (fun t => as_int (Text.contains_any late_words t)) status_lower))
  /\ getitem out "is_on_time"
     = Some (Series Numeric
               (map (fun t => as_int (Text.contains_any delivered_words t
                                      && negb (Text.contains_any late_words t)))
                    status_lower)).

(** *** Tables the transformation has nothing left to do on *)

(** A datetime column: timestamps and NaT. *)
Definition timestamps (s : series) : Prop := dtype_of s = Datetime /\ typed_series s.

(** Date-like columns hold timestamps; the other columns, the time features
    apart, have been filled. *)
Definition columns_settled (df : table) : Prop :=
  forall n s, (n, s) ∈ df ->
    if date_like n then timestamps s else date_derived df n = true \/ filled s = true.

(** The four time features are the calendar fields of the first date-like
    column. *)
Definition time_features_of (df : table) : Prop :=
  match columns_containing "date" df with
  | [] => True
  | main_date_col :: _ =>
      exists sm, getitem df main_date_col = Some sm
        /\ getitem df "order_year" = Some (dt_year sm)
        /\ getitem df "order_month" = Some (dt_month sm)
        /\ getitem df "order_day_of_week" = Some (dt_dayofweek sm)
        /\ getitem df "order_day_name" = Some (dt_day_name sm)
  end.

(** The three flags are those of the first status-like column. *)
Definition flags_of_status (repr : dtype -> cell -> string) (df : table) : Prop :=
  match columns_containing "status" df with
  | [] => True
  | status_col :: _ =>
      exists st, getitem df status_col = Some st
        /\ flags_of_text df (map Text.lower (astype_str repr st))
  end.

(** The first identifier-like column has no gap. *)
Definition ids_present (df : table) : Prop :=
  match columns_containing "id" df with
  | [] => True
  | id_col :: _ => exists s, getitem df id_col = Some s /\ complete s = true
  end.

Definition settled (repr : dtype -> cell -> string) (df : table) : Prop :=
  NoDup (columns df) /\ rectangular df /\ columns_settled df
  /\ time_features_of df /\ flags_of_status repr df /\ ids_present df
  /\ NoDup (rows df).

(** The columns of [raw], in their order, followed by derived columns. *)
Definition extends_columns (raw df : table) : Prop :=
  exists extra,
    columns df = columns raw ++ extra /\ Forall (fun n => n ∈ derived_names) extra.

(** No derived column is taken for an identifier, a date or a status. *)
Definition role_word (word : string) : Prop :=
  Forall (fun n => Text.contains word (Text.lower n) = false) derived_names.

(** ** Vocabulary of the further properties *)

Global Instance exn_eq_dec : EqDecision exn.
Proof. solve_decision. Defined.

Global Instance message_eq_dec : EqDecision message.
Proof. solve_decision. Defined.

(** A computation that leaves a part of the world as it found it. *)
Definition preserves {X A} (part : world -> X) (m : M A) : Prop :=
  forall w, part (snd (m w)) = part w.

(** A computation whose only effect is to print. *)
Definition prints_only {A} (m : M A) : Prop :=
  forall w, exists out, snd (m w) = with_stdout (stdout w ++ out) w.

(** Every DataFrame object of [w0] is still there in [w], holding the same
    table. *)
Definition keeps_objects (w0 w : world) : Prop :=
  forall r t, heap w0 !! r = Some t -> heap w !! r = Some t.

(** What lies outside the DataFrame objects is as in [w0]. *)
Definition same_surroundings (w0 w : world) : Prop :=
  raw_df w = raw_df w0 /\ clean_df w = clean_df w0 /\ files w = files w0
  /\ disk w = disk w0
  /\ sqlalchemy_available w = sqlalchemy_available w0
  /\ psycopg2_installed w = psycopg2_installed w0
  /\ pg w = pg w0 /\ stdout w = stdout w0.

(** The variable [df] of [transform] in full: an object made since [w0],
    holding [t], in a world that differs from [w0] by new objects only. *)
Definition scratch_object (w0 w : world) (df : nat) (t : table) : Prop :=
  same_surroundings w0 w /\ keeps_objects w0 w
  /\ heap w0 !! df = None /\ heap w !! df = Some t.

(** The labels of [names], in order, that are not among [present]. *)
Definition missing_from (present names : list string) : list string :=
  List.filter (fun n => negb (bool_decide (n ∈ present))) names.

(** The columns [transform] adds to a raw table. *)
Definition new_columns (raw : table) : list string :=
  missing_from (columns raw)
    (match columns_containing "date" raw with [] => [] | _ :: _ => time_feature_names end
     ++ match columns_containing "status" raw with [] => [] | _ :: _ => flag_names end).

(** The server after some calls, with [conns] connections open and the
    table [deliveries] holding [rs]. *)
Definition with_server (n conns : nat) (rs : option (list (list cell))) (w : world) : world :=
  with_pg (Database (faults (pg w)) n conns rs) w.

(** The first of the next [n] calls on which the server fails, counted
    from the call to come. *)
Fixpoint first_fault (faulty : nat -> bool) (start n : nat) : option nat :=
  match n with
  | 0 => None
  | S n' => if faulty start then Some 0%nat else S <$> first_fault faulty (S start) n'
  end.

(** A computation made of [n] driver calls, run from a world in which [I]
    holds: when one of these calls fails it raises [DatabaseError]; when
    none fails it has made them all and [I] still holds, unless it has
    raised [DatabaseError] for a reason of its own. *)
Definition driver_sequence {A} (I : world -> Prop) (n : nat) (m : M A) : Prop :=
  forall w, I w ->
    match first_fault (faults (pg w)) (calls (pg w)) n with
    | Some _ => exists w', m w = (Raise DatabaseError, w')
    | None =>
        (exists w', m w = (Raise DatabaseError, w'))
        \/ exists a w', m w = (Ok a, w') /\ I w' /\ faults (pg w') = faults (pg w)
                        /\ calls (pg w') = (calls (pg w) + n)%nat
    end.

(** What [database_load] relies on along the way: the driver is there and
    [self.clean_df] refers to the table [df]. *)
Definition ready_to_load (r : nat) (df : table) (w : world) : Prop :=
  psycopg2_installed w = true /\ clean_df w = Some r /\ heap w !! r = Some df.

(** The raw and clean table of the pipeline object, if any. *)
Definition raw_table (w : world) : option table := raw_df w ≫= (fun r => heap w !! r).
Definition clean_table (w : world) : option table := clean_df w ≫= (fun r => heap w !! r).

(** The mask of the identifier-gap drop
    of a run of [transform] on [raw]. *)
Definition id_mask (raw : table) : list bool :=
  notna_mask raw (firstn 1 (columns_containing "id" raw)).

(** A world in which both tables of the pipeline object are set. *)
Definition loaded_world : world :=
  world_of (Some sample_orders) (Some undated_orders) never_fails.

(** * Properties *)

(** ** The calendar on a known day *)

Example calendar_2024_01_15 :
  let ns := (Calendar.days_from_civil 2024 1 15 * Calendar.ns_per_day)%Z in
  (Calendar.year ns, Calendar.month ns, Calendar.dayofweek ns, Calendar.day_name ns)
  = (2024%Z, 1%Z, 0%Z, "Monday").
Proof. reflexivity. Qed.

(** ** The median on small columns *)

Example median_odd :
  bool_decide (median Iso.float_mean
                 (Series Numeric [Num (QcZ 3); NA; Num (QcZ 1); Num (QcZ 2)])
               = Num (QcZ 2)) = true.
Proof. by vm_compute. Qed.

Example median_even :
  bool_decide (median Iso.float_mean (Series Numeric [Num (QcZ 4); Num (QcZ 1)])
               = Num (Q2Qc (5 # 2))) = true.
Proof. by vm_compute. Qed.

Example median_of_nothing : median Iso.float_mean (Series Numeric [NA; NA]) = NA.
Proof. reflexivity. Qed.

(** Between [-inf] and [inf] there is no median, whatever the float mean
    does on finite numbers; with one more [inf] there is. *)
Example median_of_infinities (float_mean : Qc -> Qc -> number) :
  median float_mean (Series Numeric [Inf true; Inf false; NA]) = NA
  /\ median float_mean (Series Numeric [Inf true; Inf false; Inf true; NA]) = Inf true.
Proof. split; reflexivity. Qed.

(** ** Running the monad *)

Ltac unfold_m :=
  unfold mbind, M_bind, mret, M_ret, raise, try_except, get_world, print,
    set_heap, set_raw_df, set_clean_df, set_files, set_pg, modify in *.

(** Whether a literal label stands in a literal list of labels. *)
Ltac label_in := apply (bool_decide_unpack _); vm_compute; exact I.

Lemma bind_ok {A B} (m : M A) (f : A -> M B) (w w' : world) (a : A) :
  m w = (Ok a, w') -> (m ≫= f) w = f a w'.
Proof. intros H. unfold mbind, M_bind. by rewrite H. Qed.

Lemma bind_raise {A B} (m : M A) (f : A -> M B) (w w' : world) (e : exn) :
  m w = (Raise e, w') -> (m ≫= f) w = (Raise e, w').
Proof. intros H. unfold mbind, M_bind. by rewrite H. Qed.

Section StageProperties.

Context (parse_datetime : series -> cell -> option Z) (mixed_offsets : series -> bool)
        (repr : dtype -> cell -> string) (float_mean : Qc -> Qc -> number)
        (read_csv : string -> option table)
        (to_csv : table -> string).

Lemma extract_missing_source (w : world) :
  files w !! RAW_DATASET = None ->
  extract read_csv w = (Raise FileNotFoundError, w).
Proof. intros H. unfold extract. unfold_m. by rewrite H. Qed.

Lemma extract_present_source (w : world) (content : string) :
  files w !! RAW_DATASET = Some content ->
  fst (extract read_csv w) <> Raise FileNotFoundError.
Proof.
  intros H. unfold extract, new_frame. unfold_m. rewrite H.
  by destruct (read_csv content).
Qed.

(** C6. [extract] raises [FileNotFoundError] exactly when there is no file
    at the raw input path, and a run that meets this leaves the whole world
    as it was: in particular no file is created or changed at the
    processed-dataset path. *)
Theorem extract_source_not_found (w : world) (load_db : bool) :
  (fst (extract read_csv w) = Raise FileNotFoundError <-> files w !! RAW_DATASET = None)
  /\ (files w !! RAW_DATASET = None ->
      run parse_datetime mixed_offsets repr float_mean read_csv to_csv load_db w
          = (Raise FileNotFoundError, w)
      /\ files (snd (run parse_datetime mixed_offsets repr float_mean read_csv to_csv load_db w)) !!
          PROCESSED_DATASET
         = files w !! PROCESSED_DATASET).
Proof.
  split.
  - split.
    + intros Hraise. destruct (files w !! RAW_DATASET) as [content|] eqn:Hfile; [|done].
      by destruct (extract_present_source w content Hfile).
    + intros Hfile. by rewrite extract_missing_source.
  - intros Hfile.
    assert (Hrun : run parse_datetime mixed_offsets repr float_mean read_csv to_csv load_db w
                   = (Raise FileNotFoundError, w)).
    { unfold run, core_stages.
      repeat (erewrite bind_raise; [reflexivity|]).
      by apply extract_missing_source. }
    by rewrite Hrun.
Qed.

End StageProperties.

(** ** The database stage touches nothing but the server and the terminal *)

Lemma same_store_refl (w : world) : same_store w w.
Proof. by repeat split. Qed.

Lemma same_store_trans (w1 w2 w3 : world) :
  same_store w1 w2 -> same_store w2 w3 -> same_store w1 w3.
Proof.
  intros (?&?&?&?) (?&?&?&?). repeat split; congruence.
Qed.

Lemma store_safe_ret {A} (a : A) : store_safe (mret a).
Proof. intros w. apply same_store_refl. Qed.

Lemma store_safe_raise {A} (e : exn) : store_safe (@raise A e).
Proof. intros w. apply same_store_refl. Qed.

Lemma store_safe_get : store_safe get_world.
Proof. intros w. apply same_store_refl. Qed.

Lemma store_safe_print (m : message) : store_safe (print m).
Proof. intros w. by repeat split. Qed.

Lemma store_safe_set_pg (d : database) : store_safe (set_pg d).
Proof. intros w. by repeat split. Qed.

Lemma store_safe_bind {A B} (m : M A) (f : A -> M B) :
  store_safe m -> (forall a, store_safe (f a)) -> store_safe (m ≫= f).
Proof.
  intros Hm Hf w. specialize (Hm w). unfold mbind, M_bind.
  destruct (m w) as [[a|e] w1]; simpl in *; [|done].
  eapply same_store_trans; [exact Hm | apply Hf].
Qed.

Lemma store_safe_try {A} (body : M A) (handler : exn -> M A) :
  store_safe body -> (forall e, store_safe (handler e)) -> store_safe (try_except body handler).
Proof.
  intros Hm Hf w. specialize (Hm w). unfold try_except.
  destruct (body w) as [[a|e] w1]; simpl in *; [done|].
  eapply same_store_trans; [exact Hm | apply Hf].
Qed.

Lemma store_safe_for_each {A} (l : list A) (body : A -> M unit) :
  (forall x, store_safe (body x)) -> store_safe (for_each l body).
Proof.
  intros Hbody. induction l as [|x l IH]; simpl.
  - apply store_safe_ret.
  - apply store_safe_bind; [apply Hbody | intros _; exact IH].
Qed.

Lemma store_safe_frame (o : option nat) : store_safe (frame o).
Proof.
  unfold frame. apply store_safe_bind; [apply store_safe_get|].
  intros w. destruct (o ≫= _); [apply store_safe_ret | apply store_safe_raise].
Qed.

Lemma store_safe_driver_call (effect : database -> database) :
  store_safe (driver_call effect).
Proof.
  unfold driver_call. apply store_safe_bind; [apply store_safe_get|].
  intros w. destruct (faults (pg w) (calls (pg w))).
  - apply store_safe_bind; [apply store_safe_set_pg | intros _; apply store_safe_raise].
  - apply store_safe_set_pg.
Qed.

Create HintDb store_safe.
#[export] Hint Resolve store_safe_ret store_safe_raise store_safe_get store_safe_print
  store_safe_set_pg store_safe_frame store_safe_driver_call : store_safe.

Lemma store_safe_database_load : store_safe database_load.
Proof.
  unfold database_load.
  repeat first
    [ solve [auto with store_safe]
    | apply store_safe_for_each; intros ?
    | match goal with |- store_safe (if ?b then _ else _) => destruct b end
    | match goal with |- store_safe (match ?o with Some _ => _ | None => _ end) => destruct o end
    | apply store_safe_bind; [| intros ?] ].
Qed.

Lemma store_safe_load_to_database : store_safe load_to_database.
Proof.
  unfold load_to_database.
  apply store_safe_bind; [apply store_safe_get|]. intros w.
  destruct (negb (sqlalchemy_available w)); [apply store_safe_print|].
  apply store_safe_try; [apply store_safe_database_load | intros e; apply store_safe_print].
Qed.

Lemma load_to_database_returns (w : world) : fst (load_to_database w) = Ok tt.
Proof.
  unfold load_to_database. unfold_m.
  destruct (negb (sqlalchemy_available w)); [done|].
  by destruct (database_load w) as [[[]|e] w1].
Qed.

Lemma load_to_database_skips (w : world) :
  sqlalchemy_available w = false ->
  load_to_database w = (Ok tt, with_stdout (stdout w ++ [MsgDbSkipped]) w).
Proof. intros H. unfold load_to_database. unfold_m. by rewrite H. Qed.

Lemma extract_source_not_found_witness :
  run Iso.parse_datetime Iso.mixed_offsets Iso.repr Iso.float_mean read_sample write_header true
      absent_source_world
  = (Raise FileNotFoundError, absent_source_world)
  /\ files (snd (run Iso.parse_datetime Iso.mixed_offsets Iso.repr Iso.float_mean read_sample
      write_header true
                     absent_source_world)) !! PROCESSED_DATASET
     = files absent_source_world !! PROCESSED_DATASET.
Proof.
  apply (extract_source_not_found Iso.parse_datetime Iso.mixed_offsets Iso.repr Iso.float_mean
      read_sample write_header
                                  absent_source_world true).
  reflexivity.
Defined.

(** C9. On a server whose DROP TABLE fails, [load_to_database] opens a
    connection, returns normally, and the connection is still open: the
    handler of the [try] does not close it. *)
Theorem load_to_database_leaks_connection :
  let w := world_of None (Some sample_orders) drop_fails in
  open_connections (pg w) = 0%nat
  /\ fst (load_to_database w) = Ok tt
  /\ stdout (snd (load_to_database w)) = [MsgDbFailed DatabaseError]
  /\ open_connections (pg (snd (load_to_database w))) = 1%nat.
Proof. vm_compute. by repeat split. Qed.

(** On a server that never fails the connection is closed again. *)
Example load_to_database_closes_on_success :
  let w := world_of None (Some undated_orders) never_fails in
  fst (load_to_database w) = Ok tt
  /\ stdout (snd (load_to_database w)) = [MsgDbVerified 2]
  /\ open_connections (pg (snd (load_to_database w))) = 0%nat.
Proof. vm_compute. by repeat split. Qed.

(** ** Reading and writing DataFrame objects *)

Lemma new_frame_eq (t : table) (w : world) :
  new_frame t w
  = (Ok (fresh (dom (heap w))), with_heap (<[fresh (dom (heap w)) := t]> (heap w)) w).
Proof. reflexivity. Qed.

Lemma frame_or_eq (e : exn) (w : world) (r : nat) (t : table) :
  heap w !! r = Some t -> frame_or e (Some r) w = (Ok t, w).
Proof. intros H. unfold frame_or. unfold_m. simpl. by rewrite H. Qed.

Lemma frame_eq (w : world) (r : nat) (t : table) :
  heap w !! r = Some t -> frame (Some r) w = (Ok t, w).
Proof. apply frame_or_eq. Qed.

Lemma frame_or_none (e : exn) (o : option nat) (w : world) :
  o ≫= (fun r => heap w !! r) = None -> frame_or e o w = (Raise e, w).
Proof. intros H. unfold frame_or. unfold_m. by rewrite H. Qed.

Lemma update_frame_eq (w : world) (r : nat) (t : table) (f : table -> table) :
  heap w !! r = Some t ->
  update_frame r f w = (Ok tt, with_heap (<[r := f t]> (heap w)) w).
Proof.
  intros H. unfold update_frame. erewrite bind_ok; [|by apply frame_eq].
  reflexivity.
Qed.

(** ** [validate] *)

Lemma store_safe_truediv (a b : Qc) : store_safe (truediv a b).
Proof. unfold truediv. destruct (decide _); auto with store_safe. Qed.

(** [validate] changes nothing but the terminal. *)
Lemma validate_reads_only : store_safe validate.
Proof.
  unfold validate.
  repeat first
    [ solve [auto using store_safe_truediv with store_safe]
    | match goal with |- store_safe (if ?b then _ else _) => destruct b end
    | match goal with |- store_safe (match ?o with Some _ => _ | None => _ end) => destruct o end
    | match goal with |- store_safe (match ?l with [] => _ | _ :: _ => _ end) => destruct l end
    | apply store_safe_bind; [| intros ?] ].
Qed.

Lemma Qc_of_nat_zero (n : nat) : Qc_of_nat n = 0%Qc -> n = 0%nat.
Proof.
  intros H. apply (f_equal Qcanon.this) in H. unfold Qc_of_nat, QcZ in H. simpl in H.
  assert (Hq : (inject_Z (Z.of_nat n) == 0)%Q).
  { rewrite <- (Qred_correct (inject_Z (Z.of_nat n))). rewrite H. reflexivity. }
  unfold Qeq in Hq. simpl in Hq. lia.
Qed.

Lemma truediv_returns (a b : Qc) (w : world) :
  b <> 0%Qc -> truediv a b w = (Ok (a / b)%Qc, w).
Proof. intros H. unfold truediv. by destruct (decide (b = 0%Qc)). Qed.

(** On a clean table with at least one row, or without identifier-like
    column, [validate] returns normally. *)
Lemma validate_returns (w : world) (r : nat) (df : table) :
  clean_df w = Some r -> heap w !! r = Some df ->
  nrows df <> 0%nat \/ columns_containing "id" df = [] ->
  fst (validate w) = Ok tt.
Proof.
  intros Hfield Hdf Hrows. unfold validate.
  erewrite bind_ok; [|reflexivity].
  erewrite bind_ok; [|rewrite Hfield; by apply frame_or_eq].
  assert (Hratio : exists w1,
             (match columns_containing "id" df with
              | [] => mret tt
              | id_col :: _ =>
                  match getitem df id_col with
                  | None => mret tt
                  | Some s =>
                      unique_ratio ← truediv (Qc_of_nat (nunique s)) (Qc_of_nat (nrows df));
                      print (MsgUniqueRatio id_col unique_ratio)
                  end
              end) w = (Ok tt, w1)).
  { destruct (columns_containing "id" df) as [|id_col rest]; [by eexists|].
    destruct Hrows as [Hrows|?]; [|done].
    destruct (getitem df id_col) as [s|]; [|by eexists].
    eexists. erewrite bind_ok; [reflexivity|].
    apply truediv_returns. by intros ?%Qc_of_nat_zero. }
  destruct Hratio as [w1 Hw1]. erewrite bind_ok; [|exact Hw1].
  destruct (nrows df * length df =? 0)%nat eqn:Hcells.
  - reflexivity.
  - apply Nat.eqb_neq in Hcells.
    erewrite bind_ok; [reflexivity|].
    erewrite bind_ok; [reflexivity|].
    apply truediv_returns. by intros ?%Qc_of_nat_zero.
Qed.

(** C8. The raw table of the specification's own scenario, one order with a
    missing identifier: [transform] drops the row and leaves an empty table
    with an identifier column, and [validate] on it raises
    [ZeroDivisionError] at the unique-ratio division. *)
Theorem validate_raises_on_empty_table :
  fst (transform Iso.parse_datetime Iso.mixed_offsets Iso.repr Iso.float_mean orphan_world) = Ok tt
  /\ fst (frame (clean_df
      (snd (transform Iso.parse_datetime Iso.mixed_offsets Iso.repr Iso.float_mean orphan_world)))
                (snd (transform Iso.parse_datetime Iso.mixed_offsets Iso.repr Iso.float_mean
                    orphan_world)))
     = Ok [ ("order_id", Series Numeric []); ("status", Series Object []);
            ("is_delivered", Series Numeric []); ("is_late", Series Numeric []);
            ("is_on_time", Series Numeric []) ]
  /\ fst (validate (snd
      (transform Iso.parse_datetime Iso.mixed_offsets Iso.repr Iso.float_mean orphan_world)))
     = Raise ZeroDivisionError
  /\ fst ((transform Iso.parse_datetime Iso.mixed_offsets Iso.repr Iso.float_mean ;; validate)
      orphan_world)
     = Raise ZeroDivisionError.
Proof. vm_compute. by repeat split. Qed.

(** ** [transform] works on a copy *)

Lemma fresh_ref_new (h : gmap nat table) (r : nat) (t : table) :
  h !! r = Some t -> fresh (dom h) <> r.
Proof.
  intros H Heq. apply (is_fresh (dom h)). rewrite Heq. apply elem_of_dom. eauto.
Qed.

Lemma fresh_ref_free (h : gmap nat table) : h !! fresh (dom h) = None.
Proof. apply not_elem_of_dom, is_fresh. Qed.

Lemma scratch_update w0 w df t (f : table -> table) :
  scratch_object w0 w df t ->
  exists w', update_frame df f w = (Ok tt, w') /\ scratch_object w0 w' df (f t).
Proof.
  intros (Hsame & Hkeep & Hnew & Hdf). eexists. split; [by apply update_frame_eq|].
  split; [exact Hsame|]. split; [|split; [done|]]; simpl.
  - intros r t' Hr. simpl. rewrite lookup_insert_ne; [by apply Hkeep|]. intros <-. congruence.
  - by rewrite lookup_insert_eq.
Qed.

Lemma scratch_rebind w0 w df t (t' : table) :
  scratch_object w0 w df t ->
  exists w' df', new_frame t' w = (Ok df', w') /\ scratch_object w0 w' df' t'.
Proof.
  intros (Hsame & Hkeep & Hnew & Hdf). do 2 eexists. split; [apply new_frame_eq|].
  pose proof (fresh_ref_free (heap w)) as Hfresh.
  split; [exact Hsame|]. split; [|split]; simpl.
  - intros r t0 Hr. simpl. rewrite lookup_insert_ne; [by apply Hkeep|].
    intros <-. apply Hkeep in Hr. congruence.
  - destruct (heap w0 !! fresh (dom (heap w))) as [t0|] eqn:E; [|done].
    apply Hkeep in E. congruence.
  - by rewrite lookup_insert_eq.
Qed.

Section TransformMethod.

Context (parse_datetime : series -> cell -> option Z) (mixed_offsets : series -> bool)
        (repr : dtype -> cell -> string) (float_mean : Qc -> Qc -> number).

(** A run of [transform] on a raw table, step by step: it works on objects
    of its own; when the first date-like column has come back from
    [pd.to_datetime] without the [.dt] accessor it stops at line 91, and
    otherwise it stores [transform_table raw]. *)
Lemma transform_run (w : world) (r : nat) (raw : table) :
  raw_df w = Some r -> heap w !! r = Some raw ->
  exists w1 df t,
    scratch_object w w1 df t
    /\ if dt_available parse_datetime mixed_offsets float_mean raw
       then t = transform_table parse_datetime mixed_offsets repr float_mean raw
            /\ transform parse_datetime mixed_offsets repr float_mean w
               = (Ok tt,
                  with_clean_df df
                    (with_stdout (stdout w1 ++ [MsgTransformDone (nrows raw) (nrows t)]) w1))
       else transform parse_datetime mixed_offsets repr float_mean w
            = (Raise AttributeError, w1).
Proof.
  intros Hfield Hraw. unfold transform.
  erewrite bind_ok; [|reflexivity].
  erewrite bind_ok; [|rewrite Hfield; by apply frame_eq].
  (* df = self.raw_df.copy() *)
  assert (Hcopy : exists w1 df1, new_frame raw w = (Ok df1, w1)
                                 /\ scratch_object w w1 df1 raw).
  { do 2 eexists. split; [apply new_frame_eq|].
    pose proof (fresh_ref_free (heap w)) as Hfresh.
    split; [by repeat split|]. split; [|split; [done|]]; simpl.
    - intros r0 t0 Hr0. simpl. rewrite lookup_insert_ne; [done|]. intros <-. congruence.
    - by rewrite lookup_insert_eq. }
  destruct Hcopy as (w1 & df1 & Hrun1 & Hs1).
  erewrite bind_ok; [|exact Hrun1].
  (* the identifier-gap drop *)
  assert (Hdrop : exists w2 df2,
             (match firstn 1 (columns_containing "id" raw) with
              | [] => mret df1
              | _ :: _ => t ← frame (Some df1);
                          new_frame (dropna (firstn 1 (columns_containing "id" raw)) t)
              end) w1 = (Ok df2, w2)
             /\ scratch_object w w2 df2 (drop_id_gaps (columns_containing "id" raw) raw)).
  { unfold drop_id_gaps.
    destruct (firstn 1 (columns_containing "id" raw)) as [|c cs]; [by eauto|].
    destruct (scratch_rebind _ _ _ _ (dropna (c :: cs) raw) Hs1) as (w2 & df2 & Hrun2 & Hs2).
    exists w2, df2. split; [|done].
    erewrite bind_ok; [exact Hrun2|]. apply frame_eq, Hs1. }
  destruct Hdrop as (w2 & df2 & Hrun2 & Hs2).
  erewrite bind_ok; [|exact Hrun2].
  (* the fill and the date conversion, in place *)
  destruct (scratch_update _ _ _ _ (fill_missing float_mean) Hs2) as (w3 & Hrun3 & Hs3).
  erewrite bind_ok; [|exact Hrun3].
  destruct (scratch_update _ _ _ _
              (convert_dates parse_datetime mixed_offsets (columns_containing "date" raw)) Hs3)
    as (w4 & Hrun4 & Hs4).
  erewrite bind_ok; [|exact Hrun4].
  erewrite bind_ok; [|apply frame_eq, Hs4].
  (* line 91 *)
  unfold dt_available.
  destruct (dt_ready _ _) eqn:Hready.
  - erewrite bind_ok; [|reflexivity].
    destruct (scratch_update _ _ _ _ (time_features (columns_containing "date" raw)) Hs4)
      as (w5 & Hrun5 & Hs5).
    erewrite bind_ok; [|exact Hrun5].
    destruct (scratch_update _ _ _ _
                (status_flags repr (columns_containing "status" raw)) Hs5)
      as (w6 & Hrun6 & Hs6).
    erewrite bind_ok; [|exact Hrun6].
    erewrite bind_ok; [|apply frame_eq, Hs6].
    fold (enrich parse_datetime mixed_offsets repr float_mean raw) in *.
    set (E := enrich parse_datetime mixed_offsets repr float_mean raw) in *.
    (* the removal of duplicates *)
    assert (Hdedup : exists w7 df7,
               (if (0 <? count_true (duplicated E))%nat
                then new_frame (drop_duplicates E) else mret df2) w6 = (Ok df7, w7)
               /\ scratch_object w w7 df7 (remove_duplicates E)).
    { unfold remove_duplicates.
      destruct (0 <? count_true (duplicated E))%nat; [|by eauto].
      by apply (scratch_rebind _ _ _ _ _ Hs6). }
    destruct Hdedup as (w7 & df7 & Hrun7 & Hs7).
    erewrite bind_ok; [|exact Hrun7].
    erewrite bind_ok; [|apply frame_eq, Hs7].
    exists w7, df7, (remove_duplicates E). split; [exact Hs7|]. split; reflexivity.
  - erewrite bind_raise; [|reflexivity].
    exists w4, df2. eexists. split; [exact Hs4|reflexivity].
Qed.

(** C10. Whether [transform] returns or stops at line 91, [self.raw_df]
    still refers to the same object and that object still holds the raw
    table.  On a raw table as [pd.read_csv] makes them (distinct labels,
    columns of one length), [transform] returns exactly when [.dt] is
    available on the first date-like column, and the clean table is then
    another object, which holds [transform_table] of the raw one. *)
Theorem transform_keeps_raw (w : world) (r : nat) (raw : table) :
  raw_df w = Some r -> heap w !! r = Some raw ->
  raw_df (snd (transform parse_datetime mixed_offsets repr float_mean w)) = Some r
  /\ heap (snd (transform parse_datetime mixed_offsets repr float_mean w)) !! r = Some raw
  /\ (wf_table raw ->
      (fst (transform parse_datetime mixed_offsets repr float_mean w) = Ok tt
       <-> dt_available parse_datetime mixed_offsets float_mean raw = true)
      /\ (fst (transform parse_datetime mixed_offsets repr float_mean w) = Ok tt ->
          exists r',
            clean_df (snd (transform parse_datetime mixed_offsets repr float_mean w))
            = Some r'
            /\ r' <> r
            /\ heap (snd (transform parse_datetime mixed_offsets repr float_mean w)) !! r'
               = Some (transform_table parse_datetime mixed_offsets repr float_mean raw))).
Proof.
  intros Hfield Hraw.
  destruct (transform_run w r raw Hfield Hraw) as (w1 & df & t & Hs & Hrun).
  destruct Hs as (Hsame & Hkeep & Hnew & Hdf).
  destruct Hsame as (Hr & _).
  destruct (dt_available parse_datetime mixed_offsets float_mean raw).
  - destruct Hrun as [-> ->]. simpl. rewrite Hr.
    split; [done|]. split; [by apply Hkeep|]. intros _. split; [done|].
    intros _. exists df. split; [done|]. split; [|done].
    intros ->. congruence.
  - rewrite Hrun. simpl. rewrite Hr.
    split; [done|]. split; [by apply Hkeep|]. intros _. split; done.
Qed.

End TransformMethod.

Lemma transform_keeps_raw_witness :
  raw_df (snd (transform Iso.parse_datetime Iso.mixed_offsets Iso.repr Iso.float_mean
                 sample_world)) = Some 0%nat
  /\ heap (snd (transform Iso.parse_datetime Iso.mixed_offsets Iso.repr Iso.float_mean
                  sample_world)) !! 0%nat = Some sample_orders
  /\ fst (transform Iso.parse_datetime Iso.mixed_offsets Iso.repr Iso.float_mean sample_world)
     = Ok tt.
Proof.
  pose proof (transform_keeps_raw Iso.parse_datetime Iso.mixed_offsets Iso.repr Iso.float_mean
                sample_world 0 sample_orders) as H.
  destruct H as (H1 & H2 & H3).
  - reflexivity.
  - reflexivity.
  - split; [exact H1|]. split; [exact H2|].
    apply H3; [|reflexivity]. apply (bool_decide_unpack _). vm_compute. exact I.
Defined.

(** On orders whose dates carry different UTC offsets [transform] stops at
    line 91, after it has made its copy; the raw table is as it was. *)
Example transform_stops_on_mixed_offsets :
  let w := world_of (Some zoned_orders) None never_fails in
  fst (transform Iso.parse_datetime Iso.mixed_offsets Iso.repr Iso.float_mean w)
  = Raise AttributeError
  /\ raw_table (snd (transform Iso.parse_datetime Iso.mixed_offsets Iso.repr Iso.float_mean w))
     = Some zoned_orders
  /\ clean_df (snd (transform Iso.parse_datetime Iso.mixed_offsets Iso.repr Iso.float_mean w))
     = None.
Proof. vm_compute. by repeat split. Qed.

(** ** Columns by label *)

Lemma getitem_setitem_eq (df : table) (n : string) (s : series) :
  getitem (setitem df n s) n = Some s.
Proof.
  induction df as [|[m t] df IH]; simpl.
  - by rewrite String.eqb_refl.
  - destruct (String.eqb m n) eqn:E; simpl; by rewrite E.
Qed.

Lemma getitem_setitem_ne (df : table) (n m : string) (s : series) :
  n <> m -> getitem (setitem df n s) m = getitem df m.
Proof.
  intros Hne. induction df as [|[k t] df IH]; simpl.
  - by apply String.eqb_neq in Hne as ->.
  - destruct (String.eqb k n) eqn:E; simpl.
    + apply String.eqb_eq in E as ->. by apply String.eqb_neq in Hne as ->.
    + by rewrite IH.
Qed.

Lemma setitem_same (df : table) (n : string) (s : series) :
  getitem df n = Some s -> setitem df n s = df.
Proof.
  induction df as [|[m t] df IH]; simpl; [done|].
  destruct (String.eqb m n) eqn:E.
  - by intros [= ->].
  - intros H. by rewrite IH.
Qed.

Lemma getitem_columns (df : table) (n : string) :
  n ∈ columns df <-> is_Some (getitem df n).
Proof.
  induction df as [|[m t] df IH]; simpl.
  - split; [by intros ?%elem_of_nil | by intros [? ?]].
  - rewrite elem_of_cons, IH. destruct (String.eqb m n) eqn:E.
    + apply String.eqb_eq in E as ->. split; eauto.
    + apply String.eqb_neq in E. split; [by intros [->|?] | by right].
Qed.

Lemma getitem_elem_of (df : table) (n : string) (s : series) :
  getitem df n = Some s -> (n, s) ∈ df.
Proof.
  induction df as [|[m t] df IH]; simpl; [done|].
  destruct (String.eqb m n) eqn:E.
  - apply String.eqb_eq in E as ->. intros [= ->]. apply elem_of_cons. by left.
  - intros H. apply elem_of_cons. right. by apply IH.
Qed.

Lemma elem_of_getitem (df : table) (n : string) (s : series) :
  NoDup (columns df) -> (n, s) ∈ df -> getitem df n = Some s.
Proof.
  induction df as [|[m t] df IH]; simpl.
  - by intros _ ?%elem_of_nil.
  - intros [Hm Hnd]%NoDup_cons [[= -> ->]|Hin]%elem_of_cons.
    + by rewrite String.eqb_refl.
    + destruct (String.eqb m n) eqn:E; [|by apply IH].
      apply String.eqb_eq in E as ->. destruct Hm.
      apply (list_elem_of_fmap_2 fst) in Hin. exact Hin.
Qed.

Lemma columns_setitem (df : table) (n : string) (s : series) :
  columns (setitem df n s)
  = columns df ++ (if bool_decide (n ∈ columns df) then [] else [n]).
Proof.
  induction df as [|[m t] df IH]; simpl; [done|].
  destruct (String.eqb m n) eqn:E; simpl.
  - apply String.eqb_eq in E as ->.
    rewrite bool_decide_eq_true_2 by (apply elem_of_cons; by left).
    by rewrite app_nil_r.
  - apply String.eqb_neq in E. rewrite IH. do 2 f_equal.
    replace (bool_decide (n ∈ m :: columns df)) with (bool_decide (n ∈ columns df)); [done|].
    apply bool_decide_ext. rewrite elem_of_cons. split; [by right | by intros [->|?]].
Qed.

Lemma columns_setitem_old (df : table) (n : string) (s : series) :
  n ∈ columns df -> columns (setitem df n s) = columns df.
Proof.
  intros H. rewrite columns_setitem, bool_decide_eq_true_2 by done. apply app_nil_r.
Qed.

Lemma elem_of_setitem (df : table) (n m : string) (s t : series) :
  (m, t) ∈ setitem df n s -> (m, t) = (n, s) \/ (m, t) ∈ df.
Proof.
  induction df as [|[k u] df IH]; simpl.
  - intros ?%list_elem_of_singleton. by left.
  - destruct (String.eqb k n) eqn:E.
    + apply String.eqb_eq in E as ->.
      intros [->|?]%elem_of_cons; [by left | right; apply elem_of_cons; by right].
    + intros [->|H]%elem_of_cons; [right; apply elem_of_cons; by left|].
      destruct (IH H) as [?|?]; [by left | right; apply elem_of_cons; by right].
Qed.

Lemma NoDup_columns_setitem (df : table) (n : string) (s : series) :
  NoDup (columns df) -> NoDup (columns (setitem df n s)).
Proof.
  intros H. rewrite columns_setitem. case_bool_decide as Hn.
  - by rewrite app_nil_r.
  - apply NoDup_app. split; [done|]. split; [|apply NoDup_singleton].
    intros x Hx ->%list_elem_of_singleton. done.
Qed.

(** Two tables with the same distinct labels and the same column under
    every label are the same table. *)
Lemma table_ext (df df' : table) :
  columns df = columns df' -> NoDup (columns df) ->
  (forall n, n ∈ columns df -> getitem df n = getitem df' n) ->
  df = df'.
Proof.
  revert df'. induction df as [|[m t] df IH]; intros [|[m' t'] df']; simpl; try done.
  intros [= -> Hcols] [Hm Hnd]%NoDup_cons Hget.
  pose proof (Hget m' ltac:(apply elem_of_cons; by left)) as Hhead.
  simpl in Hhead. rewrite String.eqb_refl in Hhead. injection Hhead as ->.
  f_equal. apply IH; [done..|].
  intros n Hn. specialize (Hget n ltac:(apply elem_of_cons; by right)). simpl in Hget.
  destruct (String.eqb m' n) eqn:E; [|done].
  apply String.eqb_eq in E as ->. done.
Qed.

Lemma columns_derive_old (df : table) (target source : string) (f : series -> series) :
  target ∈ columns df -> columns (derive df target source f) = columns df.
Proof.
  intros H. unfold derive. destruct (getitem df source); [|done].
  by apply columns_setitem_old.
Qed.

(** ** Row selection *)

Lemma columns_take_rows (mask : list bool) (df : table) :
  columns (take_rows mask df) = columns df.
Proof. unfold columns, take_rows. rewrite map_map. by apply map_ext. Qed.

Lemma getitem_take_rows (mask : list bool) (df : table) (n : string) :
  getitem (take_rows mask df) n = take_series mask <$> getitem df n.
Proof.
  induction df as [|[m t] df IH]; simpl; [done|].
  by destruct (String.eqb m n).
Qed.

Lemma elem_of_take_rows (mask : list bool) (df : table) (n : string) (s : series) :
  (n, s) ∈ take_rows mask df -> exists s0, (n, s0) ∈ df /\ s = take_series mask s0.
Proof.
  unfold take_rows. intros ([m t] & [= -> ->] & Hin)%list_elem_of_fmap. eauto.
Qed.

Lemma mask_filter_map {A B} (f : A -> B) (mask : list bool) (l : list A) :
  mask_filter mask (map f l) = map f (mask_filter mask l).
Proof.
  revert l. induction mask as [|b mask IH]; intros [|x l]; simpl; try done.
  destruct b; simpl; by rewrite IH.
Qed.

Lemma mask_filter_zip_with {A B C} (f : A -> B -> C) (mask : list bool)
    (l : list A) (k : list B) :
  mask_filter mask (zip_with f l k) = zip_with f (mask_filter mask l) (mask_filter mask k).
Proof.
  revert l k. induction mask as [|b mask IH]; intros [|x l] [|y k]; simpl; try done.
  - destruct b; simpl; [done|]. by destruct (mask_filter mask l).
  - destruct b; simpl; by rewrite IH.
Qed.

Lemma mask_filter_Forall {A} (P : A -> Prop) (mask : list bool) (l : list A) :
  Forall P l -> Forall P (mask_filter mask l).
Proof.
  intros H. revert mask. induction H as [|x l Hx _ IH]; intros [|b mask]; simpl; try done.
  destruct b; [constructor|]; auto.
Qed.

Lemma mask_filter_forallb {A} (f : A -> bool) (mask : list bool) (l : list A) :
  forallb f l = true -> forallb f (mask_filter mask l) = true.
Proof.
  revert mask. induction l as [|x l IH]; intros [|b mask]; simpl; try done.
  intros [Hx Hl]%andb_prop. destruct b; simpl; [rewrite Hx|]; by apply IH.
Qed.

Lemma mask_filter_all {A} (n : nat) (l : list A) :
  (length l <= n)%nat -> mask_filter (repeat true n) l = l.
Proof.
  revert n. induction l as [|x l IH]; intros [|n]; simpl; try done; try lia.
  intros H. f_equal. apply IH. lia.
Qed.

Lemma take_rows_all (n : nat) (df : table) :
  shape n df -> take_rows (repeat true n) df = df.
Proof.
  intros H. unfold take_rows. induction H as [|[m [d v]] df Hlen _ IH]; simpl in *; [done|].
  rewrite IH. unfold take_series. simpl. rewrite mask_filter_all by lia. done.
Qed.

(** ** The column loops as maps *)

Lemma columns_map_where (P : string -> bool) (f : series -> series) (df : table) :
  columns (map_where P f df) = columns df.
Proof.
  unfold columns, map_where. rewrite map_map. apply map_ext.
  intros [n s]; simpl. by destruct (P n).
Qed.

Lemma getitem_map_where (P : string -> bool) (f : series -> series) (df : table) (n : string) :
  getitem (map_where P f df) n = (if P n then f else id) <$> getitem df n.
Proof.
  induction df as [|[m t] df IH]; simpl; [done|].
  destruct (String.eqb m n) eqn:E.
  - apply String.eqb_eq in E as ->. destruct (P n); simpl; by rewrite String.eqb_refl.
  - destruct (P m); simpl; by rewrite E.
Qed.

Lemma elem_of_map_where (P : string -> bool) (f : series -> series) (df : table)
    (n : string) (s : series) :
  (n, s) ∈ map_where P f df ->
  exists s0, (n, s0) ∈ df /\ s = (if P n then f s0 else s0).
Proof.
  unfold map_where. intros ([m t] & Heq & Hin)%list_elem_of_fmap. simpl in Heq.
  destruct (P m) eqn:E; injection Heq as -> ->; exists t; by rewrite E.
Qed.

(** One pass of [df[c] = f(df[c])] is [f] on the column labelled [c]. *)
Lemma derive_self (df : table) (c : string) (f : series -> series) :
  NoDup (columns df) ->
  derive df c c f = map_where (String.eqb c) f df.
Proof.
  intros Hnd. apply table_ext.
  - unfold derive. destruct (getitem df c) eqn:E; rewrite columns_map_where; [|done].
    apply columns_setitem_old, getitem_columns. eauto.
  - unfold derive. destruct (getitem df c); [by apply NoDup_columns_setitem | done].
  - intros n _. rewrite getitem_map_where. unfold derive.
    destruct (String.eqb c n) eqn:E.
    + apply String.eqb_eq in E as ->.
      destruct (getitem df n) as [s|] eqn:Hs; simpl; [|by rewrite Hs].
      apply getitem_setitem_eq.
    + apply String.eqb_neq in E.
      destruct (getitem df c) as [s|] eqn:Hs.
      * rewrite getitem_setitem_ne by done. by destruct (getitem df n).
      * by destruct (getitem df n).
Qed.

Lemma map_where_compose (P Q : string -> bool) (f : series -> series) (df : table) :
  (forall n, P n = true -> Q n = true -> False) ->
  map_where Q f (map_where P f df) = map_where (fun n => P n || Q n) f df.
Proof.
  intros Hdisj. unfold map_where. rewrite map_map. apply map_ext.
  intros [n s]; simpl. destruct (P n) eqn:EP; simpl.
  - destruct (Q n) eqn:EQ; [by destruct (Hdisj n)|done].
  - done.
Qed.

Lemma map_where_ext (P Q : string -> bool) (f : series -> series) (df : table) :
  (forall n, n ∈ columns df -> P n = Q n) -> map_where P f df = map_where Q f df.
Proof.
  intros H. unfold map_where. apply map_ext_in. intros [n s] Hin. simpl.
  rewrite H; [done|]. apply list_elem_of_In in Hin.
  by apply (list_elem_of_fmap_2 fst) in Hin.
Qed.

Lemma derive_loop (l : list string) (f : series -> series) (df : table) :
  NoDup (columns df) -> NoDup l ->
  fold_left (fun df c => derive df c c f) l df
  = map_where (fun n => bool_decide (n ∈ l)) f df.
Proof.
  revert df. induction l as [|c l IH]; intros df Hdf Hl; simpl.
  - unfold map_where. rewrite <- (map_id df) at 1. apply map_ext. by intros [].
  - apply NoDup_cons in Hl as [Hc Hl].
    rewrite derive_self by done. rewrite IH by (by rewrite ?columns_map_where).
    rewrite map_where_compose.
    + apply map_where_ext. intros n _. destruct (String.eqb_spec c n) as [->|Hne].
      * simpl. symmetry. apply bool_decide_eq_true_2, elem_of_cons. by left.
      * simpl. apply bool_decide_ext. rewrite elem_of_cons. split; [by right|].
        intros [->|?]; done.
    + intros n ->%String.eqb_eq ?%bool_decide_eq_true_1. done.
Qed.

Lemma fill_missing_map (float_mean : Qc -> Qc -> number) (df : table) :
  NoDup (columns df) ->
  fill_missing float_mean df = map_where (fun _ => true) (fill_series float_mean) df.
Proof.
  intros H. unfold fill_missing. rewrite derive_loop by done.
  apply map_where_ext. intros n Hn. by apply bool_decide_eq_true_2.
Qed.

Lemma elem_of_columns_containing (word : string) (df : table) (n : string) :
  n ∈ columns_containing word df
  <-> n ∈ columns df /\ Text.contains word (Text.lower n) = true.
Proof.
  unfold columns_containing. rewrite list_elem_of_In, filter_In, <- list_elem_of_In. done.
Qed.

Lemma NoDup_columns_containing (word : string) (df : table) :
  NoDup (columns df) -> NoDup (columns_containing word df).
Proof.
  intros H. apply NoDup_ListNoDup. apply List.NoDup_filter. by apply NoDup_ListNoDup.
Qed.

Section Steps.

Context (parse_datetime : series -> cell -> option Z) (mixed_offsets : series -> bool)
    (repr : dtype -> cell -> string) (float_mean : Qc -> Qc -> number).

Lemma convert_dates_map (df : table) :
  NoDup (columns df) ->
  convert_dates parse_datetime mixed_offsets (columns_containing "date" df) df
  = map_where date_like (to_datetime parse_datetime mixed_offsets) df.
Proof.
  intros H. unfold convert_dates.
  rewrite derive_loop by (by try apply NoDup_columns_containing).
  apply map_where_ext. intros n Hn. unfold date_like.
  destruct (Text.contains "date" (Text.lower n)) eqn:E.
  - apply bool_decide_eq_true_2, elem_of_columns_containing. done.
  - apply bool_decide_eq_false_2. rewrite elem_of_columns_containing. intros [_ ?]. congruence.
Qed.

End Steps.

(** ** Columns that survive every step *)

Lemma getitem_derive_is_Some (df : table) (target source m : string) (f : series -> series) :
  is_Some (getitem df m) -> is_Some (getitem (derive df target source f) m).
Proof.
  intros H. unfold derive. destruct (getitem df source) as [s|]; [|done].
  destruct (decide (target = m)) as [->|Hne].
  - rewrite getitem_setitem_eq. eauto.
  - by rewrite getitem_setitem_ne.
Qed.

Lemma getitem_derive_loop_is_Some (l : list string) (f : series -> series)
    (df : table) (m : string) :
  is_Some (getitem df m) ->
  is_Some (getitem (fold_left (fun df c => derive df c c f) l df) m).
Proof.
  revert df. induction l as [|c l IH]; intros df H; simpl; [done|].
  by apply IH, getitem_derive_is_Some.
Qed.

Lemma getitem_take_rows_is_Some (mask : list bool) (df : table) (m : string) :
  is_Some (getitem df m) -> is_Some (getitem (take_rows mask df) m).
Proof. intros [s Hs]. rewrite getitem_take_rows, Hs. simpl. eauto. Qed.

Lemma getitem_drop_id_gaps_is_Some (ids : list string) (df : table) (m : string) :
  is_Some (getitem df m) -> is_Some (getitem (drop_id_gaps ids df) m).
Proof.
  intros H. unfold drop_id_gaps. destruct (firstn 1 ids); [done|].
  by apply getitem_take_rows_is_Some.
Qed.

Lemma remove_duplicates_cases (df : table) :
  remove_duplicates df = df \/ remove_duplicates df = drop_duplicates df.
Proof. unfold remove_duplicates. destruct (0 <? _)%nat; auto. Qed.

(** ** The status flags *)

Lemma QcZ_0_1 : QcZ 0 <> QcZ 1.
Proof. intros H. apply (f_equal Qcanon.this) in H. discriminate H. Qed.

Lemma as_int_one (b : bool) : as_int b = Num (QcZ 1) <-> b = true.
Proof.
  destruct b; unfold as_int; split; done.
Qed.

Lemma as_int_zero (b : bool) : as_int b = Num (QcZ 0) <-> b = false.
Proof.
  destruct b; unfold as_int; split; done.
Qed.

Lemma on_time_of_flags (a b : bool) :
  as_int (bool_decide (as_int a = Num (QcZ 1)) && bool_decide (as_int b = Num (QcZ 0)))
  = as_int (a && negb b).
Proof.
  f_equal. f_equal.
  - apply bool_decide_eq_true_2 || idtac.
    destruct a; [by apply bool_decide_eq_true_2 | apply bool_decide_eq_false_2].
    by intros ?%as_int_one.
  - destruct b; [apply bool_decide_eq_false_2; by intros ?%as_int_zero|].
    by apply bool_decide_eq_true_2.
Qed.

Lemma on_time_series_text (status_lower : list string) :
  on_time_series (flag_series delivered_words status_lower)
                 (flag_series late_words status_lower)
  = Series Numeric
      (map (fun t => as_int (Text.contains_any delivered_words t
                             && negb (Text.contains_any late_words t)))
           status_lower).
Proof.
  unfold on_time_series, flag_series. cbn [values]. f_equal.
  induction status_lower as [|t l IH]; [done|].
  cbn [map zip_with]. by rewrite on_time_of_flags, IH.
Qed.

Lemma status_name_not_flag (n : string) :
  Text.contains "status" (Text.lower n) = true -> n ∉ derived_names.
Proof.
  intros H Hin. unfold derived_names, time_feature_names, flag_names in Hin. simpl in Hin.
  repeat (apply elem_of_cons in Hin as [->|Hin]; [by vm_compute in H|]).
  by apply elem_of_nil in Hin.
Qed.

(** ** Lower-casing and substring search, against their specification *)

Lemma lower_ascii_translate (c : ascii) :
  Text.lower_ascii c = translate capital_letters small_letters c.
Proof. destruct c as [[] [] [] [] [] [] [] []]; reflexivity. Qed.

Lemma lower_lowercase (t : string) : Text.lower t = lowercase t.
Proof. induction t as [|c t IH]; simpl; [done|]. by rewrite IH, lower_ascii_translate. Qed.

Lemma starts_with_prefix (p s : string) :
  Text.starts_with p s = true <-> exists after, s = String.append p after.
Proof.
  revert s. induction p as [|a p IH]; intros s; simpl.
  - split; [intros _; by exists s | done].
  - destruct s as [|b s].
    + split; [done | by intros [after ?]].
    + destruct (Ascii.eqb_spec a b) as [->|Hne].
      * rewrite IH. split; intros [after H]; exists after; [by rewrite H | by injection H].
      * split; [done|]. intros [after H]. injection H as H _. by destruct Hne.
Qed.

Lemma contains_occurs_in (w t : string) : Text.contains w t = true <-> occurs_in w t.
Proof.
  unfold occurs_in. induction t as [|c t IH]; simpl.
  - rewrite orb_false_r, starts_with_prefix. split.
    + intros [after H]. by exists EmptyString, after.
    + intros ([|b before] & after & H); [by exists after|done].
  - rewrite orb_true_iff, IH, starts_with_prefix. split.
    + intros [[after H]|(before & after & H)].
      * by exists EmptyString, after.
      * exists (String c before), after. simpl. by rewrite H.
    + intros ([|b before] & after & H).
      * left. by exists after.
      * right. injection H as _ H. by exists before, after.
Qed.

Lemma contains_any_mentions (words : list string) (t : string) :
  mentions words t <-> Text.contains_any words (Text.lower t) = true.
Proof.
  unfold mentions, Text.contains_any. rewrite existsb_exists, lower_lowercase. split.
  - intros (w & Hin & Hocc). exists w. split; [by apply list_elem_of_In|].
    by apply contains_occurs_in.
  - intros (w & Hin & Hc). exists w. split; [by apply list_elem_of_In|].
    by apply contains_occurs_in.
Qed.

Section Flags.

Context (parse_datetime : series -> cell -> option Z) (mixed_offsets : series -> bool)
    (repr : dtype -> cell -> string) (float_mean : Qc -> Qc -> number).

Lemma astype_str_take (mask : list bool) (s : series) :
  astype_str repr (take_series mask s) = mask_filter mask (astype_str repr s).
Proof. unfold astype_str, take_series. simpl. by rewrite mask_filter_map. Qed.

Lemma status_flags_spec (df : table) (status_col : string) (rest : list string)
    (st : series) :
  Text.contains "status" (Text.lower status_col) = true ->
  getitem df status_col = Some st ->
  getitem (status_flags repr (status_col :: rest) df) status_col = Some st
  /\ flags_of_text (status_flags repr (status_col :: rest) df)
                   (map Text.lower (astype_str repr st)).
Proof.
  intros Hname Hst. pose proof (status_name_not_flag _ Hname) as Hnot.
  assert (Hd : "is_delivered" <> status_col).
  { intros <-. apply Hnot. label_in. }
  assert (Hl : "is_late" <> status_col).
  { intros <-. apply Hnot. label_in. }
  assert (Ho : "is_on_time" <> status_col).
  { intros <-. apply Hnot. label_in. }
  unfold status_flags. rewrite Hst.
  rewrite getitem_setitem_ne, getitem_setitem_eq, getitem_setitem_eq by done.
  rewrite on_time_series_text. unfold flags_of_text.
  rewrite !getitem_setitem_eq.
  rewrite !(getitem_setitem_ne _ "is_on_time") by done.
  rewrite !getitem_setitem_eq.
  rewrite !(getitem_setitem_ne _ "is_late") by done.
  rewrite !getitem_setitem_eq.
  rewrite !(getitem_setitem_ne _ "is_delivered") by done.
  done.
Qed.

Lemma flags_of_text_take_rows (mask : list bool) (df : table) (status_col : string)
    (st : series) :
  getitem df status_col = Some st ->
  flags_of_text df (map Text.lower (astype_str repr st)) ->
  getitem (take_rows mask df) status_col = Some (take_series mask st)
  /\ flags_of_text (take_rows mask df)
                   (map Text.lower (astype_str repr (take_series mask st))).
Proof.
  intros Hst (Hd & Hl & Ho). unfold flags_of_text.
  rewrite !getitem_take_rows, Hst, Hd, Hl, Ho. simpl.
  rewrite astype_str_take. unfold take_series. simpl.
  by rewrite !mask_filter_map.
Qed.

Lemma enrich_status_column (raw : table) (status_col : string) (rest : list string) :
  columns_containing "status" raw = status_col :: rest ->
  exists st,
    getitem (enrich parse_datetime mixed_offsets repr float_mean raw) status_col = Some st
    /\ flags_of_text (enrich parse_datetime mixed_offsets repr float_mean raw)
        (map Text.lower (astype_str repr st)).
Proof.
  intros Hcols.
  assert (Hin : status_col ∈ columns_containing "status" raw)
    by (rewrite Hcols; apply elem_of_cons; by left).
  apply elem_of_columns_containing in Hin as [Hcol Hname].
  unfold enrich. rewrite Hcols.
  set (df := time_features _ _).
  assert (Hsome : is_Some (getitem df status_col)).
  { subst df. unfold time_features.
    assert (is_Some (getitem
        (convert_dates parse_datetime mixed_offsets (columns_containing "date" raw)
                                (fill_missing float_mean
                                   (drop_id_gaps (columns_containing "id" raw) raw)))
                             status_col)) as Hc.
    { apply getitem_derive_loop_is_Some. unfold fill_missing.
      apply getitem_derive_loop_is_Some, getitem_drop_id_gaps_is_Some.
      by apply getitem_columns. }
    destruct (columns_containing "date" raw); [done|].
    by repeat apply getitem_derive_is_Some. }
  destruct Hsome as [st Hst]. exists st. by apply status_flags_spec.
Qed.

Lemma flags_of_text_rows (out : table) (st : series) :
  flags_of_text out (map Text.lower (astype_str repr st)) ->
  exists d l o,
    getitem out "is_delivered" = Some d /\ getitem out "is_late" = Some l
    /\ getitem out "is_on_time" = Some o
    /\ forall i c, values st !! i = Some c ->
         let lowered := Text.lower (match c with Str t => t | _ => repr (dtype_of st) c end) in
         values d !! i = Some (as_int (Text.contains_any delivered_words lowered))
         /\ values l !! i = Some (as_int (Text.contains_any late_words lowered))
         /\ values o !! i
            = Some (as_int (Text.contains_any delivered_words lowered
                            && negb (Text.contains_any late_words lowered))).
Proof.
  intros (Hd & Hl & Ho). do 3 eexists. split; [exact Hd|]. split; [exact Hl|].
  split; [exact Ho|]. intros i c Hc. cbn [values].
  unfold astype_str. rewrite !list_lookup_fmap, Hc. done.
Qed.

(** C3. When a status-like column exists, the output holds it together with
    the three flag columns, and in every row, with the text of the status
    cell lower-cased: [is_delivered] is 1 if one of "delivered",
    "completed", "success", "delivered on time" occurs in it and 0 if none
    does; [is_late] is 1 if "late" or "delay" occurs in it and 0 if
    neither does; [is_on_time] is 1 if [is_delivered] is 1 and [is_late] is
    0, and 0 otherwise. *)
Theorem status_flags_follow_text (raw : table) (status_col : string) (rest : list string) :
  columns_containing "status" raw = status_col :: rest ->
  exists st d l o,
    getitem (transform_table parse_datetime mixed_offsets repr float_mean raw) status_col
    = Some st
    /\ getitem (transform_table parse_datetime mixed_offsets repr float_mean raw) "is_delivered"
       = Some d
    /\ getitem (transform_table parse_datetime mixed_offsets repr float_mean raw) "is_late"
       = Some l
    /\ getitem (transform_table parse_datetime mixed_offsets repr float_mean raw) "is_on_time"
       = Some o
    /\ forall i c, values st !! i = Some c ->
         let text := match c with Str t => t | _ => repr (dtype_of st) c end in
         (values d !! i = Some (Num (QcZ 1))
          /\ mentions ["delivered"; "completed"; "success"; "delivered on time"] text
          \/ values d !! i = Some (Num (QcZ 0))
             /\ ~ mentions ["delivered"; "completed"; "success"; "delivered on time"] text)
         /\ (values l !! i = Some (Num (QcZ 1)) /\ mentions ["late"; "delay"] text
             \/ values l !! i = Some (Num (QcZ 0)) /\ ~ mentions ["late"; "delay"] text)
         /\ (values o !! i = Some (Num (QcZ 1))
             /\ values d !! i = Some (Num (QcZ 1)) /\ values l !! i = Some (Num (QcZ 0))
             \/ values o !! i = Some (Num (QcZ 0))
                /\ ~ (values d !! i = Some (Num (QcZ 1))
                      /\ values l !! i = Some (Num (QcZ 0)))).
Proof.
  intros Hcols. destruct (enrich_status_column raw status_col rest Hcols) as (st0 & Hst0 & Hf0).
  assert (Hout : exists st,
             getitem (transform_table parse_datetime mixed_offsets repr float_mean raw) status_col
             = Some st
             /\ flags_of_text (transform_table parse_datetime mixed_offsets repr float_mean raw)
                              (map Text.lower (astype_str repr st))).
  { unfold transform_table.
    destruct (remove_duplicates_cases (enrich parse_datetime mixed_offsets repr float_mean raw))
      as [-> | ->]; [by eauto|].
    eexists. by apply flags_of_text_take_rows. }
  destruct Hout as (st & Hst & Hflags).
  destruct (flags_of_text_rows _ st Hflags) as (d & l & o & Hd & Hl & Ho & Hrows).
  exists st, d, l, o. do 4 (split; [done|]).
  intros i c Hc text. destruct (Hrows i c Hc) as (Hdi & Hli & Hoi). fold text in Hdi, Hli, Hoi.
  rewrite Hdi, Hli, Hoi.
  pose proof (contains_any_mentions delivered_words text) as Hdel.
  pose proof (contains_any_mentions late_words text) as Hlate.
  unfold delivered_words in Hdel. unfold late_words in Hlate.
  destruct (Text.contains_any delivered_words (Text.lower text)) eqn:Ed;
    destruct (Text.contains_any late_words (Text.lower text)) eqn:El;
    unfold delivered_words in Ed; unfold late_words in El;
    rewrite Ed in Hdel; rewrite El in Hlate; cbn [andb negb as_int].
  - split; [left; split; [done|by apply Hdel]|].
    split; [left; split; [done|by apply Hlate]|].
    right. split; [done|]. by intros [_ [=]].
  - split; [left; split; [done|by apply Hdel]|].
    split; [right; split; [done|]; intros H; by apply Hlate in H|].
    left. done.
  - split; [right; split; [done|]; intros H; by apply Hdel in H|].
    split; [left; split; [done|by apply Hlate]|].
    right. split; [done|]. by intros [[=] _].
  - split; [right; split; [done|]; intros H; by apply Hdel in H|].
    split; [right; split; [done|]; intros H; by apply Hlate in H|].
    right. split; [done|]. by intros [[=] _].
Qed.

End Flags.

Lemma status_flags_follow_text_witness :
  exists d l o,
    getitem (transform_table Iso.parse_datetime Iso.mixed_offsets Iso.repr Iso.float_mean
               sample_orders) "is_delivered" = Some d
    /\ getitem (transform_table Iso.parse_datetime Iso.mixed_offsets Iso.repr Iso.float_mean
                  sample_orders) "is_late" = Some l
    /\ getitem (transform_table Iso.parse_datetime Iso.mixed_offsets Iso.repr Iso.float_mean
                  sample_orders) "is_on_time" = Some o
    /\ values d !! 1%nat = Some (Num (QcZ 0))
    /\ values l !! 1%nat = Some (Num (QcZ 1))
    /\ values o !! 1%nat = Some (Num (QcZ 0)).
Proof.
  destruct (status_flags_follow_text Iso.parse_datetime Iso.mixed_offsets Iso.repr
              Iso.float_mean sample_orders "status" [])
    as (st & d & l & o & Hst & Hd & Hl & Ho & Hrows).
  - reflexivity.
  - assert (Hrow : values st !! 1%nat = Some (Str "Delayed")).
    { assert (Hstatus : getitem (transform_table Iso.parse_datetime Iso.mixed_offsets Iso.repr
                                   Iso.float_mean sample_orders) "status"
                        = Some (Series Object [Str "Delivered On Time"; Str "Delayed"]))
        by (vm_compute; reflexivity).
      rewrite Hstatus in Hst. apply (inj Some) in Hst as <-. reflexivity. }
    destruct (Hrows 1%nat (Str "Delayed") Hrow) as (Hdel & Hlate & Hon).
    exists d, l, o. do 3 (split; [done|]).
    assert (Hno : ~ mentions ["delivered"; "completed"; "success"; "delivered on time"]
                    "Delayed").
    { intros H. apply contains_any_mentions in H. vm_compute in H. discriminate H. }
    assert (Hyes : mentions ["late"; "delay"] "Delayed").
    { apply contains_any_mentions. vm_compute. reflexivity. }
    destruct Hdel as [[_ H]|[Hd1 _]]; [by destruct Hno|].
    destruct Hlate as [[Hl1 _]|[_ H]]; [|by destruct H].
    destruct Hon as [(_ & H & _)|[Ho1 _]].
    + rewrite Hd1 in H. apply (inj Some) in H. injection H as H.
      by destruct (QcZ_0_1).
    + split; [exact Hd1|]. split; [exact Hl1 | exact Ho1].
Defined.

(** The flags of the sample orders, computed: "Delivered On Time" is
    delivered, not late and on time; "Delayed" is late only. *)
Example flags_of_sample_orders :
  bool_decide
    (map (fun n => values <$> getitem (transform_table Iso.parse_datetime Iso.mixed_offsets
                                         Iso.repr Iso.float_mean sample_orders) n)
         ["status"; "is_delivered"; "is_late"; "is_on_time"]
     = [Some [Str "Delivered On Time"; Str "Delayed"];
        Some [Num (QcZ 1); Num (QcZ 0)];
        Some [Num (QcZ 0); Num (QcZ 1)];
        Some [Num (QcZ 1); Num (QcZ 0)]]) = true.
Proof. by vm_compute. Qed.

(** ** Tables stay rectangular *)

Lemma shape_getitem (n : nat) (df : table) (c : string) (s : series) :
  shape n df -> getitem df c = Some s -> length (values s) = n.
Proof.
  intros H Hs. apply getitem_elem_of in Hs.
  unfold shape in H. rewrite Forall_forall in H. by apply (H (c, s)).
Qed.

Lemma shape_setitem (n : nat) (df : table) (c : string) (s : series) :
  shape n df -> length (values s) = n -> shape n (setitem df c s).
Proof.
  intros H Hs. apply Forall_forall. intros [m t] [[= -> ->]|Hin]%elem_of_setitem; [done|].
  unfold shape in H. rewrite Forall_forall in H. by apply (H (m, t)).
Qed.

Lemma shape_derive (n : nat) (df : table) (target source : string) (f : series -> series) :
  (forall s, length (values (f s)) = length (values s)) ->
  shape n df -> shape n (derive df target source f).
Proof.
  intros Hf H. unfold derive. destruct (getitem df source) as [s|] eqn:Hs; [|done].
  apply shape_setitem; [done|]. rewrite Hf. by eapply shape_getitem.
Qed.

Lemma shape_derive_loop (n : nat) (l : list string) (f : series -> series) (df : table) :
  (forall s, length (values (f s)) = length (values s)) ->
  shape n df -> shape n (fold_left (fun df c => derive df c c f) l df).
Proof.
  intros Hf. revert df. induction l as [|c l IH]; intros df H; simpl; [done|].
  by apply IH, shape_derive.
Qed.

Lemma length_mask_filter {A B} (mask : list bool) (l : list A) (k : list B) :
  length l = length k -> length (mask_filter mask l) = length (mask_filter mask k).
Proof.
  revert l k. induction mask as [|b mask IH]; intros [|x l] [|y k]; simpl; try done.
  intros [= H]. destruct b; simpl; by rewrite (IH l k).
Qed.

Lemma shape_take_rows (n : nat) (mask : list bool) (df : table) :
  shape n df -> shape (length (mask_filter mask (repeat NA n))) (take_rows mask df).
Proof.
  intros H. unfold shape, take_rows. rewrite Forall_map.
  eapply Forall_impl; [exact H|]. intros [m s] Hlen; simpl in *.
  apply length_mask_filter. by rewrite repeat_length.
Qed.

Lemma shape_nrows (n : nat) (df : table) : shape n df -> df <> [] -> nrows df = n.
Proof. intros H Hne. destruct H as [|[m s] df Hs _]; done. Qed.

Lemma shape_rectangular (n : nat) (df : table) : shape n df -> rectangular df.
Proof.
  intros H. unfold rectangular. destruct df as [|p df]; [constructor|].
  by rewrite (shape_nrows n).
Qed.

Lemma length_fillna (v : cell) (s : series) : length (values (fillna v s)) = length (values s).
Proof. unfold fillna. destruct (existsb isna (values s)); simpl; by rewrite ?length_map. Qed.

Lemma length_fill_series (float_mean : Qc -> Qc -> number) (s : series) :
  length (values (fill_series float_mean s)) = length (values s).
Proof. unfold fill_series. destruct (is_numeric_dtype s); apply length_fillna. Qed.

Lemma length_dt_field (d : dtype) (f : Z -> cell) (s : series) :
  length (values (dt_field d f s)) = length (values s).
Proof. unfold dt_field. simpl. by rewrite length_map. Qed.

Section Shapes.

Context (parse_datetime : series -> cell -> option Z) (mixed_offsets : series -> bool)
    (repr : dtype -> cell -> string) (float_mean : Qc -> Qc -> number).

Lemma length_to_datetime (s : series) :
  length (values (to_datetime parse_datetime mixed_offsets s)) = length (values s).
Proof. unfold to_datetime. simpl. by rewrite length_map. Qed.

Lemma shape_status_flags (n : nat) (statuses : list string) (df : table) :
  shape n df -> shape n (status_flags repr statuses df).
Proof.
  intros H. unfold status_flags. destruct statuses as [|sc _]; [done|].
  destruct (getitem df sc) as [st|] eqn:Hst; [|done].
  pose proof (shape_getitem _ _ _ _ H Hst) as Hlen.
  assert (Hflag : forall words,
             length (values (flag_series words (map Text.lower (astype_str repr st)))) = n).
  { intros words. unfold flag_series, astype_str. simpl. by rewrite !length_map. }
  rewrite getitem_setitem_ne, getitem_setitem_eq, getitem_setitem_eq by done.
  repeat apply shape_setitem; try done.
  unfold on_time_series. simpl. rewrite length_zip_with, !length_map.
  unfold astype_str. rewrite !length_map. lia.
Qed.

Lemma shape_enrich (raw : table) :
  rectangular raw -> exists n, shape n (enrich parse_datetime mixed_offsets repr float_mean raw).
Proof.
  intros H. unfold enrich.
  assert (exists n, shape n (drop_id_gaps (columns_containing "id" raw) raw)) as [n Hn].
  { unfold drop_id_gaps. destruct (firstn 1 _); [by exists (nrows raw)|].
    eexists. by apply shape_take_rows. }
  exists n. apply shape_status_flags.
  assert (shape n (convert_dates parse_datetime mixed_offsets (columns_containing "date" raw)
                     (fill_missing float_mean
                        (drop_id_gaps (columns_containing "id" raw) raw)))) as Hc.
  { apply shape_derive_loop; [apply length_to_datetime|].
    apply shape_derive_loop; [apply length_fill_series|done]. }
  unfold time_features. destruct (columns_containing "date" raw); [done|].
  repeat (apply shape_derive; [apply length_dt_field|]). done.
Qed.

Lemma rectangular_enrich (raw : table) :
  rectangular raw -> rectangular (enrich parse_datetime mixed_offsets repr float_mean raw).
Proof. intros [n Hn]%shape_enrich. by eapply shape_rectangular. Qed.

End Shapes.

(** ** Rows and row selection *)

Lemma mask_filter_repeat {A} (mask : list bool) (x : A) (n : nat) :
  mask_filter mask (repeat x n) = repeat x (length (mask_filter mask (repeat x n))).
Proof.
  revert n. induction mask as [|b mask IH]; intros [|n]; simpl; try done.
  destruct b; simpl; by rewrite <- IH.
Qed.

Lemma rows_take_rows (mask : list bool) (df : table) :
  rectangular df -> rows (take_rows mask df) = mask_filter mask (rows df).
Proof.
  intros H. unfold rows.
  assert (Hn : nrows (take_rows mask df)
               = length (mask_filter mask (repeat ([] : list cell) (nrows df)))).
  { destruct df as [|[m s] df]; simpl.
    - by destruct mask.
    - apply length_mask_filter. by rewrite repeat_length. }
  rewrite Hn. clear Hn H. generalize (nrows df) as n. intros n.
  induction df as [|[m s] df IH]; simpl.
  - by rewrite <- mask_filter_repeat.
  - by rewrite mask_filter_zip_with, IH.
Qed.

Lemma length_rows (df : table) : rectangular df -> length (rows df) = nrows df.
Proof.
  unfold rectangular, rows. generalize (nrows df) as n. intros n H.
  induction H as [|[m s] df Hs _ IH]; simpl in *.
  - by rewrite repeat_length.
  - rewrite length_zip_with, IH. lia.
Qed.

(** ** Removing duplicates *)

Lemma filter_filter_and {A} (f g : A -> bool) (l : list A) :
  List.filter f (List.filter g l) = List.filter (fun x => g x && f x) l.
Proof.
  induction l as [|x l IH]; simpl; [done|].
  destruct (g x); simpl; [destruct (f x)|]; by rewrite IH.
Qed.

Lemma filter_not_seen_cons (r : list cell) (seen l : list (list cell)) :
  List.filter (fun x => negb (bool_decide (x ∈ seen)))
              (List.filter (fun x => negb (bool_decide (x = r))) l)
  = List.filter (fun x => negb (bool_decide (x ∈ r :: seen))) l.
Proof.
  rewrite filter_filter_and. apply filter_ext. intros x.
  repeat case_bool_decide; simpl; try done; exfalso;
    rewrite elem_of_cons in *; intuition congruence.
Qed.

(** The marks of [duplicated] select what [keep_first] keeps. *)
Lemma duplicated_keep_first (seen rs : list (list cell)) :
  mask_filter (map negb (duplicated_from seen rs)) rs
  = List.filter (fun x => negb (bool_decide (x ∈ seen))) (keep_first rs).
Proof.
  revert seen. induction rs as [|r rs IH]; intros seen; simpl; [done|].
  rewrite filter_not_seen_cons, <- IH.
  by destruct (bool_decide (r ∈ seen)).
Qed.

Lemma filter_not_seen_nil (l : list (list cell)) :
  List.filter (fun x => negb (bool_decide (x ∈ []))) l = l.
Proof.
  induction l as [|x l IH]; [done|]. cbn [List.filter].
  rewrite bool_decide_eq_false_2 by apply not_elem_of_nil. cbn [negb]. by rewrite IH.
Qed.

Lemma NoDup_keep_first (rs : list (list cell)) : NoDup (keep_first rs).
Proof.
  induction rs as [|r rs IH]; simpl; [constructor|].
  apply NoDup_cons. split.
  - rewrite list_elem_of_In, filter_In. intros [_ H].
    by rewrite bool_decide_eq_true_2 in H.
  - apply NoDup_ListNoDup, List.NoDup_filter. by apply NoDup_ListNoDup.
Qed.

Lemma length_duplicated_from (seen rs : list (list cell)) :
  length (duplicated_from seen rs) = length rs.
Proof. revert seen. induction rs as [|r rs IH]; intros seen; simpl; by rewrite ?IH. Qed.

Lemma count_true_zero (mask : list bool) :
  count_true mask = 0%nat -> map negb mask = repeat true (length mask).
Proof.
  unfold count_true. induction mask as [|[] mask IH]; simpl; try done.
  intros H. by rewrite IH.
Qed.

Lemma rows_drop_duplicates (df : table) :
  rectangular df -> rows (drop_duplicates df) = keep_first (rows df).
Proof.
  intros H. unfold drop_duplicates, duplicated.
  by rewrite rows_take_rows, duplicated_keep_first, filter_not_seen_nil.
Qed.

Lemma remove_duplicates_drop (df : table) :
  rectangular df -> remove_duplicates df = drop_duplicates df.
Proof.
  intros H. unfold remove_duplicates.
  destruct (0 <? count_true (duplicated df))%nat eqn:E; [done|].
  apply Nat.ltb_ge in E. unfold drop_duplicates.
  rewrite count_true_zero by lia. unfold duplicated.
  rewrite length_duplicated_from, length_rows by done.
  symmetry. by apply take_rows_all.
Qed.

Section Deduplication.

Context (parse_datetime : series -> cell -> option Z) (mixed_offsets : series -> bool)
    (repr : dtype -> cell -> string) (float_mean : Qc -> Qc -> number).

(** C5. The rows of the output are pairwise different, and they are the
    rows of the table before deduplication with every later copy of a row
    removed: each row stays at its first occurrence, in row order. *)
Theorem output_rows_are_unique (raw : table) :
  rectangular raw ->
  NoDup (rows (transform_table parse_datetime mixed_offsets repr float_mean raw))
  /\ rows (transform_table parse_datetime mixed_offsets repr float_mean raw)
     = keep_first (rows (enrich parse_datetime mixed_offsets repr float_mean raw)).
Proof.
  intros H. pose proof (rectangular_enrich parse_datetime mixed_offsets repr float_mean raw H)
      as HE.
  unfold transform_table. rewrite remove_duplicates_drop, rows_drop_duplicates by done.
  split; [apply NoDup_keep_first | done].
Qed.

End Deduplication.

Lemma output_rows_are_unique_witness :
  NoDup (rows (transform_table Iso.parse_datetime Iso.mixed_offsets Iso.repr Iso.float_mean
      sample_orders))
  /\ rows (transform_table Iso.parse_datetime Iso.mixed_offsets Iso.repr Iso.float_mean
      sample_orders)
     = keep_first (rows (enrich Iso.parse_datetime Iso.mixed_offsets Iso.repr Iso.float_mean
         sample_orders)).
Proof.
  apply (output_rows_are_unique Iso.parse_datetime Iso.mixed_offsets Iso.repr Iso.float_mean
      sample_orders).
  apply (bool_decide_unpack _). vm_compute. exact I.
Defined.

Example keep_first_order :
  keep_first [[Str "a"]; [Str "b"]; [Str "a"]; [Str "c"]; [Str "b"]]
  = [[Str "a"]; [Str "b"]; [Str "c"]].
Proof. reflexivity. Qed.

Example rows_of_undated_orders :
  rows undated_orders = [[Str "A1"; Str "2024-01-15"]; [Str "B2"; NA]].
Proof. reflexivity. Qed.

(** ** What the fill step achieves *)

Lemma length_insert_sorted (x : number) (l : list number) :
  length (insert_sorted x l) = S (length l).
Proof.
  induction l as [|y l IH]; simpl; [done|].
  destruct (number_le x y); simpl; by rewrite ?IH.
Qed.

Lemma length_sort_numbers (l : list number) : length (sort_numbers l) = length l.
Proof.
  induction l as [|x l IH]; simpl; [done|].
  by rewrite length_insert_sorted, IH.
Qed.

(** *** Sorted numbers lie in three blocks *)

Lemma insert_sorted_low (l : list number) :
  insert_sorted (Infinite false) l = Infinite false :: l.
Proof. by destruct l. Qed.

Lemma insert_sorted_high (pre : list number) (b : nat) :
  Forall (fun y => y <> Infinite true) pre ->
  insert_sorted (Infinite true) (pre ++ repeat (Infinite true) b)
  = pre ++ repeat (Infinite true) (S b).
Proof.
  induction 1 as [|y pre Hy _ IH]; simpl.
  - by destruct b.
  - destruct y as [q|[]]; simpl.
    + by rewrite IH.
    + by destruct Hy.
    + rewrite IH. reflexivity.
Qed.

Lemma insert_sorted_finite (q : Qc) (F : list number) (b : nat) :
  Forall (fun y => is_finite y = true) F ->
  exists F', Forall (fun y => is_finite y = true) F' /\ length F' = S (length F)
             /\ insert_sorted (Finite q) (F ++ repeat (Infinite true) b)
                = F' ++ repeat (Infinite true) b.
Proof.
  induction 1 as [|y F Hy HF IH].
  - exists [Finite q]. split; [by repeat constructor|]. split; [done|]. by destruct b.
  - cbn [app insert_sorted]. destruct (number_le (Finite q) y).
    + exists (Finite q :: y :: F). split; [by repeat constructor|]. done.
    + destruct IH as (F' & HF' & Hlen & ->). exists (y :: F').
      split; [by constructor|]. split; [simpl; by rewrite Hlen | done].
Qed.

Lemma insert_sorted_blocks (x : number) (a b : nat) (F : list number) :
  Forall (fun y => is_finite y = true) F ->
  exists F', Forall (fun y => is_finite y = true) F'
    /\ insert_sorted x (blocks a F b)
       = blocks (if bool_decide (x = Infinite false) then S a else a) F'
                (if bool_decide (x = Infinite true) then S b else b)
    /\ length F' = (if is_finite x then S (length F) else length F).
Proof.
  intros HF. destruct x as [q|[]].
  - destruct (insert_sorted_finite q F b HF) as (F' & HF' & Hlen & Hins).
    exists F'. split; [done|]. split; [|done]. unfold blocks. simpl.
    induction a as [|a IH]; simpl; [done|]. by rewrite IH.
  - exists F. split; [done|]. split; [|done]. unfold blocks. simpl.
    rewrite app_assoc, insert_sorted_high, <- app_assoc; [done|].
    apply Forall_app. split.
    + apply Forall_forall. by intros y ->%list_elem_of_In%repeat_spec.
    + eapply Forall_impl; [exact HF|]. by intros [] ?.
  - exists F. split; [done|]. split; [|done]. apply insert_sorted_low.
Qed.

Lemma sort_numbers_blocks (l : list number) :
  exists F, Forall (fun y => is_finite y = true) F /\ length F = count_finite l
    /\ sort_numbers l = blocks (count_infinite false l) F (count_infinite true l).
Proof.
  induction l as [|x l (F & HF & Hlen & IH)].
  - by exists [].
  - cbn [sort_numbers fold_right]. fold (sort_numbers l). rewrite IH.
    destruct (insert_sorted_blocks x (count_infinite false l) (count_infinite true l) F HF)
      as (F' & HF' & -> & Hlen').
    exists F'. split; [done|]. unfold count_finite, count_infinite in *. rewrite Hlen'.
    destruct x as [q|[]]; simpl; rewrite ?Hlen; done.
Qed.

Lemma nth_blocks_low (a b k : nat) (F : list number) (d : number) :
  (k < a)%nat -> nth k (blocks a F b) d = Infinite false.
Proof.
  intros H. unfold blocks. rewrite app_nth1 by (by rewrite repeat_length).
  by apply nth_repeat_lt.
Qed.

Lemma nth_blocks_finite (a b k : nat) (F : list number) (d : number) :
  Forall (fun y => is_finite y = true) F ->
  (a <= k < a + length F)%nat -> is_finite (nth k (blocks a F b) d) = true.
Proof.
  intros HF H. unfold blocks. rewrite app_nth2 by (rewrite repeat_length; lia).
  rewrite repeat_length, app_nth1 by lia.
  rewrite Forall_forall in HF. apply HF, list_elem_of_In, nth_In. lia.
Qed.

Lemma nth_blocks_high (a b k : nat) (F : list number) (d : number) :
  (a + length F <= k < a + length F + b)%nat -> nth k (blocks a F b) d = Infinite true.
Proof.
  intros H. unfold blocks. rewrite app_nth2 by (rewrite repeat_length; lia).
  rewrite repeat_length, app_nth2 by lia. apply nth_repeat_lt. lia.
Qed.

Lemma length_blocks (a b : nat) (F : list number) :
  length (blocks a F b) = (a + length F + b)%nat.
Proof. unfold blocks. rewrite !length_app, !repeat_length. lia. Qed.

(** Where an entry of the three blocks stands. *)
Lemma nth_blocks_cases (a b k : nat) (F : list number) (d : number) :
  Forall (fun y => is_finite y = true) F -> (k < a + length F + b)%nat ->
  (nth k (blocks a F b) d = Infinite false /\ (k < a)%nat)
  \/ (is_finite (nth k (blocks a F b) d) = true /\ (a <= k < a + length F)%nat)
  \/ (nth k (blocks a F b) d = Infinite true /\ (a + length F <= k)%nat).
Proof.
  intros HF Hk. destruct (decide (k < a)%nat); [left; split; [by apply nth_blocks_low|done]|].
  destruct (decide (k < a + length F)%nat).
  - right; left. split; [apply nth_blocks_finite; [done|lia] | lia].
  - right; right. split; [apply nth_blocks_high; lia | lia].
Qed.

Section Fill.

Context (float_mean : Qc -> Qc -> number).

Lemma middle_NA (x y : number) :
  middle float_mean x y = NA
  <-> exists p, x = Infinite p /\ y = Infinite (negb p).
Proof.
  destruct x as [q|p], y as [q'|p']; simpl.
  - split; [by destruct (float_mean q q') | by intros (? & ? & _)].
  - split; [done | by intros (? & ? & _)].
  - split; [done | by intros (? & _ & ?)].
  - destruct p, p'; simpl; split; try done; eauto; by intros ([] & [= ] & [= ]).
Qed.

(** The median of the sorted blocks is NaN exactly when there is no finite
    number and the two infinities balance. *)
Lemma median_blocks (a b : nat) (F : list number) :
  Forall (fun y => is_finite y = true) F ->
  let xs := blocks a F b in
  let n := length xs in
  match n with
  | 0 => NA
  | _ => if Nat.even n
         then middle float_mean (nth (n / 2 - 1) xs (Finite 0%Qc)) (nth (n / 2) xs (Finite 0%Qc))
         else cell_of_number (nth (n / 2) xs (Finite 0%Qc))
  end = NA
  <-> F = [] /\ a = b.
Proof.
  intros HF xs n. subst xs n. rewrite length_blocks.
  remember (a + length F + b)%nat as N eqn:HN.
  destruct N as [|k].
  { split; [|done]. intros _. destruct F; [|simpl in HN; lia]. split; [done|lia]. }
  cbv iota. assert (Hpos : (0 < a + length F + b)%nat) by lia. rewrite HN. clear k HN.
  destruct (Nat.even (a + length F + b)) eqn:Heven.
  - apply Nat.even_spec in Heven as [m Hm].
    assert (Hhalf : ((a + length F + b) / 2 = m)%nat).
    { rewrite Hm, Nat.mul_comm. apply Nat.div_mul. lia. }
    rewrite Hhalf, middle_NA. split.
    + intros (p & Hlow & Hhigh).
      destruct (nth_blocks_cases a b (m - 1) F (Finite 0%Qc) HF ltac:(lia))
        as [[H1 Hk1]|[[H1 Hk1]|[H1 Hk1]]]; rewrite Hlow in H1.
      * injection H1 as ->. simpl in Hhigh.
        destruct (nth_blocks_cases a b m F (Finite 0%Qc) HF ltac:(lia))
          as [[H2 Hk2]|[[H2 Hk2]|[H2 Hk2]]]; rewrite Hhigh in H2.
        -- discriminate H2.
        -- discriminate H2.
        -- assert (length F = 0%nat) as HF0 by lia. split; [by destruct F|lia].
      * discriminate H1.
      * injection H1 as ->. simpl in Hhigh.
        destruct (nth_blocks_cases a b m F (Finite 0%Qc) HF ltac:(lia))
          as [[H2 Hk2]|[[H2 Hk2]|[H2 Hk2]]]; rewrite Hhigh in H2.
        -- lia.
        -- discriminate H2.
        -- discriminate H2.
    + intros [-> ->]. simpl in *. exists false.
      assert (b = m) as -> by lia.
      split; [apply nth_blocks_low; lia | apply nth_blocks_high; simpl; lia].
  - split.
    + intros H. by destruct (nth _ _ _).
    + intros [-> ->]. simpl in Heven. rewrite Nat.add_0_r in Heven.
      assert (Nat.even (b + b) = true) as Hb by (apply Nat.even_spec; exists b; lia).
      congruence.
Qed.

Lemma count_infinite_numbers_of (p : bool) (l : list cell) :
  count_infinite p (numbers_of l) = occurrences (Inf p) l.
Proof.
  unfold count_infinite, occurrences, numbers_of.
  induction l as [|c l IH]; [done|].
  cbn [flat_map]. rewrite List.filter_app, length_app, IH. cbn [List.filter].
  destruct c as [|q|p'| |]; cbn [List.filter length];
    repeat case_bool_decide; simplify_eq; simpl; done.
Qed.

Lemma count_finite_numbers_of (l : list cell) :
  count_finite (numbers_of l) = 0%nat
  <-> Forall (fun c => match c with Num _ => False | _ => True end) l.
Proof.
  unfold count_finite, numbers_of. induction l as [|c l IH].
  - split; [constructor|done].
  - cbn [flat_map]. rewrite List.filter_app, length_app, Forall_cons.
    destruct c; cbn [List.filter is_finite length]; rewrite ?Nat.add_0_l, ?IH.
    + tauto.
    + split; [lia | by intros [[] _]].
    + tauto.
    + tauto.
    + tauto.
Qed.

(** The median of a column is NaN exactly when the column holds no finite
    number and as many [-inf] as [inf]. *)
Lemma median_NA (s : series) :
  median float_mean s = NA
  <-> Forall (fun c => match c with Num _ => False | _ => True end) (values s)
      /\ occurrences (Inf false) (values s) = occurrences (Inf true) (values s).
Proof.
  unfold median.
  destruct (sort_numbers_blocks (numbers_of (values s))) as (F & HF & Hlen & ->).
  rewrite (median_blocks _ _ F HF), <- !count_infinite_numbers_of, <- count_finite_numbers_of.
  rewrite <- Hlen. split; intros [H ?]; (split; [|done]).
  - by rewrite H.
  - by destruct F.
Qed.

Lemma isna_median (s : series) : isna (median float_mean s) = false \/ median float_mean s = NA.
Proof. destruct (median float_mean s); auto. Qed.

Lemma no_gap_complete (l : list cell) : existsb isna l = false -> forallb notna l = true.
Proof.
  induction l as [|c l IH]; simpl; [done|].
  unfold notna. destruct (isna c); simpl; [done|auto].
Qed.

Lemma complete_no_gap (l : list cell) : forallb notna l = true -> existsb isna l = false.
Proof.
  induction l as [|c l IH]; simpl; [done|].
  unfold notna. destruct (isna c); simpl; [done|auto].
Qed.

Lemma fillna_complete (v : cell) (s : series) :
  isna v = false -> complete (fillna v s) = true.
Proof.
  intros Hv. unfold fillna, complete.
  destruct (existsb isna (values s)) eqn:E; simpl; [|by apply no_gap_complete].
  clear E. induction (values s) as [|c l IH]; simpl; [done|].
  rewrite IH. unfold notna. destruct (isna c) eqn:Ec; simpl; by rewrite ?Hv, ?Ec.
Qed.

Lemma fillna_NA (s : series) : fillna NA s = s.
Proof.
  unfold fillna. destruct (existsb isna (values s)); [|done].
  destruct s as [d l]; simpl. f_equal.
  - by destruct d.
  - rewrite <- (map_id l) at 2. apply map_ext. by intros [].
Qed.

(** What the fill does to a column: it leaves no gap, unless the column is
    numeric and has no median, and then it leaves the column as it is. *)
Lemma fill_series_outcome (s : series) :
  complete (fill_series float_mean s) = true
  \/ (no_median s /\ fill_series float_mean s = s).
Proof.
  unfold fill_series, no_median. destruct (is_numeric_dtype s) eqn:Hnum.
  - destruct (isna_median s) as [H|H].
    + left. by apply fillna_complete.
    + right. rewrite H, fillna_NA. split; [|done]. split; [done|]. by apply median_NA.
  - left. by apply fillna_complete.
Qed.

Lemma fill_series_complete (s : series) :
  complete s = true -> fill_series float_mean s = s.
Proof.
  intros H. apply complete_no_gap in H. unfold fill_series, fillna. rewrite H.
  by destruct (is_numeric_dtype s).
Qed.

(** Filling a column twice is filling it once. *)
Lemma fill_series_twice (s : series) :
  fill_series float_mean (fill_series float_mean s) = fill_series float_mean s.
Proof.
  destruct (fill_series_outcome s) as [H|[_ H]].
  - by apply fill_series_complete.
  - by rewrite !H.
Qed.

Lemma no_numbers_no_median (s : series) : no_numbers s = true -> no_median s.
Proof.
  unfold no_numbers, no_median. intros [Hnum Hno]%andb_prop. split; [done|].
  unfold occurrences. induction (values s) as [|c l IH]; simpl in *; [by split|].
  apply andb_prop in Hno as [Hc Hl]. destruct (IH Hl) as [IH1 IH2].
  destruct c; try done; (split; [by constructor|]);
    rewrite ?bool_decide_eq_false_2 by done; done.
Qed.

(** A numeric column of finite cells without a median has no number. *)
Lemma no_median_finite (s : series) :
  finite_series s -> no_median s -> no_numbers s = true.
Proof.
  unfold finite_series, no_median, no_numbers. intros Hfin (-> & Hno & _). simpl.
  induction Hfin as [|c l Hc _ IH]; [done|]. apply Forall_cons in Hno as [Hc' Hl].
  simpl. rewrite IH by done. by destruct c.
Qed.

Lemma fill_series_filled (s : series) :
  finite_series s -> filled (fill_series float_mean s) = true.
Proof.
  intros Hfin. unfold filled. destruct (fill_series_outcome s) as [->|[Hno ->]]; [done|].
  rewrite (no_median_finite s) by done. apply orb_true_r.
Qed.

Lemma filled_fill_series (s : series) : filled s = true -> fill_series float_mean s = s.
Proof.
  unfold filled. intros [H|H]%orb_prop; [by apply fill_series_complete|].
  pose proof (no_numbers_no_median s H) as (Hnum & Hmed).
  unfold fill_series. rewrite Hnum.
  by rewrite (proj2 (median_NA s) Hmed), fillna_NA.
Qed.

End Fill.

Lemma filled_take (mask : list bool) (s : series) :
  filled s = true -> filled (take_series mask s) = true.
Proof.
  unfold filled, complete, no_numbers, is_numeric_dtype. simpl.
  intros [H|[H1 H2]%andb_prop]%orb_prop.
  - by rewrite mask_filter_forallb.
  - by rewrite H1, (mask_filter_forallb _ _ _ H2), orb_true_r.
Qed.

Lemma complete_take (mask : list bool) (s : series) :
  complete s = true -> complete (take_series mask s) = true.
Proof. apply mask_filter_forallb. Qed.

Lemma complete_take_notna (l : list cell) :
  forallb notna (mask_filter (map notna l) l) = true.
Proof.
  induction l as [|c l IH]; simpl; [done|].
  destruct (notna c) eqn:E; simpl; by rewrite ?E.
Qed.

Lemma finite_take (mask : list bool) (s : series) :
  finite_series s -> finite_series (take_series mask s).
Proof. apply mask_filter_Forall. Qed.

(** ** Cells keep fitting their dtype *)

Lemma typed_take (mask : list bool) (s : series) :
  typed_series s -> typed_series (take_series mask s).
Proof. apply mask_filter_Forall. Qed.

Lemma typed_fillna (v : cell) (s : series) : typed_series s -> typed_series (fillna v s).
Proof.
  intros H. unfold fillna. destruct (existsb isna (values s)); [|done].
  unfold typed_series in *. simpl. rewrite Forall_map.
  destruct (holds (dtype_of s) v) eqn:Hv.
  - eapply Forall_impl; [exact H|]. intros c Hc; simpl. by destruct (isna c).
  - apply Forall_forall. by intros c _.
Qed.

Lemma typed_fill_series (float_mean : Qc -> Qc -> number) (s : series) :
  typed_series s -> typed_series (fill_series float_mean s).
Proof. unfold fill_series. destruct (is_numeric_dtype s); apply typed_fillna. Qed.

Lemma typed_flag_series (words : list string) (l : list string) :
  typed_series (flag_series words l).
Proof. unfold typed_series, flag_series. simpl. rewrite Forall_map. by apply Forall_forall. Qed.

Lemma complete_flag_series (words : list string) (l : list string) :
  complete (flag_series words l) = true.
Proof. unfold complete, flag_series. simpl. by induction l. Qed.

(** ** Labels of the derived columns *)

Lemma id_name_not_derived (n : string) :
  Text.contains "id" (Text.lower n) = true -> n ∉ derived_names.
Proof.
  intros H Hin. unfold derived_names, time_feature_names, flag_names in Hin. simpl in Hin.
  repeat (apply elem_of_cons in Hin as [->|Hin]; [by vm_compute in H|]).
  by apply elem_of_nil in Hin.
Qed.

Lemma date_name_not_derived (n : string) : date_like n = true -> n ∉ derived_names.
Proof.
  intros H Hin. unfold derived_names, time_feature_names, flag_names in Hin. simpl in Hin.
  repeat (apply elem_of_cons in Hin as [->|Hin]; [by vm_compute in H|]).
  by apply elem_of_nil in Hin.
Qed.

Lemma not_derived_not_flag (n : string) : n ∉ derived_names -> n ∉ flag_names.
Proof. intros H Hin. apply H, elem_of_app. by right. Qed.

Lemma not_derived_not_feature (n : string) : n ∉ derived_names -> n ∉ time_feature_names.
Proof. intros H Hin. apply H, elem_of_app. by left. Qed.

Lemma getitem_derive_ne (df : table) (target source m : string) (f : series -> series) :
  target <> m -> getitem (derive df target source f) m = getitem df m.
Proof.
  intros H. unfold derive. destruct (getitem df source); [|done].
  by apply getitem_setitem_ne.
Qed.

Lemma elem_of_derive (df : table) (target source m : string) (f : series -> series)
    (t : series) :
  (m, t) ∈ derive df target source f ->
  (m = target /\ exists s, getitem df source = Some s /\ t = f s) \/ (m, t) ∈ df.
Proof.
  unfold derive. destruct (getitem df source) as [s|]; [|by right].
  intros [[= -> ->]|?]%elem_of_setitem; [left; eauto | by right].
Qed.

Lemma getitem_time_features_ne (dates : list string) (df : table) (m : string) :
  m ∉ time_feature_names -> getitem (time_features dates df) m = getitem df m.
Proof.
  intros H. unfold time_features. destruct dates as [|main _]; [done|].
  unfold time_feature_names in H.
  rewrite !getitem_derive_ne; [done|..]; intros <-; apply H; label_in.
Qed.

Lemma elem_of_time_features (dates : list string) (df : table) (m : string) (t : series) :
  (m, t) ∈ time_features dates df ->
  (dates <> [] /\ m ∈ time_feature_names) \/ (m, t) ∈ df.
Proof.
  unfold time_features. destruct dates as [|main rest]; [by right|].
  intros H. unfold time_feature_names.
  repeat (apply elem_of_derive in H as [[-> _]|H]; [left; split; [done|label_in]|]).
  by right.
Qed.

Section Roles.

Context (repr : dtype -> cell -> string) (float_mean : Qc -> Qc -> number).

Lemma getitem_status_flags_ne (statuses : list string) (df : table) (m : string) :
  m ∉ flag_names -> getitem (status_flags repr statuses df) m = getitem df m.
Proof.
  intros H. unfold status_flags. destruct statuses as [|sc _]; [done|].
  destruct (getitem df sc) as [st|]; [|done].
  rewrite getitem_setitem_ne, getitem_setitem_eq, getitem_setitem_eq by done.
  unfold flag_names in H.
  rewrite !getitem_setitem_ne; [done|..]; intros <-; apply H; label_in.
Qed.

Lemma elem_of_status_flags (statuses : list string) (df : table) (m : string) (t : series) :
  (m, t) ∈ status_flags repr statuses df ->
  (m ∈ flag_names /\ complete t = true /\ typed_series t) \/ (m, t) ∈ df.
Proof.
  unfold status_flags. destruct statuses as [|sc _]; [by right|].
  destruct (getitem df sc) as [st|]; [|by right].
  rewrite getitem_setitem_ne, getitem_setitem_eq, getitem_setitem_eq by done.
  rewrite on_time_series_text. unfold flag_names.
  intros H.
  apply elem_of_setitem in H as [[= -> ->]|H].
  { left. split; [label_in|]. split.
    - unfold complete. simpl. by induction (map Text.lower _).
    - unfold typed_series. simpl. rewrite Forall_map. by apply Forall_forall. }
  apply elem_of_setitem in H as [[= -> ->]|H].
  { left. split; [label_in|]. split; [apply complete_flag_series | apply typed_flag_series]. }
  apply elem_of_setitem in H as [[= -> ->]|H].
  { left. split; [label_in|]. split; [apply complete_flag_series | apply typed_flag_series]. }
  by right.
Qed.

End Roles.

(** ** The stages of [enrich] on a table with distinct labels *)

Lemma columns_drop_id_gaps (ids : list string) (df : table) :
  columns (drop_id_gaps ids df) = columns df.
Proof. unfold drop_id_gaps. destruct (firstn 1 ids); [done|apply columns_take_rows]. Qed.

Lemma columns_containing_same (word : string) (df df' : table) :
  columns df = columns df' -> columns_containing word df = columns_containing word df'.
Proof. unfold columns_containing. by intros ->. Qed.

Lemma elem_of_drop_id_gaps (ids : list string) (df : table) (n : string) (s : series) :
  (n, s) ∈ drop_id_gaps ids df ->
  exists mask s0, (n, s0) ∈ df /\ s = take_series mask s0.
Proof.
  unfold drop_id_gaps. destruct (firstn 1 ids) as [|c cs].
  - intros H. pose proof (list_elem_of_fmap_2 snd _ _ H) as Hs. simpl in Hs.
    exists (repeat true (length (values s))), s. split; [done|].
    unfold take_series. rewrite mask_filter_all by done. by destruct s.
  - intros (s0 & ? & ?)%elem_of_take_rows. eauto.
Qed.

Lemma zip_with_andb_true (l : list bool) (n : nat) :
  length l = n -> zip_with andb l (repeat true n) = l.
Proof.
  revert n. induction l as [|b l IH]; intros [|n]; simpl; try done.
  intros [= H]. by rewrite andb_true_r, IH.
Qed.

Lemma drop_id_gaps_mask (id_col : string) (rest : list string) (df : table) (sid : series) :
  rectangular df -> getitem df id_col = Some sid ->
  drop_id_gaps (id_col :: rest) df = take_rows (map notna (values sid)) df.
Proof.
  intros Hrect Hsid. unfold drop_id_gaps, dropna, notna_mask. simpl. rewrite Hsid.
  rewrite zip_with_andb_true; [done|].
  rewrite length_map. by eapply shape_getitem.
Qed.

Section Enrich.

Context (parse_datetime : series -> cell -> option Z) (mixed_offsets : series -> bool)
    (repr : dtype -> cell -> string) (float_mean : Qc -> Qc -> number).

Lemma enrich_stages (raw : table) :
  NoDup (columns raw) ->
  enrich parse_datetime mixed_offsets repr float_mean raw
  = status_flags repr (columns_containing "status" raw)
      (time_features (columns_containing "date" raw)
         (map_where date_like (to_datetime parse_datetime mixed_offsets)
            (map_where (fun _ => true) (fill_series float_mean)
               (drop_id_gaps (columns_containing "id" raw) raw)))).
Proof.
  intros Hnd. unfold enrich.
  assert (Hd : NoDup (columns (drop_id_gaps (columns_containing "id" raw) raw)))
    by (by rewrite columns_drop_id_gaps).
  rewrite fill_missing_map by done.
  rewrite (columns_containing_same "date" raw
             (map_where (fun _ => true) (fill_series float_mean)
                (drop_id_gaps (columns_containing "id" raw) raw)))
    by (by rewrite columns_map_where, columns_drop_id_gaps).
  rewrite convert_dates_map by (by rewrite columns_map_where).
  rewrite <- (columns_containing_same "date" raw)
    by (by rewrite columns_map_where, columns_drop_id_gaps).
  done.
Qed.

Lemma date_derived_false (raw : table) (n : string) :
  date_derived raw n = false ->
  date_like n = false
  /\ (columns_containing "date" raw = [] \/ n ∉ time_feature_names).
Proof.
  unfold date_derived. intros [H1 H2]%orb_false_elim. split; [done|].
  destruct (columns_containing "date" raw); [by left|right].
  simpl in H2. by apply bool_decide_eq_false_1 in H2.
Qed.

(** A column of [enrich] that the date step does not write has no gap,
    unless the fill found it without a median. *)
Lemma enrich_filled (raw : table) (n : string) (s : series) :
  NoDup (columns raw) ->
  (n, s) ∈ enrich parse_datetime mixed_offsets repr float_mean raw ->
  date_derived raw n = false ->
  complete s = true
  \/ (no_median s /\ (n, s) ∈ drop_id_gaps (columns_containing "id" raw) raw).
Proof.
  intros Hnd Hin [Hdate Hfeat]%date_derived_false.
  rewrite enrich_stages in Hin by done.
  apply elem_of_status_flags in Hin as [(_ & Hc & Ht)|Hin]; [by left|].
  apply elem_of_time_features in Hin as [[Hdates Hn]|Hin].
  { by destruct Hfeat. }
  apply elem_of_map_where in Hin as (s1 & Hin & ->). rewrite Hdate.
  apply elem_of_map_where in Hin as (s2 & Hin & ->).
  destruct (fill_series_outcome float_mean s2) as [?|[Hno ->]]; [by left|by right].
Qed.

(** C1, as the code has it.  In the output every column that the date step
    does not write (it is not date-like, and not one of the four time
    features when a date-like column exists) has no missing value, unless
    it is a numeric column that had no median when the fill reached it,
    after the identifier-gap drop: it then held no finite number and as
    many [-inf] as [inf], none at all for one. *)
Theorem no_missing_outside_date_columns (raw : table) (n : string) (s : series) :
  wf_table raw ->
  (n, s) ∈ transform_table parse_datetime mixed_offsets repr float_mean raw ->
  date_derived raw n = false ->
  complete s = true
  \/ exists s0, (n, s0) ∈ drop_id_gaps (columns_containing "id" raw) raw /\ no_median s0.
Proof.
  intros (Hnd & Hrect & Htyped) Hin Hn. unfold transform_table in Hin.
  destruct (remove_duplicates_cases (enrich parse_datetime mixed_offsets repr float_mean raw))
    as [Heq|Heq]; rewrite Heq in Hin.
  - destruct (enrich_filled raw n s Hnd Hin Hn) as [?|[? ?]]; [by left|right; eauto].
  - unfold drop_duplicates in Hin. apply elem_of_take_rows in Hin as (s0 & Hin & ->).
    destruct (enrich_filled raw n s0 Hnd Hin Hn) as [?|[? ?]].
    + left. by apply complete_take.
    + right. eauto.
Qed.

(** The identifier column after [enrich]: the rows without an identifier
    are gone, and no later step writes the column unless it is date-like. *)
Lemma enrich_id_column (raw : table) (id_col : string) (rest : list string) (sid : series) :
  NoDup (columns raw) -> rectangular raw ->
  columns_containing "id" raw = id_col :: rest ->
  getitem raw id_col = Some sid ->
  date_like id_col = false ->
  getitem (enrich parse_datetime mixed_offsets repr float_mean raw) id_col
  = Some (take_series (map notna (values sid)) sid).
Proof.
  intros Hnd Hrect Hids Hsid Hdate.
  assert (Hname : Text.contains "id" (Text.lower id_col) = true).
  { assert (id_col ∈ columns_containing "id" raw) as Hin
      by (rewrite Hids; apply elem_of_cons; by left).
    by apply elem_of_columns_containing in Hin as [_ ?]. }
  pose proof (id_name_not_derived _ Hname) as Hnot.
  rewrite enrich_stages, Hids by done.
  rewrite getitem_status_flags_ne by (by apply not_derived_not_flag).
  rewrite getitem_time_features_ne by (by apply not_derived_not_feature).
  rewrite !getitem_map_where, Hdate.
  rewrite (drop_id_gaps_mask _ _ _ sid) by done.
  rewrite getitem_take_rows, Hsid. simpl.
  rewrite fill_series_complete; [done|]. apply complete_take_notna.
Qed.

(** C4, as the code has it.  The identifier-gap drop comes first; with no
    identifier-like column it changes nothing; otherwise it keeps exactly
    the rows whose cell in the first identifier-like column is present; and
    when that column is not date-like as well, the output has no missing
    value in it. *)
Theorem identifier_gap_drop (raw : table) :
  wf_table raw ->
  transform_table parse_datetime mixed_offsets repr float_mean raw
  = remove_duplicates
      (status_flags repr (columns_containing "status" raw)
         (time_features (columns_containing "date" raw)
            (convert_dates parse_datetime mixed_offsets (columns_containing "date" raw)
               (fill_missing float_mean
                  (drop_id_gaps (columns_containing "id" raw) raw)))))
  /\ (columns_containing "id" raw = [] ->
      drop_id_gaps (columns_containing "id" raw) raw = raw)
  /\ (forall id_col rest,
        columns_containing "id" raw = id_col :: rest ->
        exists sid,
          getitem raw id_col = Some sid
          /\ drop_id_gaps (columns_containing "id" raw) raw
             = take_rows (map notna (values sid)) raw
          /\ (date_like id_col = false ->
              exists s, getitem (transform_table parse_datetime mixed_offsets repr float_mean raw)
                  id_col = Some s
                        /\ complete s = true)).
Proof.
  intros (Hnd & Hrect & Htyped). split; [done|]. split; [by intros ->|].
  intros id_col rest Hids.
  assert (is_Some (getitem raw id_col)) as [sid Hsid].
  { apply getitem_columns.
    assert (id_col ∈ columns_containing "id" raw) as Hin
      by (rewrite Hids; apply elem_of_cons; by left).
    by apply elem_of_columns_containing in Hin as [? _]. }
  exists sid. split; [done|]. split; [rewrite Hids; by apply drop_id_gaps_mask|].
  intros Hdate.
  pose proof (enrich_id_column raw id_col rest sid Hnd Hrect Hids Hsid Hdate) as HE.
  unfold transform_table.
  destruct (remove_duplicates_cases (enrich parse_datetime mixed_offsets repr float_mean raw))
      as [-> | ->].
  - eexists. split; [exact HE|]. apply complete_take_notna.
  - eexists. unfold drop_duplicates. rewrite getitem_take_rows, HE. split; [done|].
    apply complete_take, complete_take_notna.
Qed.

End Enrich.

Lemma no_missing_outside_date_columns_witness :
  complete (Series Numeric [Num (QcZ 3); Num (QcZ 3)]) = true
  \/ exists s0,
       ("cost", s0) ∈ drop_id_gaps (columns_containing "id" sample_orders) sample_orders
       /\ no_median s0.
Proof.
  apply (no_missing_outside_date_columns Iso.parse_datetime Iso.mixed_offsets Iso.repr
           Iso.float_mean sample_orders "cost").
  - apply (bool_decide_unpack _). vm_compute. exact I.
  - apply (bool_decide_unpack _). vm_compute. exact I.
  - reflexivity.
Defined.

(** The gap in the cost of the sample orders is filled with the median of
    the costs that are left after the identifier-gap drop; the removal of
    duplicates then takes one of the three rows away. *)
Example gap_filled_with_median :
  getitem (drop_id_gaps (columns_containing "id" sample_orders) sample_orders) "cost"
  = Some (Series Numeric [Num (QcZ 3); Num (QcZ 3); NA])
  /\ bool_decide
       (getitem (transform_table Iso.parse_datetime Iso.mixed_offsets Iso.repr Iso.float_mean
                   sample_orders) "cost"
        = Some (Series Numeric [Num (QcZ 3); Num (QcZ 3)])) = true.
Proof. split; [reflexivity | by vm_compute]. Qed.

(** The exception of C1 at work: the readings hold as many [-inf] as [inf],
    so their median is NaN and the gap stays. *)
Example gap_left_without_median :
  wf_table unbounded_readings
  /\ median Iso.float_mean (Series Numeric [Inf false; Inf false; Inf true; Inf true; NA]) = NA
  /\ (values <$> getitem (transform_table Iso.parse_datetime Iso.mixed_offsets Iso.repr
                            Iso.float_mean unbounded_readings) "reading")
     = Some [Inf false; Inf true; Inf true; NA].
Proof.
  split; [apply (bool_decide_unpack _); vm_compute; exact I|].
  split; reflexivity.
Qed.

(** The claim of C1 fails on a table with an undated order: the date that
    is missing in the raw table is filled with "Unknown", which does not
    parse, and leaves five missing cells in the output. *)
Lemma missing_values_after_transform :
  wf_table undated_orders
  /\ total_missing (transform_table Iso.parse_datetime Iso.mixed_offsets Iso.repr Iso.float_mean
      undated_orders) = 5%nat
  /\ exists s, getitem
      (transform_table Iso.parse_datetime Iso.mixed_offsets Iso.repr Iso.float_mean undated_orders)
      "order_year"
               = Some s
               /\ complete s = false.
Proof.
  split; [apply (bool_decide_unpack _); vm_compute; exact I|].
  split; [by vm_compute|].
  eexists. split; [reflexivity|]. by vm_compute.
Qed.

Lemma identifier_gap_drop_witness :
  exists s,
    getitem (transform_table Iso.parse_datetime Iso.mixed_offsets Iso.repr Iso.float_mean
        sample_orders) "order_id" = Some s
    /\ complete s = true.
Proof.
  assert (Hwf : wf_table sample_orders)
    by (apply (bool_decide_unpack _); vm_compute; exact I).
  destruct (proj2 (proj2
      (identifier_gap_drop Iso.parse_datetime Iso.mixed_offsets Iso.repr Iso.float_mean
      sample_orders Hwf))
              "order_id" [] eq_refl) as (sid & _ & _ & Hout).
  exact (Hout eq_refl).
Defined.

(** The last part of the claim C4 fails on a table whose first
    identifier-like column is date-like too ("valid_date" contains "id"):
    no row is dropped, the entry that does not parse becomes NaT, and the
    output has a missing value in the identifier column. *)
Lemma identifier_column_with_gap :
  wf_table valid_dates
  /\ columns_containing "id" valid_dates = ["valid_date"]
  /\ exists s, getitem
      (transform_table Iso.parse_datetime Iso.mixed_offsets Iso.repr Iso.float_mean valid_dates)
      "valid_date"
               = Some s
               /\ complete s = false.
Proof.
  split; [apply (bool_decide_unpack _); vm_compute; exact I|].
  split; [reflexivity|].
  eexists. split; [reflexivity|]. by vm_compute.
Qed.

(** ** A second run finds nothing to do *)

Lemma complete_all_true (l : list cell) :
  forallb notna l = true -> map notna l = repeat true (length l).
Proof.
  induction l as [|c l IH]; simpl; [done|].
  intros [-> Hl]%andb_prop. by rewrite IH.
Qed.

Lemma drop_id_gaps_settled (df : table) :
  rectangular df -> ids_present df ->
  drop_id_gaps (columns_containing "id" df) df = df.
Proof.
  intros Hrect Hids. unfold ids_present in Hids.
  destruct (columns_containing "id" df) as [|id_col rest]; [done|].
  destruct Hids as (s & Hs & Hc).
  rewrite (drop_id_gaps_mask _ _ _ s) by done.
  rewrite complete_all_true by done.
  rewrite (shape_getitem _ _ _ _ Hrect Hs). by apply take_rows_all.
Qed.

Lemma count_duplicated_NoDup (seen rs : list (list cell)) :
  NoDup rs -> (forall r, r ∈ rs -> r ∉ seen) ->
  count_true (duplicated_from seen rs) = 0%nat.
Proof.
  intros Hnd. revert seen. induction Hnd as [|r rs Hr _ IH]; intros seen Hseen; [done|].
  cbn [duplicated_from]. unfold count_true in *. cbn [List.filter].
  rewrite bool_decide_eq_false_2 by (apply Hseen, elem_of_cons; by left).
  apply IH. intros x Hx [->|Hin]%elem_of_cons; [done|].
  apply (Hseen x); [apply elem_of_cons; by right | done].
Qed.

Lemma remove_duplicates_settled (df : table) :
  NoDup (rows df) -> remove_duplicates df = df.
Proof.
  intros H. unfold remove_duplicates, duplicated.
  rewrite count_duplicated_NoDup; [done..|]. intros r _. apply not_elem_of_nil.
Qed.

Lemma time_features_spec (main : string) (rest : list string) (df : table) (sm : series) :
  date_like main = true -> getitem df main = Some sm ->
  getitem (time_features (main :: rest) df) main = Some sm
  /\ getitem (time_features (main :: rest) df) "order_year" = Some (dt_year sm)
  /\ getitem (time_features (main :: rest) df) "order_month" = Some (dt_month sm)
  /\ getitem (time_features (main :: rest) df) "order_day_of_week" = Some (dt_dayofweek sm)
  /\ getitem (time_features (main :: rest) df) "order_day_name" = Some (dt_day_name sm).
Proof.
  intros Hdate Hsm. pose proof (date_name_not_derived _ Hdate) as Hnot.
  assert (Hy : "order_year" <> main) by (intros <-; apply Hnot; label_in).
  assert (Hm : "order_month" <> main) by (intros <-; apply Hnot; label_in).
  assert (Hw : "order_day_of_week" <> main) by (intros <-; apply Hnot; label_in).
  assert (Hn : "order_day_name" <> main) by (intros <-; apply Hnot; label_in).
  unfold time_features, derive.
  rewrite Hsm.
  rewrite (getitem_setitem_ne _ "order_year" main) by done. rewrite Hsm.
  rewrite (getitem_setitem_ne _ "order_month" main), (getitem_setitem_ne _ "order_year" main)
    by done. rewrite Hsm.
  rewrite (getitem_setitem_ne _ "order_day_of_week" main),
    (getitem_setitem_ne _ "order_month" main), (getitem_setitem_ne _ "order_year" main)
    by done. rewrite Hsm.
  repeat split.
  - by rewrite !getitem_setitem_ne.
  - rewrite !(getitem_setitem_ne _ _ "order_year") by done. apply getitem_setitem_eq.
  - rewrite !(getitem_setitem_ne _ _ "order_month") by done. apply getitem_setitem_eq.
  - rewrite !(getitem_setitem_ne _ _ "order_day_of_week") by done. apply getitem_setitem_eq.
  - apply getitem_setitem_eq.
Qed.

Lemma columns_time_features_old (dates : list string) (df : table) :
  Forall (fun n => n ∈ columns df) time_feature_names ->
  columns (time_features dates df) = columns df.
Proof.
  intros H. unfold time_features. destruct dates as [|main _]; [done|].
  unfold time_feature_names in H.
  apply Forall_cons in H as [Hy H]. apply Forall_cons in H as [Hm H].
  apply Forall_cons in H as [Hw H]. apply Forall_cons in H as [Hn _].
  set (df1 := derive df "order_year" main dt_year).
  assert (H1 : columns df1 = columns df) by (by apply columns_derive_old).
  set (df2 := derive df1 "order_month" main dt_month).
  assert (H2 : columns df2 = columns df)
    by (subst df2; rewrite columns_derive_old; by rewrite ?H1).
  set (df3 := derive df2 "order_day_of_week" main dt_dayofweek).
  assert (H3 : columns df3 = columns df)
    by (subst df3; rewrite columns_derive_old; by rewrite ?H2).
  rewrite columns_derive_old; by rewrite ?H3.
Qed.

Section SecondRun.

Context (parse_datetime : series -> cell -> option Z) (mixed_offsets : series -> bool)
        (repr : dtype -> cell -> string) (float_mean : Qc -> Qc -> number).

Hypothesis unknown_is_no_date : forall s, parse_datetime s (Str "Unknown") = None.

Lemma to_datetime_fill_series (s : series) :
  timestamps s -> mixed_offsets (fill_series float_mean s) = false ->
  to_datetime parse_datetime mixed_offsets (fill_series float_mean s) = s.
Proof using unknown_is_no_date.
  intros [Hd Ht] Hmix. unfold to_datetime. rewrite Hmix. clear Hmix.
  destruct s as [d l]. simpl in Hd. subst d.
  unfold fill_series, fillna, is_numeric_dtype, typed_series in *. simpl in *.
  destruct (existsb isna l); simpl; f_equal.
  - rewrite map_map. rewrite <- (map_id l) at 2. apply map_ext_Forall.
    eapply Forall_impl; [exact Ht|]. intros c Hc; simpl.
    destruct c; simpl in *; try done. by rewrite unknown_is_no_date.
  - rewrite <- (map_id l) at 2. apply map_ext_Forall.
    eapply Forall_impl; [exact Ht|]. intros c Hc; simpl. by destruct c.
Qed.

Lemma status_flags_settled (df : table) :
  flags_of_status repr df -> status_flags repr (columns_containing "status" df) df = df.
Proof using Type.
  unfold flags_of_status, status_flags.
  destruct (columns_containing "status" df) as [|sc rest]; [done|].
  intros (st & Hst & Hd & Hl & Ho). rewrite Hst.
  fold (flag_series delivered_words (map Text.lower (astype_str repr st))) in Hd.
  fold (flag_series late_words (map Text.lower (astype_str repr st))) in Hl.
  rewrite (setitem_same df "is_delivered") by done.
  rewrite (setitem_same df "is_late") by done.
  rewrite Hd, Hl, on_time_series_text. by apply setitem_same.
Qed.

(** On a settled table the date step finds the columns of the table,
    filled. *)
Lemma unmixed_settled (df : table) :
  NoDup (columns df) -> rectangular df -> ids_present df ->
  unmixed mixed_offsets float_mean df ->
  forall m s, (m, s) ∈ df -> date_like m = true ->
              mixed_offsets (fill_series float_mean s) = false.
Proof using Type.
  intros Hnd Hrect Hids Hmix m s Hin Hdate.
  unfold unmixed, date_step_input in Hmix.
  rewrite drop_id_gaps_settled, fill_missing_map in Hmix by done.
  rewrite Forall_forall in Hmix. apply (Hmix (m, fill_series float_mean s)); [|done].
  unfold map_where.
  apply (list_elem_of_fmap_2 (fun p : string * series => (p.1, fill_series float_mean p.2)))
    in Hin. exact Hin.
Qed.

(** Filling and re-reading the dates of a settled table changes the time
    features at most. *)
Lemma refill_settled (df : table) (n : string) :
  NoDup (columns df) -> columns_settled df ->
  (forall m s, (m, s) ∈ df -> date_like m = true ->
               mixed_offsets (fill_series float_mean s) = false) ->
  n ∈ columns df -> date_derived df n = false \/ date_like n = true ->
  getitem (map_where date_like (to_datetime parse_datetime mixed_offsets)
             (map_where (fun _ => true) (fill_series float_mean) df)) n
  = getitem df n.
Proof using unknown_is_no_date.
  intros Hnd Hcols Hmix [s Hs]%getitem_columns Hn.
  rewrite !getitem_map_where, Hs. simpl.
  pose proof (Hcols n s (getitem_elem_of _ _ _ Hs)) as Hsettled.
  destruct (date_like n) eqn:Hdate; simpl.
  - rewrite to_datetime_fill_series; [done..|].
    apply (Hmix n); [by apply getitem_elem_of | done].
  - destruct Hn as [Hn|Hn]; [|done]. destruct Hsettled as [?|Hf]; [congruence|].
    by rewrite filled_fill_series.
Qed.

Lemma time_features_settled (df : table) :
  NoDup (columns df) -> columns_settled df -> time_features_of df ->
  (forall m s, (m, s) ∈ df -> date_like m = true ->
               mixed_offsets (fill_series float_mean s) = false) ->
  time_features (columns_containing "date" df)
    (map_where date_like (to_datetime parse_datetime mixed_offsets)
       (map_where (fun _ => true) (fill_series float_mean) df))
  = df.
Proof using unknown_is_no_date.
  intros Hnd Hcols Hfeat Hmix.
  set (C := map_where date_like _ _).
  assert (HcolsC : columns C = columns df) by (subst C; by rewrite !columns_map_where).
  unfold time_features_of in Hfeat.
  destruct (columns_containing "date" df) as [|main rest] eqn:Hdates.
  - (* no date-like column: nothing is exempt *)
    simpl. symmetry. apply table_ext; [done..|].
    intros n Hn. symmetry. apply refill_settled; [done..|].
    unfold date_derived. rewrite Hdates. simpl.
    destruct (date_like n); [by right|by left].
  - destruct Hfeat as (sm & Hsm & Hy & Hm & Hw & Hdn).
    assert (Hmain : date_like main = true).
    { assert (main ∈ columns_containing "date" df) as Hin
        by (rewrite Hdates; apply elem_of_cons; by left).
      by apply elem_of_columns_containing in Hin as [_ ?]. }
    assert (HsmC : getitem C main = Some sm).
    { subst C. rewrite refill_settled; [done..| |by right].
      apply getitem_columns. eauto. }
    destruct (time_features_spec main rest C sm Hmain HsmC) as (_ & Hy' & Hm' & Hw' & Hdn').
    symmetry. apply table_ext; [|done|].
    + symmetry. rewrite columns_time_features_old; [done|].
      rewrite HcolsC. unfold time_feature_names.
      repeat (apply Forall_cons; split; [apply getitem_columns; eauto|]). constructor.
    + intros n Hn. destruct (decide (n ∈ time_feature_names)) as [Hin|Hout].
      * unfold time_feature_names in Hin.
        repeat (apply elem_of_cons in Hin as [->|Hin]; [congruence|]).
        by apply elem_of_nil in Hin.
      * rewrite getitem_time_features_ne by done. subst C. symmetry.
        apply refill_settled; [done..|].
        unfold date_derived. rewrite Hdates. simpl.
        rewrite bool_decide_eq_false_2 by done.
        destruct (date_like n); [by right|by left].
Qed.

(** On a settled table whose date-like columns come back from
    [pd.to_datetime] as datetime columns, [transform_table] is the
    identity. *)
Lemma transform_settled (df : table) :
  settled repr df -> unmixed mixed_offsets float_mean df ->
  transform_table parse_datetime mixed_offsets repr float_mean df = df.
Proof using unknown_is_no_date.
  intros (Hnd & Hrect & Hcols & Hfeat & Hflags & Hids & Hrows) Hmix.
  pose proof (unmixed_settled df Hnd Hrect Hids Hmix) as Hmix'.
  unfold transform_table.
  assert (HE : enrich parse_datetime mixed_offsets repr float_mean df = df).
  { rewrite enrich_stages by done.
    rewrite drop_id_gaps_settled by done.
    rewrite time_features_settled by done.
    by apply status_flags_settled. }
  rewrite HE. by apply remove_duplicates_settled.
Qed.

End SecondRun.

(** ** The output of a first run is settled *)

Lemma extends_columns_same (raw df : table) :
  columns df = columns raw -> extends_columns raw df.
Proof. intros H. exists []. by rewrite app_nil_r. Qed.

Lemma extends_columns_setitem (raw df : table) (n : string) (s : series) :
  n ∈ derived_names -> extends_columns raw df -> extends_columns raw (setitem df n s).
Proof.
  intros Hn (extra & Hcols & Hextra).
  unfold extends_columns. rewrite columns_setitem, Hcols.
  case_bool_decide.
  - exists extra. by rewrite app_nil_r.
  - exists (extra ++ [n]). rewrite app_assoc. split; [done|].
    apply Forall_app. split; [done|]. by apply Forall_singleton.
Qed.

Lemma extends_columns_derive (raw df : table) (target source : string)
    (f : series -> series) :
  target ∈ derived_names -> extends_columns raw df ->
  extends_columns raw (derive df target source f).
Proof.
  intros Hn H. unfold derive. destruct (getitem df source); [|done].
  by apply extends_columns_setitem.
Qed.

Lemma role_word_id : role_word "id".
Proof. unfold role_word, derived_names. simpl. by repeat constructor. Qed.

Lemma role_word_date : role_word "date".
Proof. unfold role_word, derived_names. simpl. by repeat constructor. Qed.

Lemma role_word_status : role_word "status".
Proof. unfold role_word, derived_names. simpl. by repeat constructor. Qed.

Lemma columns_containing_extends (word : string) (raw df : table) :
  role_word word -> extends_columns raw df ->
  columns_containing word df = columns_containing word raw.
Proof.
  intros Hword (extra & Hcols & Hextra). unfold columns_containing.
  rewrite Hcols, List.filter_app. clear Hcols.
  replace (List.filter _ extra) with (@nil string); [by rewrite app_nil_r|].
  symmetry. induction Hextra as [|n extra Hn _ IH]; [done|]. cbn [List.filter].
  unfold role_word in Hword. rewrite Forall_forall in Hword.
  by rewrite (Hword n Hn).
Qed.

Lemma dt_field_take (d : dtype) (f : Z -> cell) (mask : list bool) (s : series) :
  dt_field d f (take_series mask s) = take_series mask (dt_field d f s).
Proof. unfold dt_field, take_series. simpl. by rewrite mask_filter_map. Qed.

Lemma timestamps_take (mask : list bool) (s : series) :
  timestamps s -> timestamps (take_series mask s).
Proof. intros [Hd Ht]. split; [done|by apply typed_take]. Qed.

Lemma NoDup_columns_derive (df : table) (target source : string) (f : series -> series) :
  NoDup (columns df) -> NoDup (columns (derive df target source f)).
Proof.
  intros H. unfold derive. destruct (getitem df source); [|done].
  by apply NoDup_columns_setitem.
Qed.

Lemma NoDup_columns_time_features (dates : list string) (df : table) :
  NoDup (columns df) -> NoDup (columns (time_features dates df)).
Proof.
  intros H. unfold time_features. destruct dates; [done|].
  by repeat apply NoDup_columns_derive.
Qed.

Lemma extends_columns_time_features (raw : table) (dates : list string) (df : table) :
  extends_columns raw df -> extends_columns raw (time_features dates df).
Proof.
  intros H. unfold time_features. destruct dates; [done|].
  repeat (apply extends_columns_derive; [label_in|]). done.
Qed.

Section FirstRun.

Context (parse_datetime : series -> cell -> option Z) (mixed_offsets : series -> bool)
    (repr : dtype -> cell -> string) (float_mean : Qc -> Qc -> number).

Lemma timestamps_to_datetime (s : series) :
  mixed_offsets s = false -> timestamps (to_datetime parse_datetime mixed_offsets s).
Proof.
  intros Hmix. unfold timestamps, typed_series, to_datetime. rewrite Hmix. simpl.
  split; [done|]. rewrite Forall_map.
  apply Forall_forall. intros c _. simpl.
  destruct c; try done; by destruct (parse_datetime s _).
Qed.

Lemma finite_drop_id_gaps (ids : list string) (raw : table) (n : string) (s : series) :
  finite_table raw -> (n, s) ∈ drop_id_gaps ids raw -> finite_series s.
Proof.
  intros Hfin (mask & s0 & Hin & ->)%elem_of_drop_id_gaps. apply finite_take.
  unfold finite_table in Hfin. rewrite Forall_forall in Hfin. by apply (Hfin (n, s0)).
Qed.

Lemma NoDup_columns_status_flags (statuses : list string) (df : table) :
  NoDup (columns df) -> NoDup (columns (status_flags repr statuses df)).
Proof.
  intros H. unfold status_flags. destruct statuses as [|sc _]; [done|].
  destruct (getitem df sc); [|done].
  rewrite getitem_setitem_ne, getitem_setitem_eq, getitem_setitem_eq by done.
  by repeat apply NoDup_columns_setitem.
Qed.

Lemma extends_columns_status_flags (raw : table) (statuses : list string) (df : table) :
  extends_columns raw df -> extends_columns raw (status_flags repr statuses df).
Proof.
  intros H. unfold status_flags. destruct statuses as [|sc _]; [done|].
  destruct (getitem df sc); [|done].
  rewrite getitem_setitem_ne, getitem_setitem_eq, getitem_setitem_eq by done.
  repeat (apply extends_columns_setitem; [label_in|]). done.
Qed.

Lemma columns_refilled (raw : table) :
  columns (map_where date_like (to_datetime parse_datetime mixed_offsets)
             (map_where (fun _ => true) (fill_series float_mean)
                (drop_id_gaps (columns_containing "id" raw) raw)))
  = columns raw.
Proof. by rewrite !columns_map_where, columns_drop_id_gaps. Qed.

Lemma NoDup_columns_enrich (raw : table) :
  NoDup (columns raw) -> NoDup (columns (enrich parse_datetime mixed_offsets repr float_mean raw)).
Proof.
  intros H. rewrite enrich_stages by done.
  apply NoDup_columns_status_flags, NoDup_columns_time_features.
  by rewrite columns_refilled.
Qed.

Lemma extends_columns_enrich (raw : table) :
  NoDup (columns raw) -> extends_columns raw
      (enrich parse_datetime mixed_offsets repr float_mean raw).
Proof.
  intros H. rewrite enrich_stages by done.
  apply extends_columns_status_flags, extends_columns_time_features.
  apply extends_columns_same, columns_refilled.
Qed.

Lemma enrich_column_settled (raw : table) (n : string) (s : series) :
  NoDup (columns raw) -> finite_table raw -> unmixed mixed_offsets float_mean raw ->
  (n, s) ∈ enrich parse_datetime mixed_offsets repr float_mean raw ->
  if date_like n then timestamps s else date_derived raw n = true \/ filled s = true.
Proof.
  intros Hnd Hfin Hmix Hin. rewrite enrich_stages in Hin by done.
  unfold unmixed, date_step_input in Hmix.
  rewrite fill_missing_map in Hmix by (by rewrite columns_drop_id_gaps).
  rewrite Forall_forall in Hmix.
  destruct (date_like n) eqn:Hdate.
  - pose proof (date_name_not_derived _ Hdate) as Hnot.
    apply elem_of_status_flags in Hin as [(Hflag & _)|Hin];
      [by destruct (not_derived_not_flag _ Hnot)|].
    apply elem_of_time_features in Hin as [[_ Hfeat]|Hin];
      [by destruct (not_derived_not_feature _ Hnot)|].
    apply elem_of_map_where in Hin as (s1 & Hin & ->). rewrite Hdate.
    apply timestamps_to_datetime. by apply (Hmix (n, s1)).
  - destruct (date_derived raw n) eqn:Hder; [by left|right].
    apply date_derived_false in Hder as [_ Hfeat].
    apply elem_of_status_flags in Hin as [(_ & Hc & _)|Hin].
    { unfold filled. by rewrite Hc. }
    apply elem_of_time_features in Hin as [[Hdates Hn]|Hin]; [by destruct Hfeat|].
    apply elem_of_map_where in Hin as (s1 & Hin & ->). rewrite Hdate.
    apply elem_of_map_where in Hin as (s2 & Hin & ->).
    apply fill_series_filled. by eapply finite_drop_id_gaps.
Qed.

Lemma enrich_time_features (raw : table) (main : string) (rest : list string) :
  NoDup (columns raw) ->
  columns_containing "date" raw = main :: rest ->
  exists sm,
    getitem (enrich parse_datetime mixed_offsets repr float_mean raw) main = Some sm
    /\ getitem (enrich parse_datetime mixed_offsets repr float_mean raw) "order_year"
        = Some (dt_year sm)
    /\ getitem (enrich parse_datetime mixed_offsets repr float_mean raw) "order_month"
        = Some (dt_month sm)
    /\ getitem (enrich parse_datetime mixed_offsets repr float_mean raw) "order_day_of_week"
        = Some (dt_dayofweek sm)
    /\ getitem (enrich parse_datetime mixed_offsets repr float_mean raw) "order_day_name"
        = Some (dt_day_name sm).
Proof.
  intros Hnd Hdates.
  assert (main ∈ columns_containing "date" raw) as Hin
    by (rewrite Hdates; apply elem_of_cons; by left).
  apply elem_of_columns_containing in Hin as [Hcol Hdate]. fold (date_like main) in Hdate.
  rewrite enrich_stages, Hdates by done.
  set (C := map_where date_like _ _).
  assert (is_Some (getitem C main)) as [sm Hsm].
  { apply getitem_columns. subst C. by rewrite columns_refilled. }
  destruct (time_features_spec main rest C sm Hdate Hsm) as (H0 & H1 & H2 & H3 & H4).
  pose proof (date_name_not_derived _ Hdate) as Hnot.
  exists sm.
  rewrite !getitem_status_flags_ne; [done|..]; try label_in.
  by apply not_derived_not_flag.
Qed.

(** The table a first run returns is settled, provided the first
    identifier-like column is not a date-like one as well. *)
Lemma transform_table_settled (raw : table) :
  NoDup (columns raw) -> rectangular raw ->
  finite_table raw -> unmixed mixed_offsets float_mean raw ->
  (forall id_col rest,
      columns_containing "id" raw = id_col :: rest -> date_like id_col = false) ->
  settled repr (transform_table parse_datetime mixed_offsets repr float_mean raw).
Proof.
  intros Hnd Hrect Hfin Hmix Hid.
  pose proof (rectangular_enrich parse_datetime mixed_offsets repr float_mean raw Hrect) as HErect.
  pose proof (NoDup_columns_enrich raw Hnd) as HEnd.
  pose proof (extends_columns_enrich raw Hnd) as HEext.
  unfold transform_table. rewrite remove_duplicates_drop by done.
  set (E := enrich parse_datetime mixed_offsets repr float_mean raw) in *.
  set (mask := map negb (duplicated E)).
  assert (Hext : extends_columns raw (drop_duplicates E)).
  { destruct HEext as (extra & ? & ?). exists extra.
    unfold drop_duplicates. by rewrite columns_take_rows. }
  unfold settled, columns_settled, time_features_of, flags_of_status, ids_present,
    date_derived.
  rewrite (columns_containing_extends "id" raw) by (done || apply role_word_id).
  rewrite (columns_containing_extends "date" raw) by (done || apply role_word_date).
  rewrite (columns_containing_extends "status" raw) by (done || apply role_word_status).
  repeat split.
  - unfold drop_duplicates. by rewrite columns_take_rows.
  - unfold drop_duplicates. destruct
      (shape_enrich parse_datetime mixed_offsets repr float_mean raw Hrect) as [k Hk].
    eapply shape_rectangular, shape_take_rows, Hk.
  - intros n s Hin. unfold drop_duplicates in Hin.
    apply elem_of_take_rows in Hin as (s0 & Hin & ->).
    pose proof (enrich_column_settled raw n s0 Hnd Hfin Hmix Hin) as Hs0.
    destruct (date_like n) eqn:Hdate; [by apply timestamps_take|].
    destruct Hs0 as [Hder|Hf]; [left|right; by apply filled_take].
    unfold date_derived in Hder. by rewrite Hdate in Hder.
  - destruct (columns_containing "date" raw) as [|main rest] eqn:Hdates; [done|].
    destruct (enrich_time_features raw main rest Hnd Hdates) as (sm & H0 & H1 & H2 & H3 & H4).
    exists (take_series mask sm). unfold drop_duplicates. fold mask. fold E in H0, H1, H2, H3, H4.
    rewrite !getitem_take_rows, H0, H1, H2, H3, H4. simpl.
    unfold dt_year, dt_month, dt_dayofweek, dt_day_name. by rewrite !dt_field_take.
  - destruct (columns_containing "status" raw) as [|sc rest] eqn:Hsts; [done|].
    destruct (enrich_status_column parse_datetime mixed_offsets repr float_mean raw sc rest Hsts)
        as (st & Hst & Hf).
    exists (take_series mask st). unfold drop_duplicates. fold mask.
    by apply flags_of_text_take_rows.
  - destruct (columns_containing "id" raw) as [|id_col rest] eqn:Hids; [done|].
    assert (is_Some (getitem raw id_col)) as [sid Hsid].
    { apply getitem_columns.
      assert (id_col ∈ columns_containing "id" raw) as Hin
        by (rewrite Hids; apply elem_of_cons; by left).
      by apply elem_of_columns_containing in Hin as [? _]. }
    pose proof (enrich_id_column parse_datetime mixed_offsets repr float_mean raw id_col rest sid
        Hnd Hrect Hids Hsid
                  (Hid id_col rest eq_refl)) as HE.
    eexists. unfold drop_duplicates. fold E in HE. rewrite getitem_take_rows, HE.
    split; [done|]. apply complete_take, complete_take_notna.
  - rewrite rows_drop_duplicates by done. apply NoDup_keep_first.
Qed.

End FirstRun.

Section Idempotence.

Context (parse_datetime : series -> cell -> option Z) (mixed_offsets : series -> bool)
    (repr : dtype -> cell -> string) (float_mean : Qc -> Qc -> number).

(** C2, as the code has it.  A second run of the transformation on the
    output of a first run returns that output unchanged, provided that:
    the text "Unknown" is not read as a date (as pandas does); the first
    identifier-like column, if any, is not date-like as well; the raw table
    holds no infinity; and [pd.to_datetime] meets no mixed UTC offsets in
    the date-like columns, neither of the raw table nor of the clean one,
    so that they come back as datetime columns in both runs. *)
Theorem transform_idempotent (raw : table) :
  wf_table raw ->
  (forall s, parse_datetime s (Str "Unknown") = None) ->
  (forall id_col rest,
      columns_containing "id" raw = id_col :: rest -> date_like id_col = false) ->
  finite_table raw ->
  unmixed mixed_offsets float_mean raw ->
  unmixed mixed_offsets float_mean
    (transform_table parse_datetime mixed_offsets repr float_mean raw) ->
  transform_table parse_datetime mixed_offsets repr float_mean
    (transform_table parse_datetime mixed_offsets repr float_mean raw)
  = transform_table parse_datetime mixed_offsets repr float_mean raw.
Proof.
  intros (Hnd & Hrect & _) Hunknown Hid Hfin Hmix Hmix'.
  apply transform_settled; [done| |done]. by apply transform_table_settled.
Qed.

End Idempotence.

Lemma transform_idempotent_witness :
  transform_table Iso.parse_datetime Iso.mixed_offsets Iso.repr Iso.float_mean
    (transform_table Iso.parse_datetime Iso.mixed_offsets Iso.repr Iso.float_mean sample_orders)
  = transform_table Iso.parse_datetime Iso.mixed_offsets Iso.repr Iso.float_mean sample_orders.
Proof.
  apply (transform_idempotent Iso.parse_datetime Iso.mixed_offsets Iso.repr Iso.float_mean
           sample_orders).
  - apply (bool_decide_unpack _). vm_compute. exact I.
  - intros s. reflexivity.
  - intros id_col rest [= <- _]. reflexivity.
  - apply (bool_decide_unpack _). vm_compute. exact I.
  - apply (bool_decide_unpack _). vm_compute. exact I.
  - apply (bool_decide_unpack _). vm_compute. exact I.
Defined.

(** The claim of C2 fails on the output of a first run over a table whose
    first identifier-like column is date-like too: the first run turns the
    entry that does not parse into NaT, and the second run drops that row as
    a row without identifier. *)
Lemma transform_not_idempotent :
  wf_table valid_dates
  /\ nrows (transform_table Iso.parse_datetime Iso.mixed_offsets Iso.repr Iso.float_mean
              valid_dates) = 2%nat
  /\ nrows (transform_table Iso.parse_datetime Iso.mixed_offsets Iso.repr Iso.float_mean
              (transform_table Iso.parse_datetime Iso.mixed_offsets Iso.repr Iso.float_mean
                 valid_dates)) = 1%nat
  /\ transform_table Iso.parse_datetime Iso.mixed_offsets Iso.repr Iso.float_mean
       (transform_table Iso.parse_datetime Iso.mixed_offsets Iso.repr Iso.float_mean
          valid_dates)
     <> transform_table Iso.parse_datetime Iso.mixed_offsets Iso.repr Iso.float_mean
          valid_dates.
Proof.
  split; [apply (bool_decide_unpack _); vm_compute; exact I|].
  split; [by vm_compute|]. split; [by vm_compute|].
  intros H. apply (f_equal nrows) in H. vm_compute in H. discriminate H.
Qed.

(** It fails as well on readings with as many [-inf] as [inf] and a gap:
    the first run finds no median and leaves the gap, then removes a
    duplicate row and with it one [-inf]; the second run finds the median
    [inf] and fills the gap. *)
Example transform_not_idempotent_on_infinities :
  wf_table unbounded_readings
  /\ (values <$> getitem (transform_table Iso.parse_datetime Iso.mixed_offsets Iso.repr
                            Iso.float_mean unbounded_readings) "reading")
     = Some [Inf false; Inf true; Inf true; NA]
  /\ (values <$> getitem (transform_table Iso.parse_datetime Iso.mixed_offsets Iso.repr
                            Iso.float_mean
                            (transform_table Iso.parse_datetime Iso.mixed_offsets Iso.repr
                               Iso.float_mean unbounded_readings)) "reading")
     = Some [Inf false; Inf true; Inf true; Inf true].
Proof.
  split; [apply (bool_decide_unpack _); vm_compute; exact I|].
  split; reflexivity.
Qed.

(** * Further properties of the pipeline *)

(** ** Parts of the world a computation leaves alone *)

Lemma preserves_ret {X A} (part : world -> X) (a : A) : preserves part (mret a).
Proof. by intros w. Qed.

Lemma preserves_raise {X A} (part : world -> X) (e : exn) : preserves part (@raise A e).
Proof. by intros w. Qed.

Lemma preserves_get {X} (part : world -> X) : preserves part get_world.
Proof. by intros w. Qed.

Lemma preserves_modify {X} (part : world -> X) (f : world -> world) :
  (forall w, part (f w) = part w) -> preserves part (modify f).
Proof. intros H w. apply H. Qed.

Lemma preserves_bind {X A B} (part : world -> X) (m : M A) (f : A -> M B) :
  preserves part m -> (forall a, preserves part (f a)) -> preserves part (m ≫= f).
Proof.
  intros Hm Hf w. specialize (Hm w). unfold mbind, M_bind.
  destruct (m w) as [[a|e] w1]; simpl in *; [|done].
  by rewrite Hf.
Qed.

Lemma preserves_frame_or {X} (part : world -> X) (e : exn) (o : option nat) :
  preserves part (frame_or e o).
Proof.
  unfold frame_or. apply preserves_bind; [apply preserves_get|].
  intros w. destruct (o ≫= _); [apply preserves_ret | apply preserves_raise].
Qed.

Lemma preserves_frame {X} (part : world -> X) (o : option nat) : preserves part (frame o).
Proof. apply preserves_frame_or. Qed.

Lemma preserves_truediv {X} (part : world -> X) (a b : Qc) : preserves part (truediv a b).
Proof.
  unfold truediv. destruct (decide _); [apply preserves_raise | apply preserves_ret].
Qed.

Lemma preserves_new_frame {X} (part : world -> X) (t : table) :
  (forall h w, part (with_heap h w) = part w) -> preserves part (new_frame t).
Proof. intros H w. rewrite new_frame_eq. apply H. Qed.

Lemma preserves_update_frame {X} (part : world -> X) (r : nat) (f : table -> table) :
  (forall h w, part (with_heap h w) = part w) -> preserves part (update_frame r f).
Proof.
  intros H. unfold update_frame. apply preserves_bind; [apply preserves_frame|].
  intros t. apply preserves_bind; [apply preserves_get|].
  intros w. by apply preserves_modify.
Qed.

(** Goals [preserves part m] for a [part] that none of the steps of [m]
    writes. *)
Ltac preserves_steps :=
  repeat first
    [ apply preserves_ret | apply preserves_raise | apply preserves_get
    | apply preserves_frame | apply preserves_frame_or | apply preserves_truediv
    | apply preserves_new_frame; reflexivity
    | apply preserves_update_frame; reflexivity
    | apply preserves_modify; reflexivity
    | match goal with |- preserves _ (if ?b then _ else _) => destruct b end
    | match goal with |- preserves _ (match ?o with Some _ => _ | None => _ end) =>
        destruct o end
    | match goal with |- preserves _ (match ?l with [] => _ | _ :: _ => _ end) =>
        destruct l end
    | match goal with
      |- preserves _ (match ?d with Writable => _ | Refusing => _ | FailingAfter _ => _ end) =>
        destruct d end
    | apply preserves_bind; [| intros ?] ].

Section Untouched.

Context (parse_datetime : series -> cell -> option Z) (mixed_offsets : series -> bool)
        (repr : dtype -> cell -> string) (float_mean : Qc -> Qc -> number)
        (read_csv : string -> option table)
        (to_csv : table -> string).

Lemma extract_preserves_pg : preserves pg (extract read_csv).
Proof. unfold extract, set_raw_df. preserves_steps. Qed.

Lemma transform_preserves_pg : preserves pg
    (transform parse_datetime mixed_offsets repr float_mean).
Proof. unfold transform, print, set_clean_df. preserves_steps. Qed.

Lemma validate_preserves_pg : preserves pg validate.
Proof. unfold validate, print. preserves_steps. Qed.

Lemma load_to_csv_preserves_pg : preserves pg (load_to_csv to_csv).
Proof. unfold load_to_csv, print, set_files. preserves_steps. Qed.

Lemma core_stages_preserve_pg :
  preserves pg (core_stages parse_datetime mixed_offsets repr float_mean read_csv to_csv).
Proof.
  unfold core_stages.
  apply preserves_bind; [apply extract_preserves_pg | intros _].
  apply preserves_bind; [apply transform_preserves_pg | intros _].
  apply preserves_bind; [apply validate_preserves_pg | intros _].
  apply load_to_csv_preserves_pg.
Qed.

Lemma extract_preserves_files : preserves files (extract read_csv).
Proof. unfold extract, set_raw_df. preserves_steps. Qed.

Lemma transform_preserves_files : preserves files
    (transform parse_datetime mixed_offsets repr float_mean).
Proof. unfold transform, print, set_clean_df. preserves_steps. Qed.

Lemma validate_preserves_files : preserves files validate.
Proof. unfold validate, print. preserves_steps. Qed.

End Untouched.

(** ** Computations that only print *)

Lemma with_stdout_nil (w : world) : with_stdout (stdout w ++ []) w = w.
Proof. destruct w. unfold with_stdout. simpl. by rewrite app_nil_r. Qed.

Lemma prints_only_ret {A} (a : A) : prints_only (mret a).
Proof. intros w. exists []. by rewrite with_stdout_nil. Qed.

Lemma prints_only_raise {A} (e : exn) : prints_only (@raise A e).
Proof. intros w. exists []. by rewrite with_stdout_nil. Qed.

Lemma prints_only_get : prints_only get_world.
Proof. intros w. exists []. by rewrite with_stdout_nil. Qed.

Lemma prints_only_print (m : message) : prints_only (print m).
Proof. intros w. by exists [m]. Qed.

Lemma prints_only_bind {A B} (m : M A) (f : A -> M B) :
  prints_only m -> (forall a, prints_only (f a)) -> prints_only (m ≫= f).
Proof.
  intros Hm Hf w. destruct (Hm w) as [out1 H1]. unfold mbind, M_bind.
  destruct (m w) as [[a|e] w1]; simpl in *; [|by exists out1].
  destruct (Hf a w1) as [out2 H2]. exists (out1 ++ out2).
  rewrite H2, H1. unfold with_stdout. simpl. by rewrite app_assoc.
Qed.

Lemma prints_only_frame_or (e : exn) (o : option nat) : prints_only (frame_or e o).
Proof.
  unfold frame_or. apply prints_only_bind; [apply prints_only_get|].
  intros w. destruct (o ≫= _); [apply prints_only_ret | apply prints_only_raise].
Qed.

Lemma prints_only_truediv (a b : Qc) : prints_only (truediv a b).
Proof.
  unfold truediv. destruct (decide _); [apply prints_only_raise | apply prints_only_ret].
Qed.

Lemma validate_prints_only : prints_only validate.
Proof.
  unfold validate.
  repeat first
    [ apply prints_only_ret | apply prints_only_get | apply prints_only_frame_or
    | apply prints_only_truediv | apply prints_only_print
    | match goal with |- prints_only (if ?b then _ else _) => destruct b end
    | match goal with |- prints_only (match ?o with Some _ => _ | None => _ end) =>
        destruct o end
    | match goal with |- prints_only (match ?l with [] => _ | _ :: _ => _ end) =>
        destruct l end
    | apply prints_only_bind; [| intros ?] ].
Qed.

(** X9. Whatever the clean table is and also when it raises, [validate]
    leaves the world as it found it, the lines it printed apart. *)
Theorem validate_only_prints (w : world) :
  exists out, snd (validate w) = with_stdout (stdout w ++ out) w.
Proof. apply validate_prints_only. Qed.

Lemma clean_table_Some (w : world) (df : table) :
  clean_table w = Some df -> exists r, clean_df w = Some r /\ heap w !! r = Some df.
Proof. unfold clean_table. destruct (clean_df w) as [r|]; [|done]. simpl. eauto. Qed.

Lemma validate_raises (w : world) (r : nat) (df : table) :
  clean_df w = Some r -> heap w !! r = Some df ->
  nrows df = 0%nat -> columns_containing "id" df <> [] ->
  fst (validate w) = Raise ZeroDivisionError.
Proof.
  intros Hfield Hdf Hrows Hids. unfold validate.
  erewrite bind_ok; [|reflexivity].
  erewrite bind_ok; [|rewrite Hfield; by apply frame_or_eq].
  destruct (columns_containing "id" df) as [|id_col rest] eqn:Hcols; [done|].
  assert (is_Some (getitem df id_col)) as [s Hs].
  { apply getitem_columns.
    assert (id_col ∈ columns_containing "id" df) as Hin
      by (rewrite Hcols; apply elem_of_cons; by left).
    by apply elem_of_columns_containing in Hin as [? _]. }
  rewrite Hs, Hrows.
  erewrite bind_raise; [reflexivity|].
  erewrite bind_raise; [reflexivity|].
  unfold truediv. by destruct (decide (Qc_of_nat 0 = 0%Qc)).
Qed.

(** X10. [validate] on a clean table returns normally exactly when the table
    has a row or has no identifier-like column; in the one remaining case,
    an empty table with an identifier-like column, it raises
    [ZeroDivisionError]. *)
Theorem validate_outcome (w : world) (df : table) :
  clean_table w = Some df ->
  (fst (validate w) = Ok tt
   <-> nrows df <> 0%nat \/ columns_containing "id" df = [])
  /\ (fst (validate w) = Raise ZeroDivisionError
      <-> nrows df = 0%nat /\ columns_containing "id" df <> []).
Proof.
  intros (r & Hfield & Hdf)%clean_table_Some.
  destruct (decide (nrows df = 0%nat)) as [Hz|Hnz].
  - destruct (columns_containing "id" df) as [|c rest] eqn:Hids.
    + assert (fst (validate w) = Ok tt) as ->
        by (apply (validate_returns w r df); [done..|right; done]).
      split; split; try done; [by right | by intros [_ ?]].
    + assert (fst (validate w) = Raise ZeroDivisionError) as ->
        by (apply (validate_raises w r df); [done..|by rewrite Hids]).
      split; split; try done. by intros [?|?].
  - assert (fst (validate w) = Ok tt) as ->
      by (apply (validate_returns w r df); [done..|by left]).
    split; split; try done; [by left | by intros [? _]].
Qed.

(** ** [extract] and [load_to_csv] step by step *)

Section Files.

Context (read_csv : string -> option table) (to_csv : table -> string).

Lemma extract_run (w : world) (content : string) (t : table) :
  files w !! RAW_DATASET = Some content -> read_csv content = Some t ->
  extract read_csv w
  = (Ok tt, with_raw_df (fresh (dom (heap w)))
              (with_heap (<[fresh (dom (heap w)) := t]> (heap w)) w)).
Proof. intros Hfile Hread. unfold extract. unfold_m. by rewrite Hfile, Hread. Qed.

(** X1. With a file at the raw path, [extract] either fails with the error
    of [pd.read_csv], leaving [self.raw_df] and every object as they were,
    or returns with [self.raw_df] referring to a new object that holds the
    table read.  In both cases every object that existed before holds what
    it held, and [self.clean_df], the files and the server are as before. *)
Theorem extract_loads_source (w : world) (content : string) :
  files w !! RAW_DATASET = Some content ->
  keeps_objects w (snd (extract read_csv w))
  /\ clean_df (snd (extract read_csv w)) = clean_df w
  /\ files (snd (extract read_csv w)) = files w
  /\ pg (snd (extract read_csv w)) = pg w
  /\ match read_csv content with
     | None =>
         fst (extract read_csv w) = Raise ParserError
         /\ raw_df (snd (extract read_csv w)) = raw_df w
         /\ heap (snd (extract read_csv w)) = heap w
     | Some t =>
         fst (extract read_csv w) = Ok tt
         /\ raw_table (snd (extract read_csv w)) = Some t
         /\ exists r, raw_df (snd (extract read_csv w)) = Some r /\ heap w !! r = None
     end.
Proof.
  intros Hfile. destruct (read_csv content) as [t|] eqn:Hread.
  - rewrite (extract_run w content t Hfile Hread). simpl.
    split; [|repeat split].
    + intros r t' Hr. simpl. rewrite lookup_insert_ne; [done|].
      intros <-. by rewrite fresh_ref_free in Hr.
    + unfold raw_table. simpl. by rewrite lookup_insert_eq.
    + eexists. split; [done|]. apply fresh_ref_free.
  - assert (extract read_csv w = (Raise ParserError, w)) as ->
      by (unfold extract; unfold_m; by rewrite Hfile, Hread).
    simpl. split; [by intros r t Hr|]. by repeat split.
Qed.

Lemma load_to_csv_run (w : world) (r : nat) (df : table) :
  clean_df w = Some r -> heap w !! r = Some df ->
  load_to_csv to_csv w
  = match disk w with
    | Writable =>
        (Ok tt, with_stdout (stdout w ++ [MsgCsvSaved (nrows df)])
                  (with_files (<[PROCESSED_DATASET := to_csv df]> (files w)) w))
    | Refusing => (Raise OSError, w)
    | FailingAfter n =>
        (Raise OSError,
         with_files (<[PROCESSED_DATASET := substring 0 n (to_csv df)]> (files w)) w)
    end.
Proof.
  intros Hfield Hdf. unfold load_to_csv.
  erewrite bind_ok; [|reflexivity].
  erewrite bind_ok; [|rewrite Hfield; by apply frame_eq].
  by destruct (disk w).
Qed.

(** X12. [load_to_csv] writes at the processed path only: every other file
    and every object is as before, always.  With a clean table, on a disk
    that takes the write it succeeds and the processed file holds the
    serialized clean table, whatever it held before; on a disk that refuses
    to open the file it raises [OSError] and no file has changed; on a disk
    that fails after [n] characters it raises [OSError] and the processed
    file is left holding those [n] characters, a truncated table.  Without
    a clean table, on a disk that takes writes, it raises [AttributeError]
    and no file has changed. *)
Theorem load_to_csv_writes_one_file (w : world) :
  (forall path, path <> PROCESSED_DATASET ->
                files (snd (load_to_csv to_csv w)) !! path = files w !! path)
  /\ heap (snd (load_to_csv to_csv w)) = heap w
  /\ (forall df, clean_table w = Some df ->
       match disk w with
       | Writable =>
           fst (load_to_csv to_csv w) = Ok tt
           /\ files (snd (load_to_csv to_csv w)) !! PROCESSED_DATASET = Some (to_csv df)
       | Refusing =>
           fst (load_to_csv to_csv w) = Raise OSError
           /\ files (snd (load_to_csv to_csv w)) = files w
       | FailingAfter n =>
           fst (load_to_csv to_csv w) = Raise OSError
           /\ files (snd (load_to_csv to_csv w)) !! PROCESSED_DATASET
              = Some (substring 0 n (to_csv df))
       end)
  /\ (clean_table w = None -> disk w = Writable ->
      fst (load_to_csv to_csv w) = Raise AttributeError
      /\ files (snd (load_to_csv to_csv w)) = files w).
Proof.
  destruct (clean_table w) as [df|] eqn:Hclean.
  - apply clean_table_Some in Hclean as (r & Hfield & Hdf).
    rewrite (load_to_csv_run w r df) by done.
    destruct (disk w) as [| |n]; simpl.
    + split; [intros path Hne; by rewrite lookup_insert_ne|].
      split; [done|]. split; [|done].
      intros df' [= <-]. split; [done|]. by rewrite lookup_insert_eq.
    + split; [done|]. split; [done|]. split; [|done]. by intros df' _.
    + split; [intros path Hne; by rewrite lookup_insert_ne|].
      split; [done|]. split; [|done].
      intros df' [= <-]. split; [done|]. by rewrite lookup_insert_eq.
  - assert (load_to_csv to_csv w = (Raise AttributeError, w)) as ->.
    { unfold load_to_csv. erewrite bind_ok; [|reflexivity].
      erewrite bind_raise; [reflexivity|].
      apply frame_or_none. exact Hclean. }
    simpl. split; [done|]. split; [done|]. split; [done|]. by intros _ _.
Qed.

End Files.

Lemma extract_loads_source_witness :
  raw_table (snd (extract read_sample flaky_server_world)) = Some sample_orders.
Proof.
  refine (proj1 (proj2 (proj2 (proj2 (proj2 (proj2
    (extract_loads_source read_sample flaky_server_world
       "order_id,order_date,status,cost" _))))))).
  reflexivity.
Defined.

Lemma validate_outcome_witness :
  fst (validate loaded_world) = Ok tt
  <-> nrows undated_orders <> 0%nat \/ columns_containing "id" undated_orders = [].
Proof.
  refine (proj1 (validate_outcome loaded_world undated_orders _)).
  reflexivity.
Defined.

Lemma load_to_csv_writes_one_file_witness :
  fst (load_to_csv write_header failing_disk_world) = Raise OSError
  /\ files (snd (load_to_csv write_header failing_disk_world)) !! PROCESSED_DATASET
     = Some (substring 0 9 (write_header undated_orders)).
Proof.
  refine (proj1 (proj2 (proj2 (load_to_csv_writes_one_file write_header failing_disk_world)))
            undated_orders _).
  reflexivity.
Defined.

(** A write that fails after nine characters leaves a file that is neither
    the old one nor the new one. *)
Example load_to_csv_leaves_partial_file :
  files failing_disk_world !! PROCESSED_DATASET = Some "old"
  /\ files (snd (load_to_csv write_header failing_disk_world)) !! PROCESSED_DATASET
     = Some "order_id,"
  /\ write_header undated_orders = "order_id,order_date,".
Proof. repeat split; reflexivity. Qed.

(** ** [transform] as a whole *)

Section TransformRun.

Context (parse_datetime : series -> cell -> option Z) (mixed_offsets : series -> bool)
        (repr : dtype -> cell -> string) (float_mean : Qc -> Qc -> number).

(** X2. [transform] makes new objects and changes no other: every
    DataFrame object that existed before holds the table it held, and
    [self.raw_df], the files and the server are as before, whether it
    returns or raises.  Without a raw table it raises [AttributeError] and
    has made no object.  With a raw table as [pd.read_csv] makes them
    (distinct labels, columns of one length) it returns exactly when [.dt] is
    available on the first date-like column, and [self.clean_df] then
    holds [transform_table] of the raw table; otherwise it raises
    [AttributeError] at line 91 and [self.clean_df] is as before. *)
Theorem transform_allocates_only (w : world) :
  keeps_objects w (snd (transform parse_datetime mixed_offsets repr float_mean w))
  /\ raw_df (snd (transform parse_datetime mixed_offsets repr float_mean w)) = raw_df w
  /\ files (snd (transform parse_datetime mixed_offsets repr float_mean w)) = files w
  /\ pg (snd (transform parse_datetime mixed_offsets repr float_mean w)) = pg w
  /\ (raw_table w = None ->
      fst (transform parse_datetime mixed_offsets repr float_mean w) = Raise AttributeError
      /\ heap (snd (transform parse_datetime mixed_offsets repr float_mean w)) = heap w
      /\ clean_df (snd (transform parse_datetime mixed_offsets repr float_mean w))
         = clean_df w)
  /\ (forall raw, raw_table w = Some raw -> wf_table raw ->
      if dt_available parse_datetime mixed_offsets float_mean raw
      then fst (transform parse_datetime mixed_offsets repr float_mean w) = Ok tt
           /\ clean_table (snd (transform parse_datetime mixed_offsets repr float_mean w))
              = Some (transform_table parse_datetime mixed_offsets repr float_mean raw)
      else fst (transform parse_datetime mixed_offsets repr float_mean w)
           = Raise AttributeError
           /\ clean_df (snd (transform parse_datetime mixed_offsets repr float_mean w))
              = clean_df w).
Proof.
  destruct (raw_table w) as [raw|] eqn:Htable.
  - unfold raw_table in Htable. destruct (raw_df w) as [r|] eqn:Hfield; [|done].
    simpl in Htable.
    destruct (transform_run parse_datetime mixed_offsets repr float_mean w r raw Hfield Htable)
      as (w1 & df & t & Hs & Hrun).
    destruct Hs as (Hsame & Hkeep & _ & Hdf).
    destruct Hsame as (Hr & Hc & Hf & Hd & Hq & Hp & Hpg & Hout).
    destruct (dt_available parse_datetime mixed_offsets float_mean raw) eqn:Hready.
    + destruct Hrun as [-> ->]. simpl.
      split; [done|]. split; [by rewrite Hr|]. split; [done|]. split; [done|].
      split; [done|]. intros raw' [= <-] _. rewrite Hready. split; [done|].
      unfold clean_table. simpl. exact Hdf.
    + rewrite Hrun. simpl.
      split; [done|]. split; [by rewrite Hr|]. split; [done|]. split; [done|].
      split; [done|]. intros raw' [= <-] _. by rewrite Hready.
  - assert (transform parse_datetime mixed_offsets repr float_mean w
            = (Raise AttributeError, w)) as ->.
    { unfold transform. erewrite bind_ok; [|reflexivity].
      erewrite bind_raise; [reflexivity|].
      apply frame_or_none. exact Htable. }
    simpl. split; [by intros r t Hr|]. by repeat split.
Qed.

End TransformRun.

Lemma transform_allocates_only_witness :
  fst (transform Iso.parse_datetime Iso.mixed_offsets Iso.repr Iso.float_mean
         (world_of (Some zoned_orders) (Some undated_orders) never_fails))
  = Raise AttributeError
  /\ clean_df (snd (transform Iso.parse_datetime Iso.mixed_offsets Iso.repr Iso.float_mean
                      (world_of (Some zoned_orders) (Some undated_orders) never_fails)))
     = clean_df (world_of (Some zoned_orders) (Some undated_orders) never_fails).
Proof.
  refine (proj2 (proj2 (proj2 (proj2 (proj2
    (transform_allocates_only Iso.parse_datetime Iso.mixed_offsets Iso.repr Iso.float_mean
       (world_of (Some zoned_orders) (Some undated_orders) never_fails))))))
    zoned_orders _ _).
  - reflexivity.
  - apply (bool_decide_unpack _). vm_compute. exact I.
Defined.

(** ** A whole run *)

Section WholeRun.

Context (parse_datetime : series -> cell -> option Z) (mixed_offsets : series -> bool)
        (repr : dtype -> cell -> string) (float_mean : Qc -> Qc -> number)
        (read_csv : string -> option table)
        (to_csv : table -> string).

Lemma core_stages_run (w : world) (content : string) (raw : table) :
  files w !! RAW_DATASET = Some content -> read_csv content = Some raw ->
  disk w = Writable ->
  dt_available parse_datetime mixed_offsets float_mean raw = true ->
  nrows (transform_table parse_datetime mixed_offsets repr float_mean raw) <> 0%nat
  \/ columns_containing "id" (transform_table parse_datetime mixed_offsets repr float_mean raw)
      = [] ->
  exists w4,
    core_stages parse_datetime mixed_offsets repr float_mean read_csv to_csv w = (Ok tt, w4)
    /\ files w4
       = <[PROCESSED_DATASET
           := to_csv (transform_table parse_datetime mixed_offsets repr float_mean raw)]> (files w)
    /\ clean_table w4 = Some (transform_table parse_datetime mixed_offsets repr float_mean raw).
Proof.
  intros Hfile Hread Hdisk Hready Hrows. unfold core_stages.
  erewrite bind_ok; [|by eapply extract_run].
  set (w1 := with_raw_df _ _).
  destruct (transform_run parse_datetime mixed_offsets repr float_mean w1
              (fresh (dom (heap w))) raw)
    as (w2 & df & t & Hs & Hrun2).
  { reflexivity. }
  { subst w1. simpl. by rewrite lookup_insert_eq. }
  rewrite Hready in Hrun2. destruct Hrun2 as [-> Hrun2].
  destruct Hs as (Hsame & _ & _ & Hdf).
  destruct Hsame as (_ & _ & Hf & Hd & _).
  erewrite bind_ok; [|exact Hrun2].
  set (w3 := with_clean_df df _).
  pose proof (validate_returns w3 df _ eq_refl Hdf Hrows) as Hok.
  destruct (validate_prints_only w3) as [out Hout].
  assert (Hrun3 : validate w3 = (Ok tt, with_stdout (stdout w3 ++ out) w3)).
  { destruct (validate w3) as [res w3'] eqn:E. simpl in *. by subst. }
  erewrite bind_ok; [|exact Hrun3].
  erewrite (load_to_csv_run to_csv _ df); [|done|exact Hdf].
  simpl. rewrite Hd. subst w1. simpl. rewrite Hdisk.
  eexists. split; [reflexivity|]. simpl. rewrite Hf. split; [done|].
  unfold clean_table. simpl. exact Hdf.
Qed.

(** X16. With a raw file that [pd.read_csv] reads as [raw] (a table with
    distinct labels and columns of one length), a disk that takes the write,
    a first date-like column on which [.dt] is available
    after conversion, and a clean table that has a row or no
    identifier-like column, a run succeeds, with or without the database
    stage and whatever the server does, and changes the files in one place:
    the processed path holds the serialized [transform_table raw]. *)
Theorem run_writes_clean_table (w : world) (content : string) (raw : table)
    (load_db : bool) :
  files w !! RAW_DATASET = Some content -> read_csv content = Some raw ->
  wf_table raw ->
  disk w = Writable ->
  dt_available parse_datetime mixed_offsets float_mean raw = true ->
  nrows (transform_table parse_datetime mixed_offsets repr float_mean raw) <> 0%nat
  \/ columns_containing "id" (transform_table parse_datetime mixed_offsets repr float_mean raw)
      = [] ->
  fst (run parse_datetime mixed_offsets repr float_mean read_csv to_csv load_db w) = Ok tt
  /\ files (snd (run parse_datetime mixed_offsets repr float_mean read_csv to_csv load_db w))
     = <[PROCESSED_DATASET
         := to_csv (transform_table parse_datetime mixed_offsets repr float_mean raw)]> (files w).
Proof.
  intros Hfile Hread _ Hdisk Hready Hrows.
  destruct (core_stages_run w content raw Hfile Hread Hdisk Hready Hrows)
    as (w4 & Hcore & Hfiles & _).
  unfold run. erewrite bind_ok; [|exact Hcore].
  destruct load_db.
  - pose proof (load_to_database_returns w4) as Hret.
    pose proof (store_safe_load_to_database w4) as (_ & _ & _ & Hsame).
    destruct (load_to_database w4) as [[[]|e] w5] eqn:Hdb; [simpl in *|done].
    erewrite bind_ok; [|exact Hdb]. unfold_m. simpl. by rewrite Hsame.
  - unfold_m. simpl. done.
Qed.

(** X15. The database driver is called by no run without the database
    stage and by no run in which one of the four core stages raises: such
    a run stops with the error of that stage, and the server is as
    before. *)
Theorem run_reaches_database_last (w : world) :
  pg (snd (run parse_datetime mixed_offsets repr float_mean read_csv to_csv false w)) = pg w
  /\ (forall e load_db,
        fst (core_stages parse_datetime mixed_offsets repr float_mean read_csv to_csv w)
            = Raise e ->
        fst (run parse_datetime mixed_offsets repr float_mean read_csv to_csv load_db w) = Raise e
        /\ pg (snd (run parse_datetime mixed_offsets repr float_mean read_csv to_csv load_db w))
            = pg w
        /\ stdout (snd (run parse_datetime mixed_offsets repr float_mean read_csv to_csv load_db w))
           = stdout (snd (core_stages parse_datetime mixed_offsets repr float_mean read_csv
               to_csv w))).
Proof.
  pose proof (core_stages_preserve_pg parse_datetime mixed_offsets repr float_mean read_csv to_csv
      w) as Hpg.
  split.
  - unfold run.
    destruct (core_stages parse_datetime mixed_offsets repr float_mean read_csv to_csv w)
        as [[[]|e] w1] eqn:Hcore.
    + erewrite bind_ok; [|exact Hcore]. unfold_m. simpl in *. done.
    + erewrite bind_raise; [|exact Hcore]. done.
  - intros e load_db Hraise. unfold run.
    destruct (core_stages parse_datetime mixed_offsets repr float_mean read_csv to_csv w)
        as [[[]|e'] w1] eqn:Hcore;
      [done|].
    erewrite bind_raise; [|exact Hcore]. simpl in *. by injection Hraise as ->.
Qed.

(** X17. A run with the database stage on a machine without SQLAlchemy,
    whose core stages succeed, reports after the file sink, in this order:
    the database load was skipped, the ETL is complete, the data was loaded
    to PostgreSQL.  The last line is printed because [load_db] is true, not
    because anything was loaded; nothing but the output changes after the
    file sink. *)
Theorem run_reports_loaded_when_skipped (w : world) :
  sqlalchemy_available w = false ->
  fst (core_stages parse_datetime mixed_offsets repr float_mean read_csv to_csv w) = Ok tt ->
  run parse_datetime mixed_offsets repr float_mean read_csv to_csv true w
  = (Ok tt,
     with_stdout
       (stdout (snd (core_stages parse_datetime mixed_offsets repr float_mean read_csv to_csv w))
        ++ [MsgDbSkipped; MsgEtlComplete; MsgDbLoaded])
       (snd (core_stages parse_datetime mixed_offsets repr float_mean read_csv to_csv w))).
Proof.
  intros Hflag Hcore.
  assert (Hflag1 : sqlalchemy_available
      (snd (core_stages parse_datetime mixed_offsets repr float_mean read_csv to_csv w))
                   = false).
  { rewrite <- Hflag.
    assert (preserves sqlalchemy_available
              (core_stages parse_datetime mixed_offsets repr float_mean read_csv to_csv))
                  as Hp; [|apply Hp].
    unfold core_stages, extract, transform, validate, load_to_csv,
      print, set_raw_df, set_clean_df, set_files.
    preserves_steps. }
  unfold run.
  destruct (core_stages parse_datetime mixed_offsets repr float_mean read_csv to_csv w)
      as [[[]|e] w1] eqn:Hw1;
    [simpl in *|done].
  erewrite bind_ok; [|exact Hw1].
  erewrite bind_ok; [|by apply load_to_database_skips].
  unfold_m. simpl. unfold with_stdout. simpl. by rewrite <- !app_assoc.
Qed.

End WholeRun.

Lemma run_writes_clean_table_witness :
  fst (run Iso.parse_datetime Iso.mixed_offsets Iso.repr Iso.float_mean read_sample write_header
      true flaky_server_world)
  = Ok tt
  /\ files (snd (run Iso.parse_datetime Iso.mixed_offsets Iso.repr Iso.float_mean read_sample
      write_header true
                   flaky_server_world))
     = <[PROCESSED_DATASET :=
           write_header (transform_table Iso.parse_datetime Iso.mixed_offsets Iso.repr
               Iso.float_mean sample_orders)]>
         (files flaky_server_world).
Proof.
  apply (run_writes_clean_table Iso.parse_datetime Iso.mixed_offsets Iso.repr Iso.float_mean
      read_sample write_header
           flaky_server_world "order_id,order_date,status,cost" sample_orders true).
  - reflexivity.
  - reflexivity.
  - apply (bool_decide_unpack _). vm_compute. exact I.
  - reflexivity.
  - reflexivity.
  - left. vm_compute. lia.
Defined.

(** The hypothesis on [.dt] is needed: on orders whose dates carry
    different UTC offsets the run fails at line 91 and writes nothing. *)
Example run_fails_on_mixed_offsets :
  let w := with_files {[ RAW_DATASET := "order_id,order_date" ]}
             (world_of None None never_fails) in
  fst (run Iso.parse_datetime Iso.mixed_offsets Iso.repr Iso.float_mean
         (fun _ => Some zoned_orders) write_header true w) = Raise AttributeError
  /\ files (snd (run Iso.parse_datetime Iso.mixed_offsets Iso.repr Iso.float_mean
                   (fun _ => Some zoned_orders) write_header true w)) = files w.
Proof. vm_compute. by split. Qed.

Lemma run_reaches_database_last_witness :
  fst (run Iso.parse_datetime Iso.mixed_offsets Iso.repr Iso.float_mean read_sample write_header
      true absent_source_world)
  = Raise FileNotFoundError.
Proof.
  refine (proj1 (proj2
      (run_reaches_database_last Iso.parse_datetime Iso.mixed_offsets Iso.repr Iso.float_mean
                          read_sample write_header absent_source_world)
                   FileNotFoundError true _)).
  reflexivity.
Defined.

Lemma run_reports_loaded_when_skipped_witness :
  stdout (snd (run Iso.parse_datetime Iso.mixed_offsets Iso.repr Iso.float_mean read_sample
      write_header true
                 (with_files (files flaky_server_world) no_driver_world)))
  = stdout (snd (core_stages Iso.parse_datetime Iso.mixed_offsets Iso.repr Iso.float_mean
      read_sample write_header
                   (with_files (files flaky_server_world) no_driver_world)))
    ++ [MsgDbSkipped; MsgEtlComplete; MsgDbLoaded].
Proof.
  rewrite (run_reports_loaded_when_skipped Iso.parse_datetime Iso.mixed_offsets Iso.repr
      Iso.float_mean read_sample
             write_header (with_files (files flaky_server_world) no_driver_world)).
  - reflexivity.
  - reflexivity.
  - vm_compute. reflexivity.
Defined.

(** ** The database stage on a server that answers *)

Lemma driver_call_answers (effect : database -> database) (n conns : nat)
    (rs : option (list (list cell))) (w : world) :
  faults (pg w) n = false ->
  faults (effect (Database (faults (pg w)) n conns rs)) = faults (pg w) ->
  driver_call effect (with_server n conns rs w)
  = (Ok tt,
     with_server (S n)
       (open_connections (effect (Database (faults (pg w)) n conns rs)))
       (deliveries (effect (Database (faults (pg w)) n conns rs))) w).
Proof.
  intros Hok Hfaults. unfold driver_call. erewrite bind_ok; [|reflexivity].
  simpl. rewrite Hok. unfold with_server, set_pg, modify, with_pg. simpl.
  by rewrite Hfaults.
Qed.

Lemma driver_call_fails (effect : database -> database) (w : world) :
  faults (pg w) (calls (pg w)) = true ->
  driver_call effect w
  = (Raise DatabaseError,
     with_server (S (calls (pg w))) (open_connections (pg w)) (deliveries (pg w)) w).
Proof.
  intros Hfault. unfold driver_call. erewrite bind_ok; [|reflexivity].
  simpl. rewrite Hfault. reflexivity.
Qed.

Lemma with_server_here (w : world) :
  with_server (calls (pg w)) (open_connections (pg w)) (deliveries (pg w)) w = w.
Proof. by destruct w as [? ? ? ? ? ? ? [] ?]. Qed.

Lemma insert_rows_answers (l acc : list (list cell)) (n conns : nat) (w : world) :
  (forall k, faults (pg w) k = false) ->
  for_each l (fun row => driver_call (db_insert row)) (with_server n conns (Some acc) w)
  = (Ok tt, with_server (n + length l) conns (Some (acc ++ l)) w).
Proof.
  intros Hok. revert acc n. induction l as [|row l IH]; intros acc n; simpl.
  - by rewrite Nat.add_0_r, app_nil_r.
  - erewrite bind_ok; [|by apply driver_call_answers].
    simpl. rewrite IH. by rewrite <- app_assoc, Nat.add_succ_r.
Qed.

Lemma database_load_answers (w : world) (r : nat) (df : table) :
  psycopg2_installed w = true -> (forall k, faults (pg w) k = false) ->
  clean_df w = Some r -> heap w !! r = Some df ->
  database_load w
  = (Ok tt,
     with_server (calls (pg w) + 11 + length (rows df)) (open_connections (pg w))
       (Some (rows df))
       (with_stdout (stdout w ++ [MsgDbVerified (length (rows df))]) w)).
Proof.
  intros Hdriver Hok Hfield Hdf. unfold database_load.
  erewrite bind_ok; [|reflexivity]. rewrite Hdriver.
  erewrite bind_ok; [|reflexivity].
  rewrite <- (with_server_here w) at 1.
  erewrite bind_ok; [|by apply driver_call_answers].
  erewrite bind_ok; [|by apply driver_call_answers].
  erewrite bind_ok; [|by apply driver_call_answers].
  erewrite bind_ok; [|by apply driver_call_answers].
  erewrite bind_ok; [|by apply driver_call_answers].
  erewrite bind_ok; [|by apply driver_call_answers].
  simpl.
  erewrite bind_ok; [|rewrite Hfield; by apply frame_or_eq].
  erewrite bind_ok; [|by apply insert_rows_answers].
  erewrite bind_ok; [|by apply driver_call_answers].
  erewrite bind_ok; [|by apply driver_call_answers].
  erewrite bind_ok; [|by apply driver_call_answers].
  erewrite bind_ok; [|reflexivity].
  simpl.
  erewrite bind_ok; [|reflexivity].
  erewrite bind_ok; [|reflexivity].
  erewrite bind_ok;
    [|apply (driver_call_answers id _ _ _
               (with_stdout (stdout w ++ [MsgDbVerified (length (rows df))]) w));
      [apply Hok | reflexivity]].
  erewrite (driver_call_answers db_close _ _ _
              (with_stdout (stdout w ++ [MsgDbVerified (length (rows df))]) w));
    [|apply Hok | reflexivity].
  simpl. do 2 f_equal. lia.
Qed.

(** X13. With SQLAlchemy and psycopg2 present, a server on which no call
    fails and a clean table, [load_to_database] returns with the table
    [deliveries] holding exactly the rows of the clean table, in row order,
    whatever it held before; the count it reports as verified is the number
    of rows, and it reports no failure; its connection is closed again, so
    that as many connections are open as before; and it has made eleven
    calls to the driver (connect, cursor, DROP and commit, CREATE and
    commit, commit, SELECT, fetch, and the two closes) plus one for each
    row. *)
Theorem load_to_database_replaces_table (w : world) (df : table) :
  sqlalchemy_available w = true -> psycopg2_installed w = true ->
  (forall k, faults (pg w) k = false) ->
  clean_table w = Some df ->
  load_to_database w
  = (Ok tt,
     with_server (calls (pg w) + 11 + length (rows df)) (open_connections (pg w))
       (Some (rows df))
       (with_stdout (stdout w ++ [MsgDbVerified (length (rows df))]) w)).
Proof.
  intros Hflag Hdriver Hok (r & Hfield & Hdf)%clean_table_Some.
  unfold load_to_database. erewrite bind_ok; [|reflexivity]. rewrite Hflag. simpl.
  unfold try_except. by rewrite (database_load_answers w r df).
Qed.

(** X14. When the database stage fails before a connection exists, the
    server keeps what it had.  Without psycopg2 the stage reports the import
    error and has not called the driver at all (it does not report being
    skipped); when the call to connect fails, the stage reports the
    database error, no connection has been opened and the table
    [deliveries] is untouched.  In both cases the stage returns normally. *)
Theorem load_to_database_fails_early (w : world) :
  sqlalchemy_available w = true ->
  (psycopg2_installed w = false ->
   load_to_database w = (Ok tt, with_stdout (stdout w ++ [MsgDbFailed ImportError]) w))
  /\ (psycopg2_installed w = true -> faults (pg w) (calls (pg w)) = true ->
      load_to_database w
      = (Ok tt,
         with_stdout (stdout w ++ [MsgDbFailed DatabaseError])
           (with_server (S (calls (pg w))) (open_connections (pg w)) (deliveries (pg w)) w))).
Proof.
  intros Hflag. split.
  - intros Hdriver. unfold load_to_database. erewrite bind_ok; [|reflexivity].
    rewrite Hflag. simpl. unfold try_except, database_load.
    erewrite bind_ok; [|reflexivity]. rewrite Hdriver.
    erewrite bind_raise; [|reflexivity]. reflexivity.
  - intros Hdriver Hfault. unfold load_to_database. erewrite bind_ok; [|reflexivity].
    rewrite Hflag. simpl. unfold try_except, database_load.
    erewrite bind_ok; [|reflexivity]. rewrite Hdriver.
    erewrite bind_ok; [|reflexivity].
    erewrite bind_raise; [|by apply driver_call_fails]. reflexivity.
Qed.

Lemma load_to_database_replaces_table_witness :
  deliveries (pg (snd (load_to_database loaded_world))) = Some (rows undated_orders)
  /\ calls (pg (snd (load_to_database loaded_world))) = 13%nat.
Proof.
  rewrite (load_to_database_replaces_table loaded_world undated_orders).
  - split; reflexivity.
  - reflexivity.
  - reflexivity.
  - intros k. reflexivity.
  - reflexivity.
Defined.

Lemma load_to_database_fails_early_witness :
  fst (load_to_database (with_pg (Database (fun _ => true) 0 0 None) sample_world)) = Ok tt
  /\ stdout (snd (load_to_database
                    (with_pg (Database (fun _ => true) 0 0 None) sample_world)))
     = [MsgDbFailed DatabaseError]
  /\ open_connections
       (pg (snd (load_to_database
                   (with_pg (Database (fun _ => true) 0 0 None) sample_world)))) = 0%nat.
Proof.
  destruct (load_to_database_fails_early
              (with_pg (Database (fun _ => true) 0 0 None) sample_world)) as [_ H].
  - reflexivity.
  - rewrite H.
    + split; [reflexivity|]. split; reflexivity.
    + reflexivity.
    + reflexivity.
Defined.

(** ** The database stage on a server that fails somewhere *)

Lemma first_fault_app (faulty : nat -> bool) (start n1 n2 : nat) :
  first_fault faulty start (n1 + n2)
  = match first_fault faulty start n1 with
    | Some k => Some k
    | None => (fun k => (n1 + k)%nat) <$> first_fault faulty (start + n1) n2
    end.
Proof.
  revert start. induction n1 as [|n1 IH]; intros start; simpl.
  - rewrite Nat.add_0_r. by destruct (first_fault faulty start n2).
  - destruct (faulty start); [done|]. rewrite IH.
    replace (S start + n1)%nat with (start + S n1)%nat by lia.
    destruct (first_fault faulty (S start) n1); [done|]. simpl.
    by destruct (first_fault faulty (start + S n1) n2).
Qed.

Lemma first_fault_None (faulty : nat -> bool) (start n k : nat) :
  first_fault faulty start n = None -> (k < n)%nat -> faulty (start + k)%nat = false.
Proof.
  revert start k. induction n as [|n IH]; intros start k; simpl; [lia|].
  destruct (faulty start) eqn:E; [done|].
  destruct (first_fault faulty (S start) n) eqn:E'; [done|]. intros _ Hk.
  destruct k as [|k]; [by rewrite Nat.add_0_r|].
  replace (start + S k)%nat with (S start + k)%nat by lia. apply IH; [done|lia].
Qed.

Section DriverSequences.

Context (I : world -> Prop).

Hypothesis I_pg : forall d w, I w -> I (with_pg d w).
Hypothesis I_stdout : forall l w, I w -> I (with_stdout l w).

Lemma driver_sequence_ret {A} (a : A) : driver_sequence I 0 (mret a).
Proof using Type.
  intros w Hw. simpl. right. exists a, w. by rewrite Nat.add_0_r.
Qed.

Lemma driver_sequence_raise {A} (n : nat) : driver_sequence I n (@raise A DatabaseError).
Proof using Type.
  intros w Hw. destruct (first_fault _ _ _); [|left]; by exists w.
Qed.

Lemma driver_sequence_print (msg : message) : driver_sequence I 0 (print msg).
Proof using I_stdout.
  intros w Hw. simpl. right. do 2 eexists. split; [reflexivity|].
  split; [by apply I_stdout|]. simpl. by rewrite Nat.add_0_r.
Qed.

Lemma driver_sequence_call (effect : database -> database) :
  (forall d, faults (effect d) = faults d) -> driver_sequence I 1 (driver_call effect).
Proof using I_pg.
  intros Heffect w Hw. simpl. destruct (faults (pg w) (calls (pg w))) eqn:E.
  - eexists. by apply driver_call_fails.
  - right. exists tt. eexists. split.
    + unfold driver_call. erewrite bind_ok; [|reflexivity]. simpl. rewrite E. reflexivity.
    + split; [by apply I_pg|]. simpl. rewrite Heffect. split; [done|lia].
Qed.

Lemma driver_sequence_bind {A B} (n1 n2 : nat) (m : M A) (f : A -> M B) :
  driver_sequence I n1 m -> (forall a, driver_sequence I n2 (f a)) ->
  driver_sequence I (n1 + n2) (m ≫= f).
Proof using Type.
  intros Hm Hf w Hw. specialize (Hm w Hw). rewrite first_fault_app.
  destruct (first_fault (faults (pg w)) (calls (pg w)) n1) as [k|].
  - destruct Hm as [w' Hm]. exists w'. by erewrite bind_raise.
  - destruct Hm as [[w' Hm]|(a & w' & Hm & Hw' & Hfaults & Hcalls)].
    + assert (exists w'', (m ≫= f) w = (Raise DatabaseError, w'')) as Hraise
        by (exists w'; by erewrite bind_raise).
      destruct (first_fault _ (calls (pg w) + n1) n2); simpl; [done|by left].
    + specialize (Hf a w' Hw'). rewrite Hfaults, Hcalls in Hf.
      erewrite bind_ok; [|exact Hm].
      destruct (first_fault _ (calls (pg w) + n1) n2); simpl; [done|].
      destruct Hf as [?|(b & w'' & ? & ? & ? & Hc)]; [by left|right].
      exists b, w''. split; [done|]. split; [done|]. split; [congruence|lia].
Qed.

Lemma driver_sequence_get {B} (n : nat) (f : world -> M B) :
  (forall a, I a -> driver_sequence I n (f a)) -> driver_sequence I n (get_world ≫= f).
Proof using Type.
  intros Hf w Hw. erewrite bind_ok; [|reflexivity]. by apply Hf.
Qed.

Lemma driver_sequence_for_each {A} (l : list A) (body : A -> M unit) :
  (forall x, driver_sequence I 1 (body x)) -> driver_sequence I (length l) (for_each l body).
Proof using Type.
  intros Hbody. induction l as [|x l IH]; simpl.
  - apply driver_sequence_ret.
  - apply (driver_sequence_bind 1 (length l)); [apply Hbody | intros _; exact IH].
Qed.

Lemma driver_sequence_pure {A B} (n : nat) (m : M A) (a : A) (f : A -> M B) :
  (forall w, I w -> m w = (Ok a, w)) -> driver_sequence I n (f a) ->
  driver_sequence I n (m ≫= f).
Proof using Type.
  intros Hm Hf w Hw. erewrite bind_ok; [|by apply Hm]. by apply Hf.
Qed.

End DriverSequences.

(** [database_load] is a sequence of eleven driver calls and one more for
    each row. *)
Lemma database_load_sequence (r : nat) (df : table) :
  driver_sequence (ready_to_load r df) (11 + length (rows df)) database_load.
Proof.
  set (I := ready_to_load r df).
  assert (I_pg : forall d w, I w -> I (with_pg d w)) by (by intros d w (? & ? & ?)).
  assert (I_stdout : forall l w, I w -> I (with_stdout l w)) by (by intros l w (? & ? & ?)).
  assert (Hcall : forall effect, (forall d, faults (effect d) = faults d) ->
                                 driver_sequence I 1 (driver_call effect))
    by (intros effect; by apply driver_sequence_call).
  assert (Hid : driver_sequence I 1 (driver_call id)) by (by apply Hcall).
  unfold database_load.
  apply (driver_sequence_get I). intros w0 (Hdriver & Hfield & _). rewrite Hdriver.
  apply (driver_sequence_pure I _ _ tt); [done|].
  apply (driver_sequence_bind I 1 (10 + length (rows df))); [by apply Hcall|]. intros _.
  apply (driver_sequence_bind I 1 (9 + length (rows df))); [exact Hid|]. intros _.
  apply (driver_sequence_bind I 1 (8 + length (rows df))); [by apply Hcall|]. intros _.
  apply (driver_sequence_bind I 1 (7 + length (rows df))); [exact Hid|]. intros _.
  apply (driver_sequence_bind I 1 (6 + length (rows df))); [by apply Hcall|]. intros _.
  apply (driver_sequence_bind I 1 (5 + length (rows df))); [exact Hid|]. intros _.
  apply (driver_sequence_pure I _ _ df).
  { intros w (_ & _ & Hw). rewrite Hfield. by apply frame_or_eq. }
  replace (5 + length (rows df))%nat with (length (rows df) + 5)%nat by lia.
  apply (driver_sequence_bind I (length (rows df)) 5).
  { apply driver_sequence_for_each. intros row. by apply Hcall. }
  intros _.
  apply (driver_sequence_bind I 1 4); [exact Hid|]. intros _.
  apply (driver_sequence_bind I 1 3); [exact Hid|]. intros _.
  apply (driver_sequence_bind I 1 2); [exact Hid|]. intros _.
  apply (driver_sequence_get I). intros w1 _.
  destruct (deliveries (pg w1)) as [rs|].
  - apply (driver_sequence_pure I _ _ (length rs)); [done|].
    apply (driver_sequence_bind I 0 2); [by apply driver_sequence_print|]. intros _.
    apply (driver_sequence_bind I 1 1); [exact Hid|]. intros _.
    by apply Hcall.
  - intros w Hw. erewrite bind_raise; [|reflexivity].
    by apply (driver_sequence_raise I 2 w Hw).
Qed.

(** A failure of any of the driver calls of the stage, from the connect to
    the last close, ends [database_load] with [DatabaseError]. *)
Lemma database_load_fault (w : world) (df : table) (k : nat) :
  psycopg2_installed w = true -> clean_table w = Some df ->
  (k < 11 + length (rows df))%nat -> faults (pg w) (calls (pg w) + k) = true ->
  fst (database_load w) = Raise DatabaseError.
Proof.
  intros Hdriver (r & Hfield & Hdf)%clean_table_Some Hk Hfault.
  pose proof (database_load_sequence r df w ltac:(by repeat split)) as H.
  destruct (first_fault (faults (pg w)) (calls (pg w)) (11 + length (rows df))) eqn:E.
  - destruct H as [w' ->]. done.
  - pose proof (first_fault_None _ _ _ k E Hk). congruence.
Qed.

(** What the handler of the [try] does with the outcome of the body. *)
Lemma load_to_database_outcome (w : world) :
  sqlalchemy_available w = true ->
  load_to_database w
  = match fst (database_load w) with
    | Ok _ => (Ok tt, snd (database_load w))
    | Raise e =>
        (Ok tt, with_stdout (stdout (snd (database_load w)) ++ [MsgDbFailed e])
                  (snd (database_load w)))
    end.
Proof.
  intros Hflag. unfold load_to_database. erewrite bind_ok; [|reflexivity].
  rewrite Hflag. simpl. unfold try_except.
  by destruct (database_load w) as [[[]|e] w'].
Qed.

Section RunProperties.

Context (parse_datetime : series -> cell -> option Z) (mixed_offsets : series -> bool)
        (repr : dtype -> cell -> string) (float_mean : Qc -> Qc -> number)
        (read_csv : string -> option table)
        (to_csv : table -> string).

(** C7, as the code has it.  [load_to_database] always returns normally and
    leaves the DataFrames and the files alone.  It is skipped, and says
    so, when SQLAlchemy is missing; when the driver it uses,
    psycopg2, is missing it is not skipped: the import fails inside the
    [try] and is reported as a failure.  Whatever the body of the [try]
    raises is printed by the handler as the last line of the stage, and
    the failure of any driver call, from the connect to the last close,
    is reported as [DatabaseError].  Whenever the four stages up to the
    file sink succeed, the whole run succeeds and reports completion, with
    the files as the file sink left them. *)
Theorem load_to_database_never_fatal (w : world) :
  (fst (load_to_database w) = Ok tt /\ same_store w (snd (load_to_database w)))
  /\ (sqlalchemy_available w = false ->
      load_to_database w = (Ok tt, with_stdout (stdout w ++ [MsgDbSkipped]) w))
  /\ (sqlalchemy_available w = true ->
      forall e, fst (database_load w) = Raise e ->
        load_to_database w
        = (Ok tt, with_stdout (stdout (snd (database_load w)) ++ [MsgDbFailed e])
                    (snd (database_load w))))
  /\ (sqlalchemy_available w = true -> psycopg2_installed w = false ->
      load_to_database w
      = (Ok tt, with_stdout (stdout w ++ [MsgDbFailed ImportError]) w))
  /\ (sqlalchemy_available w = true -> psycopg2_installed w = true ->
      forall df k, clean_table w = Some df ->
        (k < 11 + length (rows df))%nat -> faults (pg w) (calls (pg w) + k) = true ->
        last (stdout (snd (load_to_database w))) = Some (MsgDbFailed DatabaseError))
  /\ (fst (core_stages parse_datetime mixed_offsets repr float_mean read_csv to_csv w) = Ok tt ->
      fst (run parse_datetime mixed_offsets repr float_mean read_csv to_csv true w) = Ok tt
      /\ files (snd (run parse_datetime mixed_offsets repr float_mean read_csv to_csv true w))
         = files (snd (core_stages parse_datetime mixed_offsets repr float_mean read_csv
                         to_csv w))
      /\ MsgEtlComplete
         ∈ stdout (snd (run parse_datetime mixed_offsets repr float_mean read_csv to_csv
                          true w))).
Proof.
  split; [split; [apply load_to_database_returns | apply store_safe_load_to_database]|].
  split; [apply load_to_database_skips|].
  split; [intros Hflag e He; rewrite load_to_database_outcome by done; by rewrite He|].
  split.
  { intros Hflag Hdriver. rewrite load_to_database_outcome by done.
    assert (database_load w = (Raise ImportError, w)) as ->; [|done].
    unfold database_load. erewrite bind_ok; [|reflexivity]. rewrite Hdriver.
    by erewrite bind_raise. }
  split.
  { intros Hflag Hdriver df k Hdf Hk Hfault.
    rewrite load_to_database_outcome by done.
    rewrite (database_load_fault w df k) by done. simpl. apply last_snoc. }
  intros Hcore. unfold run.
  destruct (core_stages parse_datetime mixed_offsets repr float_mean read_csv to_csv w)
    as [[[]|e] w1] eqn:Hw1; [simpl in *|done].
  erewrite bind_ok; [|exact Hw1].
  pose proof (load_to_database_returns w1) as Hret.
  pose proof (store_safe_load_to_database w1) as (_&_&_&Hfiles).
  destruct (load_to_database w1) as [[[]|e] w2] eqn:Hw2; [simpl in *|done].
  erewrite bind_ok; [|exact Hw2].
  unfold_m. simpl. repeat split; [done|].
  apply elem_of_app; left. apply elem_of_app; right. by apply list_elem_of_singleton.
Qed.

End RunProperties.

Lemma load_to_database_never_fatal_witness :
  load_to_database no_driver_world
  = (Ok tt, with_stdout (stdout no_driver_world ++ [MsgDbSkipped]) no_driver_world)
  /\ last (stdout (snd (load_to_database (world_of None (Some sample_orders) drop_fails))))
     = Some (MsgDbFailed DatabaseError)
  /\ fst (run Iso.parse_datetime Iso.mixed_offsets Iso.repr Iso.float_mean read_sample
            write_header true flaky_server_world) = Ok tt.
Proof.
  split; [|split].
  - apply (load_to_database_never_fatal Iso.parse_datetime Iso.mixed_offsets Iso.repr
             Iso.float_mean read_sample write_header no_driver_world).
    reflexivity.
  - refine (proj1 (proj2 (proj2 (proj2 (proj2
      (load_to_database_never_fatal Iso.parse_datetime Iso.mixed_offsets Iso.repr
         Iso.float_mean read_sample write_header
         (world_of None (Some sample_orders) drop_fails))))))
      _ _ sample_orders 2%nat _ _ _).
    + reflexivity.
    + reflexivity.
    + reflexivity.
    + vm_compute. lia.
    + reflexivity.
  - refine (proj1 (proj2 (proj2 (proj2 (proj2 (proj2
      (load_to_database_never_fatal Iso.parse_datetime Iso.mixed_offsets Iso.repr
         Iso.float_mean read_sample write_header flaky_server_world))))) _)).
    vm_compute. reflexivity.
Defined.

(** The claim of C7 fails on a machine that has SQLAlchemy and lacks
    psycopg2, the driver the stage connects with: the stage is not skipped,
    it reports a failure, without a call to the driver. *)
Lemma missing_driver_is_not_skipped :
  sqlalchemy_available no_psycopg2_world = true
  /\ psycopg2_installed no_psycopg2_world = false
  /\ load_to_database no_psycopg2_world
     = (Ok tt, with_stdout [MsgDbFailed ImportError] no_psycopg2_world)
  /\ MsgDbSkipped ∉ stdout (snd (load_to_database no_psycopg2_world)).
Proof.
  split; [done|]. split; [done|]. split; [reflexivity|].
  apply (bool_decide_unpack _). vm_compute. exact I.
Qed.

(** ** The columns of the output *)

Lemma elem_of_missing_from (present names : list string) (n : string) :
  n ∈ missing_from present names <-> n ∈ names /\ n ∉ present.
Proof.
  unfold missing_from. rewrite list_elem_of_In, filter_In, <- list_elem_of_In.
  rewrite negb_true_iff, bool_decide_eq_false. done.
Qed.

Lemma missing_from_app (present l k : list string) :
  missing_from present (l ++ k) = missing_from present l ++ missing_from present k.
Proof. apply List.filter_app. Qed.

Lemma columns_setitem_missing (base l : list string) (df : table) (n : string) (s : series) :
  columns df = base ++ missing_from base l -> n ∉ l ->
  columns (setitem df n s) = base ++ missing_from base (l ++ [n]).
Proof.
  intros Hcols Hn. rewrite columns_setitem, Hcols, <- app_assoc. f_equal.
  rewrite missing_from_app. f_equal.
  change (missing_from base [n]) with (if negb (bool_decide (n ∈ base)) then [n] else []).
  assert (Hiff : n ∈ base ++ missing_from base l <-> n ∈ base).
  { rewrite elem_of_app, elem_of_missing_from. split; [|by left].
    by intros [?|[? _]]. }
  destruct (bool_decide (n ∈ base)) eqn:E1,
    (bool_decide (n ∈ base ++ missing_from base l)) eqn:E2; simpl; try done; exfalso.
  all: first
    [ apply bool_decide_eq_true in E1; apply bool_decide_eq_false in E2; by apply E2, Hiff
    | apply bool_decide_eq_false in E1; apply bool_decide_eq_true in E2; by apply E1, Hiff ].
Qed.

Lemma columns_derive_missing (base l : list string) (df : table) (target source : string)
    (f : series -> series) :
  is_Some (getitem df source) ->
  columns df = base ++ missing_from base l -> target ∉ l ->
  columns (derive df target source f) = base ++ missing_from base (l ++ [target]).
Proof.
  intros [s Hs] Hcols Hn. unfold derive. rewrite Hs. by apply columns_setitem_missing.
Qed.

Lemma columns_time_features (main : string) (rest : list string) (df : table) :
  is_Some (getitem df main) ->
  columns (time_features (main :: rest) df)
  = columns df ++ missing_from (columns df) time_feature_names.
Proof.
  intros Hmain. unfold time_features, time_feature_names.
  assert (H0 : columns df = columns df ++ missing_from (columns df) [])
    by (by rewrite app_nil_r).
  pose proof (columns_derive_missing _ _ _ "order_year" main dt_year Hmain H0
                ltac:(label_in)) as H1.
  pose proof (getitem_derive_is_Some df "order_year" main main dt_year Hmain) as Hm1.
  pose proof (columns_derive_missing _ _ _ "order_month" main dt_month Hm1 H1
                ltac:(label_in)) as H2.
  pose proof (getitem_derive_is_Some _ "order_month" main main dt_month Hm1) as Hm2.
  pose proof (columns_derive_missing _ _ _ "order_day_of_week" main dt_dayofweek Hm2 H2
                ltac:(label_in)) as H3.
  pose proof (getitem_derive_is_Some _ "order_day_of_week" main main dt_dayofweek Hm2) as Hm3.
  exact (columns_derive_missing _ _ _ "order_day_name" main dt_day_name Hm3 H3
           ltac:(label_in)).
Qed.

Section Columns.

Context (parse_datetime : series -> cell -> option Z) (mixed_offsets : series -> bool)
    (repr : dtype -> cell -> string) (float_mean : Qc -> Qc -> number).

Lemma columns_status_flags (base l : list string) (status_col : string)
    (rest : list string) (df : table) :
  is_Some (getitem df status_col) ->
  columns df = base ++ missing_from base l ->
  Forall (fun n => n ∉ l) flag_names ->
  columns (status_flags repr (status_col :: rest) df)
  = base ++ missing_from base (l ++ flag_names).
Proof.
  intros [st Hst] Hcols Hl. unfold status_flags. rewrite Hst.
  rewrite getitem_setitem_ne, getitem_setitem_eq, getitem_setitem_eq by done.
  unfold flag_names in *.
  apply Forall_cons in Hl as [Hd Hl]. apply Forall_cons in Hl as [Hlate Hl].
  apply Forall_cons in Hl as [Hon _].
  pose proof (columns_setitem_missing base l df "is_delivered"
                (flag_series delivered_words (map Text.lower (astype_str repr st)))
                Hcols Hd) as H1.
  assert (Hlate' : "is_late" ∉ l ++ ["is_delivered"]).
  { rewrite elem_of_app, list_elem_of_singleton. by intros [?|?]. }
  pose proof (columns_setitem_missing base _ _ "is_late"
                (flag_series late_words (map Text.lower (astype_str repr st)))
                H1 Hlate') as H2.
  assert (Hon' : "is_on_time" ∉ (l ++ ["is_delivered"]) ++ ["is_late"]).
  { rewrite !elem_of_app, !list_elem_of_singleton. by intros [[?|?]|?]. }
  rewrite (columns_setitem_missing base _ _ "is_on_time" _ H2 Hon').
  by rewrite <- !app_assoc.
Qed.

(** X3. The output has the columns of the raw table, in their order,
    followed by the derived columns the raw table did not have already: the
    four time features when a date-like column exists, then the three flags
    when a status-like column exists, in that order.  A derived column whose
    label the raw table had keeps the place of that label. *)
Theorem transform_columns (raw : table) :
  NoDup (columns raw) ->
  columns (transform_table parse_datetime mixed_offsets repr float_mean raw)
      = columns raw ++ new_columns raw.
Proof.
  intros Hnd.
  assert (HE : columns (enrich parse_datetime mixed_offsets repr float_mean raw)
      = columns raw ++ new_columns raw).
  { rewrite enrich_stages by done. unfold new_columns.
    set (C := map_where date_like _ _).
    assert (HC : columns C = columns raw) by apply columns_refilled.
    assert (HT : columns (time_features (columns_containing "date" raw) C)
                 = columns raw
                   ++ missing_from (columns raw)
                        match columns_containing "date" raw with
                        | [] => []
                        | _ :: _ => time_feature_names
                        end).
    { destruct (columns_containing "date" raw) as [|main rest] eqn:Hdates.
      - simpl. by rewrite app_nil_r.
      - rewrite columns_time_features, HC; [done|].
        apply getitem_columns. rewrite HC.
        assert (main ∈ columns_containing "date" raw) as Hin
          by (rewrite Hdates; apply elem_of_cons; by left).
        by apply elem_of_columns_containing in Hin as [? _]. }
    destruct (columns_containing "status" raw) as [|sc rest] eqn:Hsts.
    - simpl. by rewrite app_nil_r.
    - apply columns_status_flags; [|done|].
      + assert (sc ∈ columns_containing "status" raw) as Hin
          by (rewrite Hsts; apply elem_of_cons; by left).
        apply elem_of_columns_containing in Hin as [Hin _].
        assert (is_Some (getitem C sc)) as Hsc by (apply getitem_columns; by rewrite HC).
        unfold time_features. destruct (columns_containing "date" raw); [done|].
        by repeat apply getitem_derive_is_Some.
      + destruct (columns_containing "date" raw); unfold flag_names, time_feature_names;
          repeat (apply Forall_cons; split; [label_in|]); constructor. }
  unfold transform_table.
  destruct (remove_duplicates_cases (enrich parse_datetime mixed_offsets repr float_mean raw))
      as [-> | ->]; [done|].
  unfold drop_duplicates. by rewrite columns_take_rows.
Qed.

End Columns.

Lemma transform_columns_witness :
  columns (transform_table Iso.parse_datetime Iso.mixed_offsets Iso.repr Iso.float_mean
      sample_orders)
  = columns sample_orders ++ new_columns sample_orders.
Proof.
  apply (transform_columns Iso.parse_datetime Iso.mixed_offsets Iso.repr Iso.float_mean
      sample_orders).
  apply (bool_decide_unpack _). vm_compute. exact I.
Defined.

Example new_columns_of_sample :
  new_columns sample_orders
  = ["order_year"; "order_month"; "order_day_of_week"; "order_day_name";
     "is_delivered"; "is_late"; "is_on_time"].
Proof. reflexivity. Qed.

(** ** The number of rows *)

Lemma length_mask_filter_le {A} (mask : list bool) (l : list A) :
  (length (mask_filter mask l) <= length l)%nat.
Proof.
  revert l. induction mask as [|b mask IH]; intros [|x l]; simpl; try lia.
  destruct b; simpl; specialize (IH l); lia.
Qed.

Lemma shape_take_rows_le (n : nat) (mask : list bool) (df : table) :
  shape n df -> exists k, (k <= n)%nat /\ shape k (take_rows mask df).
Proof.
  intros H. exists (length (mask_filter mask (repeat NA n))).
  split; [|by apply shape_take_rows].
  pose proof (length_mask_filter_le mask (repeat NA n)) as Hle.
  by rewrite repeat_length in Hle.
Qed.

Lemma nrows_shape_le (n : nat) (df : table) : shape n df -> (nrows df <= n)%nat.
Proof. intros H. destruct H as [|[m s] df Hs _]; simpl in *; lia. Qed.

Section RowCount.

Context (parse_datetime : series -> cell -> option Z) (mixed_offsets : series -> bool)
    (repr : dtype -> cell -> string) (float_mean : Qc -> Qc -> number).

Lemma shape_enrich_le (raw : table) :
  rectangular raw ->
  exists n, (n <= nrows raw)%nat
      /\ shape n (enrich parse_datetime mixed_offsets repr float_mean raw).
Proof.
  intros H. unfold enrich.
  assert (exists n, (n <= nrows raw)%nat
                    /\ shape n (drop_id_gaps (columns_containing "id" raw) raw))
    as (n & Hle & Hn).
  { unfold drop_id_gaps. destruct (firstn 1 _); [by exists (nrows raw)|].
    by apply shape_take_rows_le. }
  exists n. split; [done|]. apply shape_status_flags.
  assert (shape n (convert_dates parse_datetime mixed_offsets (columns_containing "date" raw)
                     (fill_missing float_mean
                        (drop_id_gaps (columns_containing "id" raw) raw)))) as Hc.
  { apply shape_derive_loop; [apply length_to_datetime|].
    apply shape_derive_loop; [apply length_fill_series|done]. }
  unfold time_features. destruct (columns_containing "date" raw); [done|].
  repeat (apply shape_derive; [apply length_dt_field|]). done.
Qed.

(** X4. [transform] never adds a row: the clean table has at most as many
    rows as the raw table, and every column of it has that same number of
    cells. *)
Theorem transform_never_adds_rows (raw : table) :
  rectangular raw ->
  (nrows (transform_table parse_datetime mixed_offsets repr float_mean raw) <= nrows raw)%nat
  /\ rectangular (transform_table parse_datetime mixed_offsets repr float_mean raw).
Proof.
  intros H. destruct (shape_enrich_le raw H) as (n & Hle & Hn).
  unfold transform_table.
  destruct (remove_duplicates_cases (enrich parse_datetime mixed_offsets repr float_mean raw))
      as [-> | ->].
  - split; [|by eapply shape_rectangular].
    pose proof (nrows_shape_le _ _ Hn). lia.
  - unfold drop_duplicates.
    destruct (shape_take_rows_le n
        (map negb (duplicated (enrich parse_datetime mixed_offsets repr float_mean raw)))
                _ Hn) as (k & Hk & Hshape).
    split; [|by eapply shape_rectangular].
    pose proof (nrows_shape_le _ _ Hshape). lia.
Qed.

End RowCount.

Lemma transform_never_adds_rows_witness :
  (nrows (transform_table Iso.parse_datetime Iso.mixed_offsets Iso.repr Iso.float_mean
      sample_orders) <= nrows sample_orders)%nat
  /\ rectangular (transform_table Iso.parse_datetime Iso.mixed_offsets Iso.repr Iso.float_mean
      sample_orders).
Proof.
  apply (transform_never_adds_rows Iso.parse_datetime Iso.mixed_offsets Iso.repr Iso.float_mean
      sample_orders).
  apply (bool_decide_unpack _). vm_compute. exact I.
Defined.

(** ** What becomes of a raw column *)

Lemma drop_id_gaps_id_mask (raw : table) :
  rectangular raw ->
  drop_id_gaps (columns_containing "id" raw) raw = take_rows (id_mask raw) raw.
Proof.
  intros H. unfold drop_id_gaps, id_mask.
  destruct (firstn 1 (columns_containing "id" raw)) as [|c cs]; [|done].
  simpl. symmetry. by apply take_rows_all.
Qed.

Lemma holds_datetime (c : cell) :
  holds Datetime c = true -> c = NA \/ exists ns, c = Ts ns.
Proof. destruct c; simpl; try done; eauto. Qed.


Section Columnwise.

Context (parse_datetime : series -> cell -> option Z) (mixed_offsets : series -> bool)
    (repr : dtype -> cell -> string) (float_mean : Qc -> Qc -> number).

(** X5. A raw column that is not date-like and has no derived label
    reaches the output with its present cells untouched: the output column
    is the raw column restricted to the rows with an identifier, filled,
    and restricted to the rows that are no duplicates.  If the raw column
    has no missing entry, the output column is a selection of its rows and
    nothing else. *)
Theorem ordinary_column_passes_through (raw : table) (n : string) (s : series) :
  NoDup (columns raw) -> rectangular raw ->
  getitem raw n = Some s -> date_like n = false -> n ∉ derived_names ->
  getitem (transform_table parse_datetime mixed_offsets repr float_mean raw) n
  = Some (take_series (map negb
      (duplicated (enrich parse_datetime mixed_offsets repr float_mean raw)))
            (fill_series float_mean (take_series (id_mask raw) s)))
  /\ (complete s = true ->
      getitem (transform_table parse_datetime mixed_offsets repr float_mean raw) n
      = Some (take_series (map negb
          (duplicated (enrich parse_datetime mixed_offsets repr float_mean raw)))
                (take_series (id_mask raw) s))).
Proof.
  intros Hnd Hrect Hs Hdate Hnot.
  assert (Hout : getitem (transform_table parse_datetime mixed_offsets repr float_mean raw) n
                 = Some (take_series (map negb
                     (duplicated (enrich parse_datetime mixed_offsets repr float_mean raw)))
                           (fill_series float_mean (take_series (id_mask raw) s)))).
  { unfold transform_table.
    rewrite remove_duplicates_drop by (by apply rectangular_enrich).
    unfold drop_duplicates. rewrite getitem_take_rows.
    rewrite enrich_stages by done.
    rewrite getitem_status_flags_ne by (by apply not_derived_not_flag).
    rewrite getitem_time_features_ne by (by apply not_derived_not_feature).
    rewrite !getitem_map_where, Hdate.
    rewrite drop_id_gaps_id_mask by done.
    by rewrite getitem_take_rows, Hs. }
  split; [done|]. intros Hc. rewrite Hout.
  by rewrite (fill_series_complete float_mean (take_series (id_mask raw) s))
    by (by apply complete_take).
Qed.





End Columnwise.

Lemma ordinary_column_passes_through_witness :
  getitem (transform_table Iso.parse_datetime Iso.mixed_offsets Iso.repr Iso.float_mean
      sample_orders) "status"
  = Some (take_series (map negb
      (duplicated (enrich Iso.parse_datetime Iso.mixed_offsets Iso.repr Iso.float_mean
      sample_orders)))
            (take_series (id_mask sample_orders)
               (Series Object [Str "Delivered On Time"; Str "Delivered On Time";
                               Str "Late"; Str "Delayed"]))).
Proof.
  refine (proj2 (ordinary_column_passes_through Iso.parse_datetime Iso.mixed_offsets Iso.repr
      Iso.float_mean sample_orders
                   "status" _ _ _ _ _ _) _).
  - apply (bool_decide_unpack _). vm_compute. exact I.
  - apply (bool_decide_unpack _). vm_compute. exact I.
  - reflexivity.
  - reflexivity.
  - apply (bool_decide_unpack _). vm_compute. exact I.
  - reflexivity.
Defined.


(** On the orders with a shipping date the first date-like column is a
    datetime column and the second, with its two UTC offsets, an object
    column. *)
Example dtypes_of_shipped_orders :
  dtype_of <$> getitem (transform_table Iso.parse_datetime Iso.mixed_offsets Iso.repr
                          Iso.float_mean shipped_orders) "order_date" = Some Datetime
  /\ dtype_of <$> getitem (transform_table Iso.parse_datetime Iso.mixed_offsets Iso.repr
                             Iso.float_mean shipped_orders) "ship_date" = Some Object.
Proof. by vm_compute. Qed.


(** ** The words of the delivered pattern *)

Lemma starts_with_append (p q s : string) :
  Text.starts_with (String.append p q) s = true -> Text.starts_with p s = true.
Proof.
  revert s. induction p as [|a p IH]; intros s; simpl; [done|].
  destruct s as [|b s]; [done|]. destruct (Ascii.eqb a b); [apply IH|done].
Qed.

Lemma contains_append (p q s : string) :
  Text.contains (String.append p q) s = true -> Text.contains p s = true.
Proof.
  induction s as [|b s IH]; simpl.
  - rewrite !orb_false_r. apply starts_with_append.
  - intros [H|H]%orb_prop; apply orb_true_iff; [left|right; by apply IH].
    by apply (starts_with_append p q).
Qed.

(** X8. The fourth alternative of the delivered pattern, "delivered on
    time", never decides: a text that contains it contains "delivered", so
    the pattern matches exactly the texts that contain "delivered",
    "completed" or "success", and the [is_delivered] column is the same
    with or without it. *)
Theorem delivered_on_time_is_redundant (status_lower : list string) :
  (forall t, Text.contains_any delivered_words t
             = Text.contains_any ["delivered"; "completed"; "success"] t)
  /\ flag_series delivered_words status_lower
     = flag_series ["delivered"; "completed"; "success"] status_lower.
Proof.
  assert (H : forall t, Text.contains_any delivered_words t
                        = Text.contains_any ["delivered"; "completed"; "success"] t).
  { intros t. unfold Text.contains_any, delivered_words. cbn [existsb].
    destruct (Text.contains "delivered on time" t) eqn:E; [|by rewrite !orb_false_r].
    by rewrite (contains_append "delivered" " on time" t E). }
  split; [done|]. unfold flag_series. f_equal. apply map_ext. intros t. by rewrite H.
Qed.

(** ** Steps that are idempotent on their own *)

Lemma elem_of_keep_first (rs : list (list cell)) (r : list cell) :
  r ∈ keep_first rs <-> r ∈ rs.
Proof.
  induction rs as [|x rs IH]; [done|]. cbn [keep_first].
  rewrite !elem_of_cons, list_elem_of_In, filter_In, <- list_elem_of_In, IH.
  rewrite negb_true_iff, bool_decide_eq_false.
  destruct (decide (r = x)) as [->|Hne]; [by split; [left|left]|].
  split; [intros [Hx | [Hr _]]; [by left | by right] | intros [Hx | Hr]; [by left | by right]].
Qed.

(** X18. Removing duplicates twice is removing them once. *)
Theorem remove_duplicates_idempotent (df : table) :
  rectangular df ->
  remove_duplicates (remove_duplicates df) = remove_duplicates df.
Proof.
  intros H. apply remove_duplicates_settled.
  rewrite remove_duplicates_drop, rows_drop_duplicates by done. apply NoDup_keep_first.
Qed.

(** X19. Filling twice is filling once: after the fill loop every column
    is its own fill, also a column that has no median and keeps its gaps. *)
Theorem fill_missing_idempotent (float_mean : Qc -> Qc -> number) (df : table) :
  NoDup (columns df) ->
  fill_missing float_mean (fill_missing float_mean df) = fill_missing float_mean df.
Proof.
  intros H. rewrite (fill_missing_map float_mean df) by done.
  rewrite fill_missing_map by (by rewrite columns_map_where).
  unfold map_where. rewrite map_map. apply map_ext. intros [n s]. simpl.
  by rewrite fill_series_twice.
Qed.

Section RowSet.

Context (parse_datetime : series -> cell -> option Z) (mixed_offsets : series -> bool)
    (repr : dtype -> cell -> string) (float_mean : Qc -> Qc -> number).

(** X20. Deduplication loses no row value: a row occurs in the output
    exactly when it occurs in the table before deduplication. *)
Theorem deduplication_keeps_every_row (raw : table) (r : list cell) :
  rectangular raw ->
  r ∈ rows (transform_table parse_datetime mixed_offsets repr float_mean raw)
  <-> r ∈ rows (enrich parse_datetime mixed_offsets repr float_mean raw).
Proof.
  intros H. unfold transform_table.
  rewrite remove_duplicates_drop, rows_drop_duplicates by (by apply rectangular_enrich).
  apply elem_of_keep_first.
Qed.

End RowSet.

Lemma remove_duplicates_idempotent_witness :
  remove_duplicates (remove_duplicates sample_orders) = remove_duplicates sample_orders.
Proof.
  apply (remove_duplicates_idempotent sample_orders).
  apply (bool_decide_unpack _). vm_compute. exact I.
Defined.

(** The sample orders have a repeated row, which the first removal drops. *)
Example remove_duplicates_on_sample_orders :
  nrows sample_orders = 4%nat /\ nrows (remove_duplicates sample_orders) = 3%nat.
Proof. by vm_compute. Qed.

Lemma fill_missing_idempotent_witness :
  fill_missing Iso.float_mean (fill_missing Iso.float_mean unbounded_readings)
  = fill_missing Iso.float_mean unbounded_readings.
Proof.
  apply (fill_missing_idempotent Iso.float_mean unbounded_readings).
  apply (bool_decide_unpack _). vm_compute. exact I.
Defined.

Lemma deduplication_keeps_every_row_witness :
  [Str "B2"; NA; Str "Delayed"; Num (QcZ 3); NA; NA; NA; NA;
   Num (QcZ 0); Num (QcZ 1); Num (QcZ 0)]
  ∈ rows (transform_table Iso.parse_datetime Iso.mixed_offsets Iso.repr Iso.float_mean
      sample_orders)
  <-> [Str "B2"; NA; Str "Delayed"; Num (QcZ 3); NA; NA; NA; NA;
       Num (QcZ 0); Num (QcZ 1); Num (QcZ 0)]
      ∈ rows (enrich Iso.parse_datetime Iso.mixed_offsets Iso.repr Iso.float_mean sample_orders).
Proof.
  apply (deduplication_keeps_every_row Iso.parse_datetime Iso.mixed_offsets Iso.repr Iso.float_mean
      sample_orders).
  apply (bool_decide_unpack _). vm_compute. exact I.
Defined.

(** ** The two metrics of [validate] *)

Lemma Qc_of_nat_ratio (a b : nat) :
  b <> 0%nat -> (a <= b)%nat ->
  (0 <= Qc_of_nat a / Qc_of_nat b)%Qc /\ (Qc_of_nat a / Qc_of_nat b <= 1)%Qc.
Proof.
  intros Hb Hab. unfold Qcle, Qcdiv, Qcmult, Qcinv, Qc_of_nat, QcZ. simpl.
  rewrite !Qred_correct.
  change (inject_Z (Z.of_nat a) * / inject_Z (Z.of_nat b))%Q
    with (inject_Z (Z.of_nat a) / inject_Z (Z.of_nat b))%Q.
  assert (Hpos : (0 < inject_Z (Z.of_nat b))%Q).
  { unfold Qlt. simpl. lia. }
  split.
  - apply Qle_shift_div_l; [done|]. unfold Qle. simpl. lia.
  - apply Qle_shift_div_r; [done|]. unfold Qle. simpl. lia.
Qed.

Lemma Qc_percent (q : Qc) :
  (0 <= q)%Qc -> (q <= 1)%Qc -> (0 <= q * QcZ 100)%Qc /\ (q * QcZ 100 <= QcZ 100)%Qc.
Proof.
  intros H0 H1. assert (Hpos : (0 <= QcZ 100)%Qc) by done. split.
  - rewrite <- (Qcmult_0_l (QcZ 100)). by apply Qcmult_le_compat_r.
  - rewrite <- (Qcmult_1_l (QcZ 100)) at 2. by apply Qcmult_le_compat_r.
Qed.

Lemma length_remove_dups_le {A} `{EqDecision A} (l : list A) :
  (length (remove_dups l) <= length l)%nat.
Proof.
  induction l as [|x l IH]; simpl; [done|].
  destruct (decide_rel elem_of x l); simpl; lia.
Qed.

Lemma nunique_le (s : series) : (nunique s <= length (values s))%nat.
Proof.
  unfold nunique. etrans; [apply length_remove_dups_le|]. apply List.filter_length_le.
Qed.

Lemma count_true_le (mask : list bool) : (count_true mask <= length mask)%nat.
Proof. unfold count_true. apply List.filter_length_le. Qed.

Lemma total_missing_le (n : nat) (df : table) :
  shape n df -> (total_missing df <= n * length df)%nat.
Proof.
  intros H. unfold total_missing. induction H as [|[m s] df Hs _ IH]; simpl in *; [lia|].
  pose proof (count_true_le (map isna (values s))) as Hc. rewrite length_map in Hc. nia.
Qed.

(** X11. The two metrics [validate] prints are proportions: the unique
    ratio of the identifier column lies between 0 and 1 and the missing
    percentage between 0 and 100, for every clean table with columns of one
    length. *)
Theorem validate_metrics_bounded (w : world) (df : table) (msg : message) :
  clean_table w = Some df -> rectangular df ->
  msg ∈ stdout (snd (validate w)) ->
  msg ∈ stdout w
  \/ (exists c q, msg = MsgUniqueRatio c q /\ (0 <= q)%Qc /\ (q <= 1)%Qc)
  \/ (exists p, msg = MsgMissingPct p /\ (0 <= p)%Qc /\ (p <= QcZ 100)%Qc).
Proof.
  intros (r & Hfield & Hdf)%clean_table_Some Hrect. unfold validate.
  erewrite bind_ok; [|reflexivity].
  erewrite bind_ok; [|rewrite Hfield; by apply frame_or_eq].
  assert (Hratio : exists res w1,
             (match columns_containing "id" df with
              | [] => mret tt
              | id_col :: _ =>
                  match getitem df id_col with
                  | None => mret tt
                  | Some s =>
                      unique_ratio ← truediv (Qc_of_nat (nunique s)) (Qc_of_nat (nrows df));
                      print (MsgUniqueRatio id_col unique_ratio)
                  end
              end) w = (res, w1)
             /\ (w1 = w
                 \/ res = Ok tt
                    /\ exists c q, w1 = with_stdout (stdout w ++ [MsgUniqueRatio c q]) w
                                   /\ (0 <= q)%Qc /\ (q <= 1)%Qc)).
  { destruct (columns_containing "id" df) as [|id_col rest]; [by eauto|].
    destruct (getitem df id_col) as [s|] eqn:Hs; [|by eauto].
    destruct (decide (nrows df = 0%nat)) as [Hz|Hnz].
    - do 2 eexists. split; [|by left].
      erewrite bind_raise; [reflexivity|]. rewrite Hz. unfold truediv.
      by destruct (decide (Qc_of_nat 0 = 0%Qc)).
    - do 2 eexists. split.
      + erewrite bind_ok; [reflexivity|]. apply truediv_returns.
        by intros ?%Qc_of_nat_zero.
      + right. split; [done|]. do 2 eexists. split; [reflexivity|].
        apply Qc_of_nat_ratio; [done|].
        rewrite <- (shape_getitem _ _ _ _ Hrect Hs). apply nunique_le. }
  destruct Hratio as (res & w1 & Hrun & Hw1).
  destruct res as [[]|e].
  - erewrite bind_ok; [|exact Hrun].
    assert (Hpct : exists p,
               ((if (nrows df * length df =? 0)%nat then mret 0%Qc
                 else q ← truediv (Qc_of_nat (total_missing df))
                                  (Qc_of_nat (nrows df * length df));
                      mret (q * QcZ 100)%Qc)
                ≫= (fun missing_pct => print (MsgMissingPct missing_pct))) w1
               = (Ok tt, with_stdout (stdout w1 ++ [MsgMissingPct p]) w1)
               /\ (0 <= p)%Qc /\ (p <= QcZ 100)%Qc).
    { destruct (nrows df * length df =? 0)%nat eqn:Hcells.
      - exists 0%Qc. by split.
      - apply Nat.eqb_neq in Hcells. eexists. split.
        + erewrite bind_ok; [reflexivity|].
          erewrite bind_ok; [reflexivity|].
          apply truediv_returns. by intros ?%Qc_of_nat_zero.
        + apply Qc_percent; apply Qc_of_nat_ratio; try done;
            by apply total_missing_le. }
    destruct Hpct as (p & -> & Hp0 & Hp1). simpl.
    intros [Hin|Hin%list_elem_of_singleton]%elem_of_app.
    + destruct Hw1 as [->|(_ & c & q & -> & Hq0 & Hq1)]; [by left|].
      simpl in Hin. apply elem_of_app in Hin as [?|Hin%list_elem_of_singleton]; [by left|].
      right. left. eauto.
    + right. right. eauto.
  - erewrite bind_raise; [|exact Hrun]. simpl.
    destruct Hw1 as [->|(? & _)]; [by left|done].
Qed.

Lemma validate_metrics_bounded_witness :
  MsgMissingPct (Q2Qc (25 # 1)) ∈ stdout loaded_world
  \/ (exists c q, MsgMissingPct (Q2Qc (25 # 1)) = MsgUniqueRatio c q /\ (0 <= q)%Qc /\ (q <= 1)%Qc)
  \/ (exists p, MsgMissingPct (Q2Qc (25 # 1)) = MsgMissingPct p
                /\ (0 <= p)%Qc /\ (p <= QcZ 100)%Qc).
Proof.
  apply (validate_metrics_bounded loaded_world undated_orders).
  - reflexivity.
  - apply (bool_decide_unpack _). vm_compute. exact I.
  - apply (bool_decide_unpack _). vm_compute. exact I.
Defined.
